(** * The default bundler: bundling core and optimizer

    A shallow embedding of [packages/bundlers/default/src/DefaultBundler.js]:
    the [bundle] visitor (pass 1), the four optimizer passes of [optimize]
    and [deduplicateBundle], over a model of the mutable bundle graph they
    drive.

    JavaScript [Map]s and [Set]s iterate in insertion order and the code
    relies on it (the order of [candidateBundles.values()], the spread of
    [sourceBundles]), so they are modelled as lists in insertion order.
    Objects are identified by their [id]. *)

From Stdlib Require Import List String Ascii ZArith Bool Arith Lia.
From Stdlib Require Import Sorted Permutation.
Import ListNotations.

Local Open Scope list_scope.

Set Implicit Arguments.

(** ** Results of fallible code

    [invariant(...)] and [nullthrows(...)] abort bundling with an error. *)

Inductive Result (A : Type) : Type :=
| Ok (a : A)
| Err (msg : string).

Arguments Ok {A} a.
Arguments Err {A} msg.

Definition bind {A B : Type} (r : Result A) (k : A -> Result B) : Result B :=
  match r with
  | Ok a => k a
  | Err msg => Err msg
  end.

Notation "x <- r ;; k" := (bind r (fun x => k))
  (at level 61, r at next level, right associativity).

(** [nullthrows(x)] *)
Definition nullthrows {A : Type} (x : option A) : Result A :=
  match x with
  | Some a => Ok a
  | None => Err "Got unexpected null"%string
  end.

(** [invariant(cond)] *)
Definition invariant (cond : bool) : Result unit :=
  if cond then Ok tt else Err "invariant"%string.

(** [x ?? y] *)
Definition orElse {A : Type} (x y : option A) : option A :=
  match x with
  | Some _ => x
  | None => y
  end.

(** ** Tunables *)

Module OPTIONS.
Definition minBundles : nat := 1.
Definition minBundleSize : Z := 30000.
Definition maxParallelRequests : nat := 5.
End OPTIONS.

(** ** Data model

    The types of [@parcel/types] the bundler works with, with the
    attributes the data model of the specification gives them. *)

Module Environment.
Record t : Type := mk {
  context : string;
  outputFormat : string;
  isLibrary : bool;
  (** the answer of [env.isIsolated()] *)
  isIsolated : bool
}.
End Environment.

Module Target.
Record t : Type := mk {
  distDir : string;
  publicUrl : string;
  env : Environment.t
}.
End Target.

Module Asset.
Record t : Type := mk {
  id : string;
  type : string;
  size : Z;
  isInline : bool;
  isIsolated : bool;
  env : Environment.t
}.

Definition eqb (a b : t) : bool := String.eqb (id a) (id b).
End Asset.

Module Dependency.
Record t : Type := mk {
  id : string;
  isEntry : bool;
  isAsync : bool;
  target : option Target.t
}.

Definition eqb (a b : t) : bool := String.eqb (id a) (id b).
End Dependency.

Module Bundle.
Record t : Type := mk {
  id : string;
  type : string;
  env : Environment.t;
  target : Target.t;
  isEntry : bool;
  isInline : bool;
  isSplittable : bool;
  entryAssets : list Asset.t
}.

Definition eqb (a b : t) : bool := String.eqb (id a) (id b).

(** Modelled from the spec: [bundle.getMainEntry()], the main entry of
    the bundle: the last of its entry assets, [None] for a bundle created
    from a [uniqueKey]. *)
Definition getMainEntry (b : t) : option Asset.t :=
  last (map Some (entryAssets b)) None.
End Bundle.

Module BundleGroup.
Record t : Type := mk {
  dependency : Dependency.t;
  target : Target.t
}.

Definition eqb (a b : t) : bool :=
  Dependency.eqb (dependency a) (dependency b).
End BundleGroup.

(** A node of the asset graph: [node.type] is ['asset'] or ['dependency'],
    [node.value] the asset or the dependency. *)
Inductive Node : Type :=
| AssetNode (value : Asset.t)
| DependencyNode (value : Dependency.t).

Definition nodeEqb (n m : Node) : bool :=
  match n, m with
  | AssetNode a, AssetNode b => Asset.eqb a b
  | DependencyNode a, DependencyNode b => Dependency.eqb a b
  | _, _ => false
  end.

(** The read-only input: the dependencies of the virtual root, the
    dependencies of every asset and the assets every dependency resolves
    to, each in the graph's stable order. *)
Record AssetGraph : Type := mkAssetGraph {
  entryDependencies : list Dependency.t;
  dependenciesOf : list (string * list Dependency.t);
  resolutionsOf : list (string * list Asset.t)
}.

(** The mutable overlay.  [bundles] is in creation order; every
    bundle-group comes with its ordered bundles; [containment] relates
    bundle ids to the assets attached to them. *)
Record BundleGraph : Type := mkBundleGraph {
  assetGraph : AssetGraph;
  bundles : list Bundle.t;
  bundleGroups : list (BundleGroup.t * list Bundle.t);
  containment : list (string * Asset.t);
  bundleReferences : list (Bundle.t * Bundle.t);
  assetReferences : list (Dependency.t * Asset.t);
  internalized : list (string * string)
}.

(** ** Small list utilities *)

Fixpoint assoc {V : Type} (k : string) (l : list (string * V)) : option V :=
  match l with
  | [] => None
  | (k', v) :: rest => if String.eqb k k' then Some v else assoc k rest
  end.

Definition assocList {V : Type} (k : string) (l : list (string * list V))
  : list V :=
  match assoc k l with
  | Some vs => vs
  | None => []
  end.

Definition memAsset (a : Asset.t) (l : list Asset.t) : bool :=
  existsb (Asset.eqb a) l.

Definition memBundle (b : Bundle.t) (l : list Bundle.t) : bool :=
  existsb (Bundle.eqb b) l.

Definition memGroup (g : BundleGroup.t) (l : list BundleGroup.t) : bool :=
  existsb (BundleGroup.eqb g) l.

(** [set.add(x)] on a [Set] kept in insertion order. *)
Definition setAddBundle (s : list Bundle.t) (b : Bundle.t) : list Bundle.t :=
  if memBundle b s then s else s ++ [b].

Definition setAddGroup (s : list BundleGroup.t) (g : BundleGroup.t)
  : list BundleGroup.t :=
  if memGroup g s then s else s ++ [g].

(** [new Set(xs)] *)
Definition setOfBundles (xs : list Bundle.t) : list Bundle.t :=
  fold_left setAddBundle xs [].

(** [xs.sort()] on strings: ascending by code units. *)
Fixpoint insertString (x : string) (l : list string) : list string :=
  match l with
  | [] => [x]
  | y :: rest => if String.leb x y then x :: l else y :: insertString x rest
  end.

Definition sortStrings (l : list string) : list string :=
  fold_right insertString [] l.

(** ** The asset graph seen through the bundle graph *)

(** Modelled from the spec: [getDependencyAssets(dep)], a pure query of the
    input graph (the BundleGraph implementation is not part of the sources):
    the assets the dependency resolves to. *)
Definition getDependencyAssets (g : BundleGraph) (dep : Dependency.t)
  : list Asset.t :=
  assocList (Dependency.id dep) (resolutionsOf (assetGraph g)).

(** Modelled from the spec: [getDependencyResolution(dep)], the resolved
    asset of the dependency, if any: the first of its resolved assets. *)
Definition getDependencyResolution (g : BundleGraph) (dep : Dependency.t)
  : option Asset.t :=
  hd_error (getDependencyAssets g dep).

(** Modelled from the spec: [getDependencies(asset)]. *)
Definition getDependencies (g : BundleGraph) (a : Asset.t)
  : list Dependency.t :=
  assocList (Asset.id a) (dependenciesOf (assetGraph g)).

(** Children of a node in the asset graph. *)
Definition children (g : BundleGraph) (n : Node) : list Node :=
  match n with
  | AssetNode a => map DependencyNode (getDependencies g a)
  | DependencyNode d => map AssetNode (getDependencyAssets g d)
  end.

(** A bound on the number of distinct nodes of the asset graph, hence on
    the depth of any depth-first descent that enters a node once. *)
Definition nodeBound (g : BundleGraph) : nat :=
  2 + List.length (entryDependencies (assetGraph g))
    + List.length (flat_map snd (dependenciesOf (assetGraph g)))
    + List.length (flat_map snd (resolutionsOf (assetGraph g))).

(** ** Traversal *)

Section Traversal.
Variables (St Ctx : Type).
Variable next : Node -> list Node.
(** [enter node ctx st] returns the new state, the context handed to the
    children, and whether [actions.skipChildren()] was called. *)
Variable enter : Node -> Ctx -> St -> St * Ctx * bool.

(** Modelled from the spec: the traversal contract of GraphModel.
    Depth-first from the given node; [enter] runs on descent and its
    context goes to the children; a node is entered once (the visited
    list); [skipChildren] prunes the descent below the node. *)
Fixpoint walk (fuel : nat) (ctx : Ctx) (acc : list Node * St) (node : Node)
  : list Node * St :=
  match fuel with
  | O => acc
  | S fuel' =>
      if existsb (nodeEqb node) (fst acc) then acc
      else
        match enter node ctx (snd acc) with
        | (st', ctx', skip) =>
            if skip then (fst acc ++ [node], st')
            else fold_left (walk fuel' ctx') (next node)
                           (fst acc ++ [node], st')
        end
  end.

Definition walkAll (fuel : nat) (ctx : Ctx) (roots : list Node) (st : St)
  : list Node * St :=
  fold_left (walk fuel ctx) roots ([], st).
End Traversal.

(** Modelled from the spec: [bundleGraph.traverse(visitor)] and
    [bundleGraph.traverseContents(visitor)], depth-first over the asset
    and dependency nodes from the dependencies of the root. *)
Definition traverse {St Ctx : Type} (g : BundleGraph)
  (enter : Node -> Ctx -> St -> St * Ctx * bool) (ctx : Ctx) (st : St) : St :=
  snd (walkAll (children g) enter (nodeBound g) ctx
         (map DependencyNode (entryDependencies (assetGraph g))) st).

(** ** Containment *)

(** Modelled from the spec: [bundle.hasAsset(asset)], the containment
    relation between assets and bundles. *)
Definition hasAsset (g : BundleGraph) (b : Bundle.t) (a : Asset.t) : bool :=
  existsb (fun p => String.eqb (fst p) (Bundle.id b) && Asset.eqb (snd p) a)
          (containment g).

Definition bundleAssets (g : BundleGraph) (b : Bundle.t) : list Asset.t :=
  map snd (filter (fun p => String.eqb (fst p) (Bundle.id b)) (containment g)).

(** Modelled from the spec: a dependency is across a split point when it
    is async or resolves to an isolated or inline asset. *)
Definition crossesSplitPoint (g : BundleGraph) (d : Dependency.t) : bool :=
  Dependency.isAsync d
  || existsb (fun a => Asset.isIsolated a || Asset.isInline a)
             (getDependencyAssets g d).

Definition bundledChildren (g : BundleGraph) (a : Asset.t) : list Asset.t :=
  flat_map (getDependencyAssets g)
           (filter (fun d => negb (crossesSplitPoint g d)) (getDependencies g a)).

(** Depth-first closure: what is reachable from [a] through [next], among
    the elements [keep] accepts, in the order of discovery. *)
Section Collect.
Variable A : Type.
Variable eqb : A -> A -> bool.
Variable next : A -> list A.
Variable keep : A -> bool.

Fixpoint collect (fuel : nat) (seen : list A) (a : A) : list A :=
  match fuel with
  | O => seen
  | S fuel' =>
      if existsb (eqb a) seen || negb (keep a) then seen
      else fold_left (collect fuel') (next a) (seen ++ [a])
  end.
End Collect.

Definition collectAssets (next : Asset.t -> list Asset.t)
  (keep : Asset.t -> bool) (fuel : nat) (seen : list Asset.t) (a : Asset.t)
  : list Asset.t :=
  collect Asset.eqb next keep fuel seen a.

(** The subgraph of [a] that is bundled with it: everything reachable
    without crossing a split point. *)
Definition assetSubgraph (g : BundleGraph) (a : Asset.t) : list Asset.t :=
  collectAssets (bundledChildren g) (fun _ => true) (nodeBound g) [] a.

Definition withContainment (g : BundleGraph) (c : list (string * Asset.t))
  : BundleGraph :=
  mkBundleGraph (assetGraph g) (bundles g) (bundleGroups g) c
                (bundleReferences g) (assetReferences g) (internalized g).

Definition withBundleGroups (g : BundleGraph)
  (gs : list (BundleGroup.t * list Bundle.t)) : BundleGraph :=
  mkBundleGraph (assetGraph g) (bundles g) gs (containment g)
                (bundleReferences g) (assetReferences g) (internalized g).

Definition attach (b : Bundle.t) (c : list (string * Asset.t)) (a : Asset.t)
  : list (string * Asset.t) :=
  if existsb (fun p => String.eqb (fst p) (Bundle.id b) && Asset.eqb (snd p) a) c
  then c else c ++ [(Bundle.id b, a)].

(** Modelled from the spec: [addAssetGraphToBundle(asset, bundle)] attaches
    [asset] and every asset transitively reachable via dependencies that
    are not across a split point; idempotent per asset per bundle. *)
Definition addAssetGraphToBundle (g : BundleGraph) (a : Asset.t) (b : Bundle.t)
  : BundleGraph :=
  withContainment g (fold_left (attach b) (assetSubgraph g a) (containment g)).

(** What [removeAssetGraphFromBundle(asset, bundle)] takes out of
    [bundle]: the assets reachable from [asset] within the bundle, except
    those another entry of the bundle reaches without going through
    [asset]. *)
Definition removedAssets (g : BundleGraph) (a : Asset.t) (b : Bundle.t)
  : list Asset.t :=
  let reach :=
    collectAssets (bundledChildren g) (hasAsset g b) (nodeBound g) [] a in
  let others :=
    filter (fun e => negb (Asset.eqb e a)) (Bundle.entryAssets b) in
  let kept :=
    fold_left
      (collectAssets (bundledChildren g)
         (fun x => hasAsset g b x && negb (Asset.eqb x a)) (nodeBound g))
      others [] in
  filter (fun x => negb (memAsset x kept)) reach.

(** Modelled from the spec: [removeAssetGraphFromBundle(asset, bundle)],
    the inverse of [addAssetGraphToBundle]: removes only assets still
    reachable from [asset] within [bundle] and not reachable from any other
    entry of [bundle]. *)
Definition removeAssetGraphFromBundle (g : BundleGraph) (a : Asset.t)
  (b : Bundle.t) : BundleGraph :=
  let removed := removedAssets g a b in
  withContainment g
    (filter (fun p => negb (String.eqb (fst p) (Bundle.id b)
                            && memAsset (snd p) removed))
            (containment g)).

(** Modelled from the spec: [findBundlesWithAsset(asset)], in the stable
    order of the bundles. *)
Definition findBundlesWithAsset (g : BundleGraph) (a : Asset.t)
  : list Bundle.t :=
  filter (fun b => hasAsset g b a) (bundles g).

(** Modelled from the spec: a bundle contains a dependency when it
    contains the asset that has it. *)
Definition hasDependency (g : BundleGraph) (b : Bundle.t) (d : Dependency.t)
  : bool :=
  existsb (fun a => existsb (Dependency.eqb d) (getDependencies g a))
          (bundleAssets g b).

(** Modelled from the spec: [findBundlesWithDependency(dep)]. *)
Definition findBundlesWithDependency (g : BundleGraph) (d : Dependency.t)
  : list Bundle.t :=
  filter (fun b => hasDependency g b d) (bundles g).

(** Modelled from the spec: [getTotalSize(asset)], the size of the
    subgraph rooted at the asset. *)
Definition getTotalSize (g : BundleGraph) (a : Asset.t) : Z :=
  fold_left (fun acc x => (acc + Asset.size x)%Z) (assetSubgraph g a) 0%Z.

(** ** Bundles, bundle-groups and references *)

Definition withBundles (g : BundleGraph) (bs : list Bundle.t) : BundleGraph :=
  mkBundleGraph (assetGraph g) bs (bundleGroups g) (containment g)
                (bundleReferences g) (assetReferences g) (internalized g).

Definition withBundleReferences (g : BundleGraph)
  (rs : list (Bundle.t * Bundle.t)) : BundleGraph :=
  mkBundleGraph (assetGraph g) (bundles g) (bundleGroups g) (containment g)
                rs (assetReferences g) (internalized g).

Definition withAssetReferences (g : BundleGraph)
  (rs : list (Dependency.t * Asset.t)) : BundleGraph :=
  mkBundleGraph (assetGraph g) (bundles g) (bundleGroups g) (containment g)
                (bundleReferences g) rs (internalized g).

Definition withInternalized (g : BundleGraph) (l : list (string * string))
  : BundleGraph :=
  mkBundleGraph (assetGraph g) (bundles g) (bundleGroups g) (containment g)
                (bundleReferences g) (assetReferences g) l.

(** Modelled from the spec: [createBundleGroup(dep, target)]. *)
Definition createBundleGroup (g : BundleGraph) (dep : Dependency.t)
  (target : Target.t) : BundleGraph * BundleGroup.t :=
  let bundleGroup := BundleGroup.mk dep target in
  (withBundleGroups g (bundleGroups g ++ [(bundleGroup, [])]), bundleGroup).

Module CreateBundleOpts.
Record t : Type := mk {
  entryAsset : option Asset.t;
  uniqueKey : option string;
  type : option string;
  env : option Environment.t;
  target : Target.t;
  isEntry : option bool;
  isInline : option bool;
  isSplittable : option bool
}.
End CreateBundleOpts.

Definition orDefault {A : Type} (x : option A) (d : A) : A :=
  match x with
  | Some a => a
  | None => d
  end.

(** Modelled from the spec: the bundle [createBundle(opts)] makes
    ([createBundle] is not in the source).  The spec has it that either
    [entryAsset] or [uniqueKey] must be given, that the unique key
    identifies a shared bundle, that the type of a bundle is inherited
    from its entry asset, and that the entry asset is the root of the
    bundle.  The spec does not say what a bundle gets for what the
    caller leaves out; the model assumes that the id is the unique key,
    else the id of the entry asset, that the environment is that of the
    entry asset, that an absent [isEntry] or [isInline] is false, and
    that an absent [isSplittable] is true (with false, steps 2 to 4
    would leave every bundle of step 1 alone). *)
Definition newBundle (opts : CreateBundleOpts.t) : Result Bundle.t :=
  id <- nullthrows (orElse (CreateBundleOpts.uniqueKey opts)
                      (option_map Asset.id (CreateBundleOpts.entryAsset opts))) ;;
  type <- nullthrows (orElse (CreateBundleOpts.type opts)
                      (option_map Asset.type (CreateBundleOpts.entryAsset opts))) ;;
  env <- nullthrows (orElse (CreateBundleOpts.env opts)
                      (option_map Asset.env (CreateBundleOpts.entryAsset opts))) ;;
  Ok (Bundle.mk id type env (CreateBundleOpts.target opts)
        (orDefault (CreateBundleOpts.isEntry opts) false)
        (orDefault (CreateBundleOpts.isInline opts) false)
        (orDefault (CreateBundleOpts.isSplittable opts) true)
        (match CreateBundleOpts.entryAsset opts with
         | Some a => [a]
         | None => []
         end)).

Definition replaceBundle (b x : Bundle.t) : Bundle.t :=
  if Bundle.eqb x b then b else x.

(** Modelled from the spec: [createBundle(opts)].  A bundle is a node
    identified by its id: creating one whose id exists replaces that
    node, wherever the graph mentions it. *)
Definition createBundle (g : BundleGraph) (opts : CreateBundleOpts.t)
  : Result (BundleGraph * Bundle.t) :=
  b <- newBundle opts ;;
  if memBundle b (bundles g)
  then Ok (mkBundleGraph (assetGraph g)
             (map (replaceBundle b) (bundles g))
             (map (fun e => (fst e, map (replaceBundle b) (snd e)))
                  (bundleGroups g))
             (containment g)
             (map (fun r => (replaceBundle b (fst r), replaceBundle b (snd r)))
                  (bundleReferences g))
             (assetReferences g) (internalized g), b)
  else Ok (withBundles g (bundles g ++ [b]), b).

(** Modelled from the spec: [addBundleToBundleGroup(bundle, group)],
    idempotent; the bundles of a group are ordered. *)
Definition addBundleToBundleGroup (g : BundleGraph) (b : Bundle.t)
  (bundleGroup : BundleGroup.t) : BundleGraph :=
  withBundleGroups g
    (map (fun e =>
            if BundleGroup.eqb (fst e) bundleGroup && negb (memBundle b (snd e))
            then (fst e, snd e ++ [b]) else e)
         (bundleGroups g)).

Fixpoint groupMembers (bundleGroup : BundleGroup.t)
  (l : list (BundleGroup.t * list Bundle.t)) : list Bundle.t :=
  match l with
  | [] => []
  | (g', members) :: rest =>
      if BundleGroup.eqb g' bundleGroup then members
      else groupMembers bundleGroup rest
  end.

(** Modelled from the spec: [getBundlesInBundleGroup(group)]. *)
Definition getBundlesInBundleGroup (g : BundleGraph)
  (bundleGroup : BundleGroup.t) : list Bundle.t :=
  groupMembers bundleGroup (bundleGroups g).

(** Modelled from the spec: [getBundleGroupsContainingBundle(bundle)]. *)
Definition getBundleGroupsContainingBundle (g : BundleGraph) (b : Bundle.t)
  : list BundleGroup.t :=
  filter (fun bundleGroup => memBundle b (getBundlesInBundleGroup g bundleGroup))
         (map fst (bundleGroups g)).

(** Modelled from the spec: [createBundleReference(from, to)]. *)
Definition createBundleReference (g : BundleGraph) (from to : Bundle.t)
  : BundleGraph :=
  if existsb (fun r => Bundle.eqb (fst r) from && Bundle.eqb (snd r) to)
             (bundleReferences g)
  then g else withBundleReferences g (bundleReferences g ++ [(from, to)]).

(** Modelled from the spec: [getReferencedBundles(bundle)]. *)
Definition getReferencedBundles (g : BundleGraph) (b : Bundle.t)
  : list Bundle.t :=
  map snd (filter (fun r => Bundle.eqb (fst r) b) (bundleReferences g)).

(** Modelled from the spec: [createAssetReference(dep, asset)]. *)
Definition createAssetReference (g : BundleGraph) (dep : Dependency.t)
  (a : Asset.t) : BundleGraph :=
  withAssetReferences g (assetReferences g ++ [(dep, a)]).

(** ** Ancestors *)

Fixpoint membersBefore (b : Bundle.t) (members : list Bundle.t)
  : list Bundle.t :=
  match members with
  | [] => []
  | x :: rest => if Bundle.eqb x b then [] else x :: membersBefore b rest
  end.

(** One step towards the ancestors of [b] in a group: the co-members of
    the group at an earlier position, and the bundles that reference [b]. *)
Definition ancestorStep (g : BundleGraph) (bundleGroup : BundleGroup.t)
  (b : Bundle.t) : list Bundle.t :=
  let members := getBundlesInBundleGroup g bundleGroup in
  (if memBundle b members then membersBefore b members else [])
  ++ map fst (filter (fun r => Bundle.eqb (snd r) b) (bundleReferences g)).

Definition bundleBound (g : BundleGraph) : nat :=
  2 + List.length (bundles g)
    + List.length (flat_map snd (bundleGroups g))
    + List.length (bundleReferences g).

Definition ancestorsIn (g : BundleGraph) (bundleGroup : BundleGroup.t)
  (b : Bundle.t) : list Bundle.t :=
  filter (fun x => negb (Bundle.eqb x b))
    (collect Bundle.eqb (ancestorStep g bundleGroup) (fun _ => true)
       (bundleBound g) [] b).

(** Modelled from the spec: [isAssetInAncestorBundles(bundle, asset)] is
    true iff for every bundle-group containing [bundle] some other bundle
    that is an ancestor of it there has the asset; ancestry is computed
    over the co-members of the group with an earlier position and the
    bundles that reference the current bundle, recursively. *)
Definition isAssetInAncestorBundles (g : BundleGraph) (b : Bundle.t)
  (a : Asset.t) : bool :=
  forallb (fun bundleGroup =>
             existsb (fun x => hasAsset g x a) (ancestorsIn g bundleGroup b))
          (getBundleGroupsContainingBundle g b).

(** ** Async dependencies *)

Definition isInternalized (g : BundleGraph) (b : Bundle.t) (d : Dependency.t)
  : bool :=
  existsb (fun p => String.eqb (fst p) (Bundle.id b)
                    && String.eqb (snd p) (Dependency.id d))
          (internalized g).

(** Modelled from the spec: [internalizeAsyncDependency(bundle, dep)]
    marks the async dependency as satisfied inside [bundle]. *)
Definition internalizeAsyncDependency (g : BundleGraph) (b : Bundle.t)
  (d : Dependency.t) : BundleGraph :=
  if isInternalized g b d then g
  else withInternalized g (internalized g ++ [(Bundle.id b, Dependency.id d)]).

(** Modelled from the spec: [getParentBundlesOfBundleGroup(group)], the
    bundles that load the group: they contain its dependency and have not
    internalized it. *)
Definition getParentBundlesOfBundleGroup (g : BundleGraph)
  (bundleGroup : BundleGroup.t) : list Bundle.t :=
  filter (fun b => negb (isInternalized g b (BundleGroup.dependency bundleGroup)))
         (findBundlesWithDependency g (BundleGroup.dependency bundleGroup)).

(** Modelled from the spec: [removeBundleGroup(group)] also removes the
    bundles that are no longer in any group. *)
Definition removeBundleGroup (g : BundleGraph) (bundleGroup : BundleGroup.t)
  : BundleGraph :=
  let members := getBundlesInBundleGroup g bundleGroup in
  let groups' :=
    filter (fun e => negb (BundleGroup.eqb (fst e) bundleGroup))
           (bundleGroups g) in
  let orphan b :=
    memBundle b members && negb (existsb (fun e => memBundle b (snd e)) groups') in
  mkBundleGraph (assetGraph g)
    (filter (fun b => negb (orphan b)) (bundles g))
    groups'
    (filter (fun p => negb (existsb (fun b => String.eqb (fst p) (Bundle.id b)
                                              && orphan b) (bundles g)))
            (containment g))
    (filter (fun r => negb (orphan (fst r)) && negb (orphan (snd r)))
            (bundleReferences g))
    (assetReferences g)
    (internalized g).

Inductive ExternalResolution : Type :=
| ResolvedBundleGroup (value : BundleGroup.t)
| ResolvedAsset (value : Asset.t).

(** Modelled from the spec: [resolveExternalDependency(dep)] answers with
    the bundle-group the dependency triggers, or with the asset it
    references in another bundle. *)
Definition resolveExternalDependency (g : BundleGraph) (d : Dependency.t)
  : option ExternalResolution :=
  match find (fun e => Dependency.eqb (BundleGroup.dependency (fst e)) d)
             (bundleGroups g) with
  | Some e => Some (ResolvedBundleGroup (fst e))
  | None =>
      match find (fun r => Dependency.eqb (fst r) d) (assetReferences g) with
      | Some r => Some (ResolvedAsset (snd r))
      | None => None
      end
  end.

(** Modelled from the spec: [traverseBundles(visitor)] goes over every
    bundle once.  A function visitor is called on the way down, in the
    stable order of the bundles; an [exit] visitor on the way up, the
    bundles created last first. *)
Definition traverseBundles {St : Type} (g : BundleGraph)
  (visit : St -> Bundle.t -> St) (st : St) : St :=
  fold_left visit (bundles g) st.

Definition traverseBundlesExit {St : Type} (g : BundleGraph)
  (exit : St -> Bundle.t -> St) (st : St) : St :=
  fold_left exit (rev (bundles g)) st.

(** Modelled from the spec: [bundle.traverse(visitor)] goes over the asset
    subgraph of the bundle: every asset attached to it, in the order of
    attachment, followed by its dependencies.  The bundle changes while
    it is traversed; an asset that has left it by the time it is reached
    is not entered. *)
Definition bundleTraverse (g : BundleGraph) (b : Bundle.t)
  (visit : BundleGraph -> Node -> BundleGraph) : BundleGraph :=
  fold_left
    (fun g a =>
       if hasAsset g b a
       then fold_left visit
              (AssetNode a :: map DependencyNode (getDependencies g a)) g
       else g)
    (bundleAssets g b) g.

(** * The optimizer *)

(** ** [deduplicateBundle] *)

Definition deduplicateVisitor (bundle : Bundle.t) (g : BundleGraph)
  (node : Node) : BundleGraph :=
  match node with
  | AssetNode _ => g
  | DependencyNode dependency =>
      let assets := getDependencyAssets g dependency in
      fold_left
        (fun g asset =>
           if hasAsset g bundle asset
              && isAssetInAncestorBundles g bundle asset
           then removeAssetGraphFromBundle g asset bundle
           else g)
        assets g
  end.

Definition deduplicateBundle (g : BundleGraph) (bundle : Bundle.t)
  : BundleGraph :=
  if Environment.isIsolated (Bundle.env bundle)
     || negb (Bundle.isSplittable bundle)
  then g
  else bundleTraverse g bundle (deduplicateVisitor bundle).

(** ** Step 2: remove asset graphs that begin with entries to other bundles *)

(** The body of [for (let candidate of candidates)]. *)
Definition reparentCandidate (bundle : Bundle.t) (mainEntry : Asset.t)
  (siblings : list Bundle.t) (g : BundleGraph) (candidate : Bundle.t)
  : BundleGraph :=
  let bundleGroups := getBundleGroupsContainingBundle g candidate in
  if forallb
       (fun group =>
          List.length (getBundlesInBundleGroup g group)
          <? OPTIONS.maxParallelRequests)
       bundleGroups
  then
    let g := removeAssetGraphFromBundle g mainEntry candidate in
    fold_left
      (fun g bundleGroup =>
         fold_left
           (fun g bundleToAdd => addBundleToBundleGroup g bundleToAdd bundleGroup)
           (bundle :: siblings) g)
      bundleGroups g
  else g.

Definition reparentCandidates (g : BundleGraph) (bundle : Bundle.t)
  (mainEntry : Asset.t) : list Bundle.t :=
  filter
    (fun containingBundle =>
       negb (String.eqb (Bundle.id containingBundle) (Bundle.id bundle))
       && negb (Bundle.isEntry containingBundle)
       && negb (Bundle.isInline containingBundle)
       && Bundle.isSplittable containingBundle)
    (findBundlesWithAsset g mainEntry).

Definition reparentSiblings (g : BundleGraph) (bundle : Bundle.t)
  : list Bundle.t :=
  filter (fun sibling => negb (Bundle.isInline sibling))
         (getReferencedBundles g bundle).

Definition reparentVisitor (g : BundleGraph) (bundle : Bundle.t)
  : BundleGraph :=
  if Bundle.isInline bundle || negb (Bundle.isSplittable bundle) then g
  else
    match Bundle.getMainEntry bundle with
    | None => g
    | Some mainEntry =>
        let siblings := reparentSiblings g bundle in
        let candidates := reparentCandidates g bundle mainEntry in
        fold_left (reparentCandidate bundle mainEntry siblings) candidates g
    end.

Definition optimizeStep2 (g : BundleGraph) : BundleGraph :=
  traverseBundles g reparentVisitor g.

(** ** Step 3: remove assets that are duplicated in a parent bundle *)

Definition optimizeStep3 (g : BundleGraph) : BundleGraph :=
  traverseBundlesExit g deduplicateBundle g.

(** ** Step 4: shared bundles *)

Module Candidate.
Record t : Type := mk {
  assets : list Asset.t;
  sourceBundles : list Bundle.t;
  size : Z
}.
End Candidate.

(** [map.set(key, value)] on a [Map] kept in insertion order. *)
Fixpoint mapSet {V : Type} (k : string) (v : V) (l : list (string * V))
  : list (string * V) :=
  match l with
  | [] => [(k, v)]
  | (k', v') :: rest =>
      if String.eqb k k' then (k, v) :: rest else (k', v') :: mapSet k v rest
  end.

Definition containingBundles (g : BundleGraph) (asset : Asset.t)
  : list Bundle.t :=
  filter
    (fun b =>
       let mainEntry := Bundle.getMainEntry b in
       negb (Bundle.isEntry b)
       && Bundle.isSplittable b
       && match mainEntry with
          | None => true
          | Some m => negb (String.eqb (Asset.id m) (Asset.id asset))
          end)
    (findBundlesWithAsset g asset).

(** [containingBundles.map(b => b.id).sort().join(':')] *)
Definition candidateId (containing : list Bundle.t) : string :=
  String.concat ":"%string (sortStrings (map Bundle.id containing)).

Definition isSharedCandidate (g : BundleGraph) (asset : Asset.t) : bool :=
  OPTIONS.minBundles <? List.length (containingBundles g asset).

(** The visitor given to [traverseContents]. *)
Definition collectVisitor (g : BundleGraph) (node : Node) (ctx : unit)
  (candidateBundles : list (string * Candidate.t))
  : list (string * Candidate.t) * unit * bool :=
  match node with
  | DependencyNode _ => (candidateBundles, ctx, false)
  | AssetNode asset =>
      let containing := containingBundles g asset in
      if OPTIONS.minBundles <? List.length containing then
        let id := candidateId containing in
        (match assoc id candidateBundles with
         | Some candidate =>
             mapSet id
               (Candidate.mk
                  (Candidate.assets candidate ++ [asset])
                  (fold_left setAddBundle containing
                             (Candidate.sourceBundles candidate))
                  (Candidate.size candidate + getTotalSize g asset)%Z)
               candidateBundles
         | None =>
             mapSet id
               (Candidate.mk [asset] (setOfBundles containing)
                             (getTotalSize g asset))
               candidateBundles
         end, ctx, true)
      else (candidateBundles, ctx, false)
  end.

Definition candidateBundles (g : BundleGraph) : list (string * Candidate.t) :=
  traverse g (collectVisitor g) tt [].

(** The comparator [(a, b) => b.size - a.size]. *)
Definition compareCandidates (a b : Candidate.t) : Z :=
  (Candidate.size b - Candidate.size a)%Z.

(** [xs.sort(compareCandidates)]: [x] comes before the first candidate
    it does not compare above, so the result is descending by size.
    Candidates that compare equal keep the order they had, as a stable
    [Array.prototype.sort] leaves them; where the sort of the engine is
    not stable, the order of such candidates is the engine's. *)
Fixpoint insertCandidate (x : Candidate.t) (l : list Candidate.t)
  : list Candidate.t :=
  match l with
  | [] => [x]
  | y :: rest =>
      if (compareCandidates x y <=? 0)%Z then x :: l
      else y :: insertCandidate x rest
  end.

Definition sortCandidates (l : list Candidate.t) : list Candidate.t :=
  fold_right insertCandidate [] l.

Definition sortedCandidates (g : BundleGraph) : list Candidate.t :=
  sortCandidates
    (filter (fun bundle => (OPTIONS.minBundleSize <=? Candidate.size bundle)%Z)
            (map snd (candidateBundles g))).

Section Optimize.
(** [md5FromString] of [@parcel/utils]. *)
Variable md5FromString : string -> string.

Definition candidateGroups (g : BundleGraph) (sourceBundles : list Bundle.t)
  : list BundleGroup.t :=
  fold_left
    (fun bundleGroups bundle =>
       fold_left setAddGroup (getBundleGroupsContainingBundle g bundle)
                 bundleGroups)
    sourceBundles [].

Definition sharedBundleOpts (sourceBundles : list Bundle.t)
  (firstBundle : Bundle.t) : CreateBundleOpts.t :=
  CreateBundleOpts.mk
    None
    (Some (md5FromString (String.concat ":"%string (map Bundle.id sourceBundles))))
    (Some (Bundle.type firstBundle))
    (Some (Bundle.env firstBundle))
    (Bundle.target firstBundle)
    None
    None
    (Some true).

(** The body of [for (let {assets, sourceBundles} of sortedCandidates)]. *)
Definition extractSharedBundle (r : Result BundleGraph)
  (candidate : Candidate.t) : Result BundleGraph :=
  g <- r ;;
  let assets := Candidate.assets candidate in
  let sourceBundles := Candidate.sourceBundles candidate in
  let bundleGroups := candidateGroups g sourceBundles in
  if existsb
       (fun group =>
          OPTIONS.maxParallelRequests
          <=? List.length (getBundlesInBundleGroup g group))
       bundleGroups
  then Ok g
  else
    firstBundle <- match sourceBundles with
                   | firstBundle :: _ => Ok firstBundle
                   | [] => Err "TypeError"%string
                   end ;;
    created <- createBundle g (sharedBundleOpts sourceBundles firstBundle) ;;
    let sharedBundle := snd created in
    let g :=
      fold_left
        (fun g asset =>
           let g := addAssetGraphToBundle g asset sharedBundle in
           fold_left
             (fun g bundle => removeAssetGraphFromBundle g asset bundle)
             sourceBundles g)
        assets (fst created) in
    let g :=
      fold_left
        (fun g bundleGroup => addBundleToBundleGroup g sharedBundle bundleGroup)
        bundleGroups g in
    Ok (deduplicateBundle g sharedBundle).

Definition optimizeStep4 (g : BundleGraph) : Result BundleGraph :=
  fold_left extractSharedBundle (sortedCandidates g) (Ok g).

(** ** Step 5: internalize async dependencies *)

Definition internalizeIn (resolution : Asset.t) (dependency : Dependency.t)
  (g : BundleGraph) (bundle : Bundle.t) : BundleGraph :=
  if hasAsset g bundle resolution
     || isAssetInAncestorBundles g bundle resolution
  then internalizeAsyncDependency g bundle dependency
  else g.

Definition internalizeVisitor (node : Node) (ctx : unit)
  (st : Result (BundleGraph * list BundleGroup.t))
  : Result (BundleGraph * list BundleGroup.t) * unit * bool :=
  (match node with
   | AssetNode _ => st
   | DependencyNode dependency =>
       if Dependency.isEntry dependency || negb (Dependency.isAsync dependency)
       then st
       else
         s <- st ;;
         let g := fst s in
         let asyncBundleGroups := snd s in
         match getDependencyResolution g dependency with
         | None => Ok s
         | Some resolution =>
             match resolveExternalDependency g dependency with
             | Some (ResolvedBundleGroup value) =>
                 Ok (fold_left (internalizeIn resolution dependency)
                               (findBundlesWithDependency g dependency) g,
                     setAddGroup asyncBundleGroups value)
             | _ => Err "invariant"%string
             end
         end
   end, ctx, false).

(** Remove any bundle groups that no longer have any parent bundles. *)
Definition removeOrphanGroup (g : BundleGraph) (bundleGroup : BundleGroup.t)
  : BundleGraph :=
  if List.length (getParentBundlesOfBundleGroup g bundleGroup) =? 0
  then removeBundleGroup g bundleGroup
  else g.

Definition optimizeStep5 (g : BundleGraph) : Result BundleGraph :=
  s <- traverse g internalizeVisitor tt (Ok (g, [])) ;;
  Ok (fold_left removeOrphanGroup (snd s) (fst s)).

Definition optimize (g : BundleGraph) : Result BundleGraph :=
  let g := optimizeStep2 g in
  let g := optimizeStep3 g in
  g <- optimizeStep4 g ;;
  optimizeStep5 g.
End Optimize.

(** * The bundler: step 1, bundles for the explicit code split points *)

(** The traversal context.  [bundleByType] is a [Map] created once per
    bundle-group and shared by every context below it: the context holds
    a reference into [typeMaps]. *)
Module Context.
Record t : Type := mk {
  bundleGroup : option BundleGroup.t;
  bundleByType : option nat;
  bundleGroupDependency : option Dependency.t;
  parentNode : Node;
  parentBundle : option Bundle.t
}.
End Context.

(** The state of [bundle]: the graph and the three maps.  The arrays of
    [siblingBundlesByAsset] are shared between keys ([allSameType ?
    siblingBundles : []]) and pushed to later, so the map holds
    references into [siblingArrays]. *)
Record BundlerState : Type := mkBundlerState {
  graph : BundleGraph;
  bundleRoots : list (string * (Bundle.t * list Asset.t));
  bundlesByEntryAsset : list (string * Bundle.t);
  siblingBundlesByAsset : list (string * nat);
  siblingArrays : list (list Bundle.t);
  typeMaps : list (list (string * Bundle.t))
}.

Definition withGraph (s : BundlerState) (g : BundleGraph) : BundlerState :=
  mkBundlerState g (bundleRoots s) (bundlesByEntryAsset s)
                 (siblingBundlesByAsset s) (siblingArrays s) (typeMaps s).

Fixpoint updateNth {A : Type} (n : nat) (f : A -> A) (l : list A) : list A :=
  match l, n with
  | [], _ => []
  | x :: rest, O => f x :: rest
  | x :: rest, S n' => x :: updateNth n' f rest
  end.

(** The test that opens a new bundle-group. *)
Definition isSome {A : Type} (x : option A) : bool :=
  match x with
  | Some _ => true
  | None => false
  end.

Definition opensBundleGroup (dependency : Dependency.t)
  (resolution : option Asset.t) : bool :=
  (Dependency.isEntry dependency && isSome resolution)
  || (Dependency.isAsync dependency && isSome resolution)
  || match resolution with
     | Some r => Asset.isIsolated r
     | None => false
     end
  || match resolution with
     | Some r => Asset.isInline r
     | None => false
     end.

Definition groupBundleOpts (dependency : Dependency.t)
  (bundleGroup : BundleGroup.t) (asset : Asset.t) : CreateBundleOpts.t :=
  CreateBundleOpts.mk
    (Some asset) None None None
    (BundleGroup.target bundleGroup)
    (Some (if Asset.isIsolated asset then false
           else Dependency.isEntry dependency))
    (Some (Asset.isInline asset))
    None.

(** The body of [for (let asset of assets)] in the new bundle-group
    branch; [byType] is the reference of the group's [bundleByType]. *)
Definition addGroupBundle (dependency : Dependency.t)
  (bundleGroup : BundleGroup.t) (byType : nat)
  (r : Result BundlerState) (asset : Asset.t) : Result BundlerState :=
  s <- r ;;
  created <- createBundle (graph s) (groupBundleOpts dependency bundleGroup asset) ;;
  let bundle := snd created in
  Ok (mkBundlerState
        (addBundleToBundleGroup (fst created) bundle bundleGroup)
        (mapSet (Bundle.id bundle) (bundle, [asset]) (bundleRoots s))
        (mapSet (Asset.id asset) bundle (bundlesByEntryAsset s))
        (mapSet (Asset.id asset) (List.length (siblingArrays s))
                (siblingBundlesByAsset s))
        (siblingArrays s ++ [[]])
        (updateNth byType (mapSet (Bundle.type bundle) bundle) (typeMaps s))).

Definition inheritedTarget (context : option Context.t) : option Target.t :=
  match context with
  | Some c => option_map BundleGroup.target (Context.bundleGroup c)
  | None => None
  end.

Definition inheritedParentBundle (context : option Context.t)
  : option Bundle.t :=
  match context with
  | Some c => Context.parentBundle c
  | None => None
  end.

Definition enterNewGroup (s : BundlerState) (context : option Context.t)
  (dependency : Dependency.t) : Result (BundlerState * option Context.t) :=
  let assets := getDependencyAssets (graph s) dependency in
  target <- nullthrows (orElse (Dependency.target dependency)
                               (inheritedTarget context)) ;;
  let created := createBundleGroup (graph s) dependency target in
  let bundleGroup := snd created in
  let byType := List.length (typeMaps s) in
  let s0 := mkBundlerState (fst created) (bundleRoots s)
              (bundlesByEntryAsset s) (siblingBundlesByAsset s)
              (siblingArrays s) (typeMaps s ++ [[]]) in
  s' <- fold_left (addGroupBundle dependency bundleGroup byType) assets (Ok s0) ;;
  Ok (s', Some (Context.mk (Some bundleGroup) (Some byType) (Some dependency)
                           (DependencyNode dependency)
                           (inheritedParentBundle context))).

(** The body of [for (let asset of assets)] in the same-group branch. *)
Definition addSiblingBundle (dependency : Dependency.t)
  (parentAsset : Asset.t) (parentBundle : Bundle.t)
  (bundleGroup : BundleGroup.t) (bundleGroupDependency : Dependency.t)
  (byType siblingBundles : nat) (allSameType : bool)
  (r : Result BundlerState) (asset : Asset.t) : Result BundlerState :=
  s <- r ;;
  let siblings := assoc (Asset.id asset) (siblingBundlesByAsset s) in
  if String.eqb (Asset.type parentAsset) (Asset.type asset) then
    match siblings with
    | Some ref =>
        if allSameType
        then Ok (withGraph s
                   (fold_left
                      (fun g bundle => addBundleToBundleGroup g bundle bundleGroup)
                      (nth ref (siblingArrays s) []) (graph s)))
        else Ok s
    | None =>
        if allSameType
        then Ok (mkBundlerState (graph s) (bundleRoots s)
                   (bundlesByEntryAsset s)
                   (mapSet (Asset.id asset) siblingBundles
                           (siblingBundlesByAsset s))
                   (siblingArrays s) (typeMaps s))
        else Ok (mkBundlerState (graph s) (bundleRoots s)
                   (bundlesByEntryAsset s)
                   (mapSet (Asset.id asset) (List.length (siblingArrays s))
                           (siblingBundlesByAsset s))
                   (siblingArrays s ++ [[]]) (typeMaps s))
    end
  else
    s1 <-
      match assoc (Asset.type asset) (nth byType (typeMaps s) []) with
      | Some existingBundle =>
          roots <- nullthrows (assoc (Bundle.id existingBundle) (bundleRoots s)) ;;
          Ok (mkBundlerState
                (createAssetReference (graph s) dependency asset)
                (mapSet (Bundle.id existingBundle)
                        (fst roots, snd roots ++ [asset]) (bundleRoots s))
                (bundlesByEntryAsset s) (siblingBundlesByAsset s)
                (siblingArrays s) (typeMaps s))
      | None =>
          created <-
            createBundle (graph s)
              (CreateBundleOpts.mk (Some asset) None None None
                 (BundleGroup.target bundleGroup)
                 (Some (Dependency.isEntry bundleGroupDependency))
                 (Some (Asset.isInline asset)) None) ;;
          let bundle := snd created in
          Ok (mkBundlerState
                (addBundleToBundleGroup
                   (createBundleReference
                      (createAssetReference (fst created) dependency asset)
                      parentBundle bundle)
                   bundle bundleGroup)
                (mapSet (Bundle.id bundle) (bundle, [asset]) (bundleRoots s))
                (mapSet (Asset.id asset) bundle (bundlesByEntryAsset s))
                (siblingBundlesByAsset s)
                (updateNth siblingBundles (fun arr => arr ++ [bundle])
                           (siblingArrays s))
                (updateNth byType (mapSet (Bundle.type bundle) bundle)
                           (typeMaps s)))
      end ;;
    match siblings with
    | Some _ => Ok s1
    | None =>
        Ok (mkBundlerState (graph s1) (bundleRoots s1)
              (bundlesByEntryAsset s1)
              (mapSet (Asset.id asset) (List.length (siblingArrays s1))
                      (siblingBundlesByAsset s1))
              (siblingArrays s1 ++ [[]]) (typeMaps s1))
    end.

Definition enterSameGroup (s : BundlerState) (context : option Context.t)
  (dependency : Dependency.t) : Result (BundlerState * option Context.t) :=
  let assets := getDependencyAssets (graph s) dependency in
  context <- match context with
             | Some c => Ok c
             | None => Err "invariant"%string
             end ;;
  parentAsset <- match Context.parentNode context with
                 | AssetNode a => Ok a
                 | DependencyNode _ => Err "invariant"%string
                 end ;;
  parentBundle <- match Context.parentBundle context with
                  | Some b => Ok b
                  | None => Err "invariant"%string
                  end ;;
  bundleGroup <- nullthrows (Context.bundleGroup context) ;;
  bundleGroupDependency <- nullthrows (Context.bundleGroupDependency context) ;;
  byType <- nullthrows (Context.bundleByType context) ;;
  siblingBundles <- nullthrows (assoc (Asset.id parentAsset)
                                      (siblingBundlesByAsset s)) ;;
  let allSameType :=
    forallb (fun a => String.eqb (Asset.type a) (Asset.type parentAsset))
            assets in
  s' <- fold_left
          (addSiblingBundle dependency parentAsset parentBundle bundleGroup
             bundleGroupDependency byType siblingBundles allSameType)
          assets (Ok s) ;;
  Ok (s', Some (Context.mk (Context.bundleGroup context)
                           (Context.bundleByType context)
                           (Context.bundleGroupDependency context)
                           (DependencyNode dependency)
                           (Context.parentBundle context))).

Definition enterDependency (s : BundlerState) (context : option Context.t)
  (dependency : Dependency.t) : Result (BundlerState * option Context.t) :=
  let resolution := getDependencyResolution (graph s) dependency in
  if opensBundleGroup dependency resolution
  then enterNewGroup s context dependency
  else enterSameGroup s context dependency.

(** The [enter] visitor of [bundleGraph.traverse].  Once an error was
    thrown the state stays the error. *)
Definition enter (node : Node) (context : option Context.t)
  (st : Result BundlerState)
  : Result BundlerState * option Context.t * bool :=
  match st with
  | Err msg => (Err msg, context, false)
  | Ok s =>
      match node with
      | AssetNode value =>
          (Ok s,
           Some (Context.mk
                   (match context with
                    | Some c => Context.bundleGroup c
                    | None => None
                    end)
                   (match context with
                    | Some c => Context.bundleByType c
                    | None => None
                    end)
                   (match context with
                    | Some c => Context.bundleGroupDependency c
                    | None => None
                    end)
                   node
                   (orElse (assoc (Asset.id value) (bundlesByEntryAsset s))
                           (inheritedParentBundle context))),
           false)
      | DependencyNode dependency =>
          match enterDependency s context dependency with
          | Ok (s', context') => (Ok s', context', false)
          | Err msg => (Err msg, context, false)
          end
      end
  end.

(** [bundle({bundleGraph})] *)
Definition bundle (g : BundleGraph) : Result BundleGraph :=
  s <- traverse g enter None
         (Ok (mkBundlerState g [] [] [] [] [])) ;;
  Ok (fold_left
        (fun g entry =>
           fold_left (fun g asset => addAssetGraphToBundle g asset (fst (snd entry)))
                     (snd (snd entry)) g)
        (bundleRoots s) (graph s)).

(** * Example graphs

    Small asset graphs, and the bundle graphs [bundle] makes of them. *)

Module Examples.
Local Open Scope string_scope.

Definition browser : Environment.t :=
  Environment.mk "browser" "global" false false.
Definition worker : Environment.t :=
  Environment.mk "web-worker" "global" false true.
Definition dist : Target.t := Target.mk "dist" "/" browser.

Definition js (id : string) (size : Z) : Asset.t :=
  Asset.mk id "js" size false false browser.
Definition css (id : string) (size : Z) : Asset.t :=
  Asset.mk id "css" size false false browser.
Definition entry (id : string) : Dependency.t :=
  Dependency.mk id true false (Some dist).
Definition sync (id : string) : Dependency.t :=
  Dependency.mk id false false None.
Definition async (id : string) : Dependency.t :=
  Dependency.mk id false true None.

Definition emptyGraph (ag : AssetGraph) : BundleGraph :=
  mkBundleGraph ag [] [] [] [] [] [].

(** The bundle graph of an asset graph after step 1. *)
Definition bundled (ag : AssetGraph) : BundleGraph :=
  match bundle (emptyGraph ag) with
  | Ok g => g
  | Err _ => emptyGraph ag
  end.

(** A stand-in for [md5FromString] that keeps its argument readable. *)
Definition md5 (s : string) : string := "md5(" ++ s ++ ")".

(** A page [main.js] that uses [lib.js] and starts the worker
    [worker.js], which uses [lib.js] too. *)
Definition workerAsset : Asset.t :=
  Asset.mk "worker.js" "js" 500 false true worker.

Definition workerAssets : AssetGraph :=
  mkAssetGraph
    [entry "entry"]
    [("main.js", [sync "main>lib"; sync "main>worker"]);
     ("worker.js", [sync "worker>lib"])]
    [("entry", [js "main.js" 1000]);
     ("main>lib", [js "lib.js" 2000]);
     ("main>worker", [workerAsset]);
     ("worker>lib", [js "lib.js" 2000])].

Definition workerGraph : BundleGraph :=
  Eval vm_compute in bundled workerAssets.

Definition workerBundle : Bundle.t :=
  Bundle.mk "worker.js" "js" worker dist false false true [workerAsset].

(** [main.js] imports [lib.js] and [page.js] dynamically.  [lib.js]
    comes with a style sheet.  [page.js] has two images and one
    dependency that resolves to both [lib.js] and a style sheet. *)
Definition pageAssets : AssetGraph :=
  mkAssetGraph
    [entry "entry"]
    [("main.js", [async "main>lib"; async "main>page"]);
     ("lib.js", [sync "lib>css"]);
     ("page.js", [sync "page>png"; sync "page>svg"; sync "page>lib"])]
    [("entry", [js "main.js" 1000]);
     ("main>lib", [js "lib.js" 2000]);
     ("main>page", [js "page.js" 3000]);
     ("lib>css", [css "lib.css" 100]);
     ("page>png", [Asset.mk "page.png" "png" 400 false false browser]);
     ("page>svg", [Asset.mk "page.svg" "svg" 300 false false browser]);
     ("page>lib", [js "lib.js" 2000; css "page.css" 200])].

Definition pageGraph : BundleGraph :=
  Eval vm_compute in bundled pageAssets.

Definition libBundle : Bundle.t :=
  Bundle.mk "lib.js" "js" browser dist false false true [js "lib.js" 2000].
Definition libCssBundle : Bundle.t :=
  Bundle.mk "lib.css" "css" browser dist false false true
            [css "lib.css" 100].
Definition pageBundle : Bundle.t :=
  Bundle.mk "page.js" "js" browser dist false false true
            [js "page.js" 3000].
Definition pageGroup : BundleGroup.t :=
  BundleGroup.mk (async "main>page") dist.

(** Two entries built for two targets; each imports a page dynamically,
    [z.js] for the first and [a.js] for the second, and both pages use
    [shared.js]. *)
Definition legacy : Target.t := Target.mk "dist/legacy" "/legacy" browser.
Definition modern : Target.t := Target.mk "dist/modern" "/modern" browser.

Definition targetsAssets : AssetGraph :=
  mkAssetGraph
    [Dependency.mk "entry1" true false (Some legacy);
     Dependency.mk "entry2" true false (Some modern)]
    [("main1.js", [async "main1>z"]);
     ("main2.js", [async "main2>a"]);
     ("z.js", [sync "z>shared"]);
     ("a.js", [sync "a>shared"])]
    [("entry1", [js "main1.js" 1000]);
     ("entry2", [js "main2.js" 1000]);
     ("main1>z", [js "z.js" 500]);
     ("main2>a", [js "a.js" 500]);
     ("z>shared", [js "shared.js" 40000]);
     ("a>shared", [js "shared.js" 40000])].

Definition targetsGraph : BundleGraph :=
  Eval vm_compute in bundled targetsAssets.

Definition zBundle : Bundle.t :=
  Bundle.mk "z.js" "js" browser legacy false false true [js "z.js" 500].
Definition aBundle : Bundle.t :=
  Bundle.mk "a.js" "js" browser modern false false true [js "a.js" 500].
Definition sharedCandidate : Candidate.t :=
  Candidate.mk [js "shared.js" 40000] [zBundle; aBundle] 40000.

(** [main.js] imports six pages dynamically, in the order [c], [d], [e],
    [f], [a], [b]; [x.js] is used by [c] and [d], [y.js] by [e] and [f],
    [w.js] by [a] and [b]; the three have the same size. *)
Definition tiesAssets : AssetGraph :=
  mkAssetGraph
    [entry "entry"]
    [("main.js", [async "main>c"; async "main>d"; async "main>e";
                  async "main>f"; async "main>a"; async "main>b"]);
     ("c.js", [sync "c>x"]); ("d.js", [sync "d>x"]);
     ("e.js", [sync "e>y"]); ("f.js", [sync "f>y"]);
     ("a.js", [sync "a>w"]); ("b.js", [sync "b>w"])]
    [("entry", [js "main.js" 1000]);
     ("main>c", [js "c.js" 10]); ("main>d", [js "d.js" 10]);
     ("main>e", [js "e.js" 10]); ("main>f", [js "f.js" 10]);
     ("main>a", [js "a.js" 10]); ("main>b", [js "b.js" 10]);
     ("c>x", [js "x.js" 30000]); ("d>x", [js "x.js" 30000]);
     ("e>y", [js "y.js" 30000]); ("f>y", [js "y.js" 30000]);
     ("a>w", [js "w.js" 30000]); ("b>w", [js "w.js" 30000])].

Definition tiesGraph : BundleGraph :=
  Eval vm_compute in optimizeStep3 (optimizeStep2 (bundled tiesAssets)).

(** The same pages, imported in the order [a], [b], [c], [d], [e],
    [f]. *)
Definition orderedTiesAssets : AssetGraph :=
  mkAssetGraph
    [entry "entry"]
    [("main.js", [async "main>a"; async "main>b"; async "main>c";
                  async "main>d"; async "main>e"; async "main>f"]);
     ("c.js", [sync "c>x"]); ("d.js", [sync "d>x"]);
     ("e.js", [sync "e>y"]); ("f.js", [sync "f>y"]);
     ("a.js", [sync "a>w"]); ("b.js", [sync "b>w"])]
    [("entry", [js "main.js" 1000]);
     ("main>c", [js "c.js" 10]); ("main>d", [js "d.js" 10]);
     ("main>e", [js "e.js" 10]); ("main>f", [js "f.js" 10]);
     ("main>a", [js "a.js" 10]); ("main>b", [js "b.js" 10]);
     ("c>x", [js "x.js" 30000]); ("d>x", [js "x.js" 30000]);
     ("e>y", [js "y.js" 30000]); ("f>y", [js "y.js" 30000]);
     ("a>w", [js "w.js" 30000]); ("b>w", [js "w.js" 30000])].

Definition orderedTiesGraph : BundleGraph :=
  Eval vm_compute in
    optimizeStep3 (optimizeStep2 (bundled orderedTiesAssets)).

(** Two entries, [lib.js] and [main.js]; [main.js] embeds two inline
    assets that both use [lib.js]. *)
Definition inlineAsset (id : string) : Asset.t :=
  Asset.mk id "js" 10 true false browser.

Definition inlineAssets : AssetGraph :=
  mkAssetGraph
    [entry "entry1"; entry "entry2"]
    [("main.js", [sync "main>i1"; sync "main>i2"]);
     ("i1.js", [sync "i1>lib"]);
     ("i2.js", [sync "i2>lib"])]
    [("entry1", [js "lib.js" 30000]);
     ("entry2", [js "main.js" 100]);
     ("main>i1", [inlineAsset "i1.js"]);
     ("main>i2", [inlineAsset "i2.js"]);
     ("i1>lib", [js "lib.js" 30000]);
     ("i2>lib", [js "lib.js" 30000])].

Definition inlineGraph : BundleGraph :=
  Eval vm_compute in bundled inlineAssets.

Definition inlineShared : Bundle.t :=
  Bundle.mk (md5 "i1.js:i2.js") "js" browser dist false false true [].

(** The output of [optimize] on [inlineGraph], and the output of
    [optimize] on that. *)
Definition inlineOptimized : BundleGraph :=
  Eval vm_compute in
    match optimize md5 inlineGraph with
    | Ok g => g
    | Err _ => inlineGraph
    end.

Definition inlineReoptimized : BundleGraph :=
  Eval vm_compute in
    match optimize md5 inlineOptimized with
    | Ok g => g
    | Err _ => inlineOptimized
    end.

(** The output of [optimize] on [targetsGraph]. *)
Definition targetsOptimized : BundleGraph :=
  Eval vm_compute in
    match optimize md5 targetsGraph with
    | Ok g => g
    | Err _ => targetsGraph
    end.

(** [main.js] imports [p.js], [q.js] and [r.js] dynamically.  [p.js] and
    [q.js] use [parent.js], which uses [child.js]; [r.js] uses [child.js]
    directly. *)
Definition dagAssets : AssetGraph :=
  mkAssetGraph
    [entry "entry"]
    [("main.js", [async "main>p"; async "main>q"; async "main>r"]);
     ("p.js", [sync "p>parent"]);
     ("q.js", [sync "q>parent"]);
     ("r.js", [sync "r>child"]);
     ("parent.js", [sync "parent>child"])]
    [("entry", [js "main.js" 1000]);
     ("main>p", [js "p.js" 10]);
     ("main>q", [js "q.js" 10]);
     ("main>r", [js "r.js" 10]);
     ("p>parent", [js "parent.js" 100]);
     ("q>parent", [js "parent.js" 100]);
     ("r>child", [js "child.js" 50000]);
     ("parent>child", [js "child.js" 50000])].

Definition dagGraph : BundleGraph :=
  Eval vm_compute in bundled dagAssets.

(** [a.js] imports [b.js] both statically and dynamically. *)
Definition asyncAssets : AssetGraph :=
  mkAssetGraph
    [entry "entry"]
    [("a.js", [sync "a>b"; async "a>import(b)"])]
    [("entry", [js "a.js" 1000]);
     ("a>b", [js "b.js" 2000]);
     ("a>import(b)", [js "b.js" 2000])].

Definition asyncGraph : BundleGraph :=
  Eval vm_compute in bundled asyncAssets.

Definition asyncGroup : BundleGroup.t :=
  BundleGroup.mk (async "a>import(b)") dist.
Definition entryBundle : Bundle.t :=
  Bundle.mk "a.js" "js" browser dist true false true [js "a.js" 1000].



End Examples.

(** ** Measures used in the statements *)

(** Every bundle-group of the graph holds at most [maxParallelRequests]
    bundles. *)
Definition withinCapacity (g : BundleGraph) : bool :=
  forallb
    (fun group =>
       List.length (getBundlesInBundleGroup g group)
       <=? OPTIONS.maxParallelRequests)
    (map fst (bundleGroups g)).

Definition hasGroup (l : list (BundleGroup.t * list Bundle.t))
  (group : BundleGroup.t) : bool :=
  existsb (fun e => BundleGroup.eqb (fst e) group) l.

Fixpoint distinct (l : list string) : bool :=
  match l with
  | [] => true
  | x :: rest => negb (existsb (String.eqb x) rest) && distinct rest
  end.

(** The bundles of the graph have ids of their own. *)
Definition uniqueBundleIds (g : BundleGraph) : bool :=
  distinct (map Bundle.id (bundles g)).

(** [candidate.size] as the loop accumulates it. *)
Definition totalSize (g : BundleGraph) (assets : list Asset.t) : Z :=
  fold_left (fun acc a => (acc + getTotalSize g a)%Z) assets 0%Z.

(** [extended X m m']: [m'] is [m] followed by bundles of [X], each new
    and added once. *)
Definition extended (X m m' : list Bundle.t) : Prop :=
  exists extra,
    m' = m ++ extra
    /\ NoDup (map Bundle.id extra)
    /\ incl extra X
    /\ forall e, In e extra -> memBundle e m = false.

(** The two nested loops of step 2 that add [bundle] and its siblings to
    every group of the candidate. *)
Definition addToGroups (toAdd : list Bundle.t) (groups : list BundleGroup.t)
  (g : BundleGraph) : BundleGraph :=
  fold_left
    (fun g bundleGroup =>
       fold_left
         (fun g bundleToAdd => addBundleToBundleGroup g bundleToAdd bundleGroup)
         toAdd g)
    groups g.

(** What the traversal of step 4 has gathered in the candidate [c] it
    keeps under the key [k]: assets that are in more than [minBundles] of
    the bundles that count, all with the key [k]; the bundles that count
    for any of these assets, each once; and the sum of the total sizes. *)
Definition collected (g : BundleGraph) (k : string) (c : Candidate.t) : Prop :=
  Candidate.assets c <> []
  /\ (forall a, In a (Candidate.assets c) ->
                isSharedCandidate g a = true
                /\ k = candidateId (containingBundles g a))
  /\ NoDup (map Bundle.id (Candidate.sourceBundles c))
  /\ (forall b, In b (Candidate.sourceBundles c) ->
                exists a, In a (Candidate.assets c)
                          /\ In b (containingBundles g a))
  /\ (forall a b, In a (Candidate.assets c) ->
                  In b (containingBundles g a) ->
                  memBundle b (Candidate.sourceBundles c) = true)
  /\ Candidate.size c = totalSize g (Candidate.assets c).

(** The bundle step 4 creates for a candidate whose first source bundle
    is [firstBundle]. *)
Definition sharedBundle (md5FromString : string -> string)
  (c : Candidate.t) (firstBundle : Bundle.t) : Bundle.t :=
  Bundle.mk
    (md5FromString
       (String.concat ":"%string (map Bundle.id (Candidate.sourceBundles c))))
    (Bundle.type firstBundle) (Bundle.env firstBundle)
    (Bundle.target firstBundle) false false true [].

(** What follows the creation of the shared bundle: the assets move, the
    bundle joins the groups, it is deduplicated. *)
Definition fillSharedBundle (c : Candidate.t) (bundleGroups : list BundleGroup.t)
  (shared : Bundle.t) (g1 : BundleGraph) : BundleGraph :=
  deduplicateBundle
    (fold_left
       (fun g bundleGroup => addBundleToBundleGroup g shared bundleGroup)
       bundleGroups
       (fold_left
          (fun g asset =>
             let g := addAssetGraphToBundle g asset shared in
             fold_left
               (fun g bundle => removeAssetGraphFromBundle g asset bundle)
               (Candidate.sourceBundles c) g)
          (Candidate.assets c) g1))
    shared.

(** Whether the visitor of step 4 calls [skipChildren] at a node. *)
Definition skipsChildren (g : BundleGraph) (n : Node) : bool :=
  match n with
  | AssetNode asset => isSharedCandidate g asset
  | DependencyNode _ => false
  end.

(** The nodes the traversal of step 4 can enter: the dependencies of the
    root, and the children of a node it can enter and at which the
    visitor does not skip the children. *)
Inductive reachedFreely (g : BundleGraph) : Node -> Prop :=
| reached_root (d : Dependency.t) :
    In d (entryDependencies (assetGraph g)) ->
    reachedFreely g (DependencyNode d)
| reached_child (n child : Node) :
    reachedFreely g n ->
    skipsChildren g n = false ->
    In child (children g n) ->
    reachedFreely g child.

(** The key under which [candidateBundles] keeps a candidate, read back
    from its source bundles. *)
Definition candidateKey (c : Candidate.t) : string :=
  candidateId (Candidate.sourceBundles c).

(** The orders of the two sorts of step 4. *)
Definition stringLe (x y : string) : Prop := String.leb x y = true.

Definition sizeGe (a b : Candidate.t) : Prop :=
  (Candidate.size b <= Candidate.size a)%Z.

(** The elements of an array taken in the order [p] of its positions. *)
Definition rearranged (p : list nat) (keys : list string) : list string :=
  map (fun i => nth i keys EmptyString) p.

Fixpoint ascending (keys : list string) : bool :=
  match keys with
  | x :: ((y :: _) as rest) => String.leb x y && ascending rest
  | _ => true
  end.

(** The keys are in the order a comparison of keys gives, one way or
    the other. *)
Definition keyOrdered (keys : list string) : bool :=
  ascending keys || ascending (rev keys).

(** The test of step 5: the resolution is already available to the
    bundle. *)
Definition alreadyAvailable (g : BundleGraph) (b : Bundle.t)
  (resolution : Asset.t) : bool :=
  hasAsset g b resolution || isAssetInAncestorBundles g b resolution.

(** ** Graphs on which the optimizer has nothing left to do *)

(** Step 2 declines every candidate: one of its groups is full. *)
Definition settledStep2 (g : BundleGraph) : bool :=
  forallb
    (fun bundle =>
       Bundle.isInline bundle
       || negb (Bundle.isSplittable bundle)
       || match Bundle.getMainEntry bundle with
          | None => true
          | Some mainEntry =>
              forallb
                (fun candidate =>
                   negb
                     (forallb
                        (fun group =>
                           List.length (getBundlesInBundleGroup g group)
                           <? OPTIONS.maxParallelRequests)
                        (getBundleGroupsContainingBundle g candidate)))
                (reparentCandidates g bundle mainEntry)
          end)
    (bundles g).

(** Step 3 finds no asset of a bundle in an ancestor bundle. *)
Definition settledStep3 (g : BundleGraph) : bool :=
  forallb
    (fun bundle =>
       Environment.isIsolated (Bundle.env bundle)
       || negb (Bundle.isSplittable bundle)
       || forallb
            (fun a =>
               forallb
                 (fun d =>
                    forallb
                      (fun asset =>
                         negb (hasAsset g bundle asset
                               && isAssetInAncestorBundles g bundle asset))
                      (getDependencyAssets g d))
                 (getDependencies g a))
            (bundleAssets g bundle))
    (bundles g).

(** Step 4 skips every candidate: one of its groups is full. *)
Definition settledStep4 (g : BundleGraph) : bool :=
  forallb
    (fun candidate =>
       existsb
         (fun group =>
            OPTIONS.maxParallelRequests
            <=? List.length (getBundlesInBundleGroup g group))
         (candidateGroups g (Candidate.sourceBundles candidate)))
    (sortedCandidates g).

Definition allDependencies (g : BundleGraph) : list Dependency.t :=
  entryDependencies (assetGraph g)
  ++ flat_map snd (dependenciesOf (assetGraph g)).

(** Step 5 finds every async dependency resolved to a bundle-group that
    has a parent bundle, and internalized wherever its resolution is
    available. *)
Definition settledStep5 (g : BundleGraph) : bool :=
  forallb
    (fun d =>
       Dependency.isEntry d
       || negb (Dependency.isAsync d)
       || match getDependencyResolution g d with
          | None => true
          | Some resolution =>
              match resolveExternalDependency g d with
              | Some (ResolvedBundleGroup value) =>
                  negb (List.length (getParentBundlesOfBundleGroup g value) =? 0)
                  && forallb
                       (fun b => negb (alreadyAvailable g b resolution)
                                 || isInternalized g b d)
                       (findBundlesWithDependency g d)
              | _ => false
              end
          end)
    (allDependencies g).

Definition settled (g : BundleGraph) : bool :=
  settledStep2 g && settledStep3 g && settledStep4 g && settledStep5 g.

(** The bundle the new bundle-group branch of step 1 creates for a
    resolved asset. *)
Definition groupBundle (dependency : Dependency.t) (target : Target.t)
  (asset : Asset.t) : Bundle.t :=
  Bundle.mk (Asset.id asset) (Asset.type asset) (Asset.env asset) target
    (if Asset.isIsolated asset then false else Dependency.isEntry dependency)
    (Asset.isInline asset) true [asset].

(** ** Measures for the depth-first descents *)

(** The nodes of the asset graph. *)
Definition graphNodes (g : BundleGraph) : list Node :=
  map DependencyNode (entryDependencies (assetGraph g))
  ++ map DependencyNode (flat_map snd (dependenciesOf (assetGraph g)))
  ++ map AssetNode (flat_map snd (resolutionsOf (assetGraph g))).

(** How many elements of [U] a descent has not entered yet. *)
Definition unseen {A : Type} (eqb : A -> A -> bool) (U seen : list A) : nat :=
  List.length (filter (fun x => negb (existsb (eqb x) seen)) U).

Definition unvisited (U visited : list Node) : nat :=
  unseen nodeEqb U visited.

(** The assets and the bundles of the graph. *)
Definition graphAssets (g : BundleGraph) : list Asset.t :=
  flat_map snd (resolutionsOf (assetGraph g)).

Definition graphBundles (g : BundleGraph) : list Bundle.t :=
  flat_map snd (bundleGroups g) ++ map fst (bundleReferences g).

(** The graph has the bundle-group of the dependency. *)
Definition hasGroupOf (l : list (BundleGroup.t * list Bundle.t))
  (d : Dependency.t) : bool :=
  existsb (fun e => Dependency.eqb (BundleGroup.dependency (fst e)) d) l.

(** ** Measures for step 1 *)

(** [map.has(k)] *)
Definition hasKey {V : Type} (k : string) (m : list (string * V)) : bool :=
  isSome (assoc k m).

(** The bundle is in a bundle-group of the graph. *)
Definition inSomeGroup (g : BundleGraph) (b : Bundle.t) : bool :=
  existsb (fun e => memBundle b (snd e)) (bundleGroups g).

(** A dependency of the root can be entered without a context: it opens
    a bundle-group, and has a target for it. *)
Definition rootReady (g : BundleGraph) (d : Dependency.t) : bool :=
  opensBundleGroup d (getDependencyResolution g d)
  && isSome (Dependency.target d).

(** The bundle step 1 makes for an asset: the asset is its entry and
    gives it its id, its type, its environment and its inline flag; the
    optimizer may split it. *)
Definition madeFrom (b : Bundle.t) (a : Asset.t) : Prop :=
  Bundle.entryAssets b = [a]
  /\ Bundle.id b = Asset.id a
  /\ Bundle.type b = Asset.type a
  /\ Bundle.env b = Asset.env a
  /\ Bundle.isInline b = Asset.isInline a
  /\ Bundle.isSplittable b = true.

(** [bundleRoots] has the entry asset of the bundle among the roots it
    keeps for it. *)
Definition rooted (s : BundlerState) (b : Bundle.t) : Prop :=
  exists a b0 roots,
    madeFrom b a
    /\ assoc (Bundle.id b) (bundleRoots s) = Some (b0, roots)
    /\ Bundle.id b0 = Bundle.id b
    /\ In a roots.

(** What step 1 keeps true of its state while it traverses the asset
    graph of [g]: the asset graph is the one of [g]; every bundle that a
    [bundleByType] map holds has its roots; every bundle made so far has
    its entry asset among its roots, and is in a bundle-group; the
    bundles keep ids of their own. *)
Definition consistent (g : BundleGraph) (s : BundlerState) : Prop :=
  assetGraph (graph s) = assetGraph g
  /\ (forall i t e,
        assoc t (nth i (typeMaps s) []) = Some e ->
        hasKey (Bundle.id e) (bundleRoots s) = true)
  /\ (forall b, In b (bundles (graph s)) -> In b (bundles g) \/ rooted s b)
  /\ (forall b, In b (bundles (graph s)) ->
                In b (bundles g) \/ inSomeGroup (graph s) b = true)
  /\ (NoDup (map Bundle.id (bundles g)) ->
      NoDup (map Bundle.id (bundles (graph s)))).

(** What the visitor of step 1 relies on in the context it is given at a
    node.  Below a dependency: the bundle-group, which is in the graph,
    its dependency and its [bundleByType]; the asset has its array of
    sibling bundles, and a bundle of its own or a parent bundle.  Below
    an asset: the same, the parent node is that asset and there is a
    parent bundle. *)
Definition groupReady (s : BundlerState) (ctx : Context.t) : Prop :=
  (exists G, Context.bundleGroup ctx = Some G
             /\ hasGroup (bundleGroups (graph s)) G = true)
  /\ isSome (Context.bundleByType ctx) = true
  /\ isSome (Context.bundleGroupDependency ctx) = true.

Definition ready (s : BundlerState) (n : Node) (c : option Context.t)
  : Prop :=
  match n, c with
  | DependencyNode _, None => True
  | DependencyNode _, Some ctx =>
      groupReady s ctx
      /\ isSome (Context.parentBundle ctx) = true
      /\ exists a, Context.parentNode ctx = AssetNode a
                   /\ hasKey (Asset.id a) (siblingBundlesByAsset s) = true
  | AssetNode a, Some ctx =>
      groupReady s ctx
      /\ hasKey (Asset.id a) (siblingBundlesByAsset s) = true
      /\ hasKey (Asset.id a) (bundlesByEntryAsset s)
         || isSome (Context.parentBundle ctx) = true
  | AssetNode _, None => False
  end.

(** The maps of step 1 keep their keys, the graph its bundle-groups. *)
Definition grows (s s' : BundlerState) : Prop :=
  (forall k, hasKey k (siblingBundlesByAsset s) = true ->
             hasKey k (siblingBundlesByAsset s') = true)
  /\ (forall k, hasKey k (bundlesByEntryAsset s) = true ->
                hasKey k (bundlesByEntryAsset s') = true)
  /\ (forall G, hasGroup (bundleGroups (graph s)) G = true ->
                hasGroup (bundleGroups (graph s')) G = true).

(** The assets the traversal of step 4 has put in candidates. *)
Definition bucketed (cands : list (string * Candidate.t)) : list Asset.t :=
  flat_map (fun e => Candidate.assets (snd e)) cands.

(** What allows step 5 to internalize a dependency in a bundle: an async
    dependency of the asset graph that is not an entry, with the id of
    the dependency, has a resolution; a bundle of the graph with the id
    of the bundle contains it, and the resolution is already available
    to that bundle. *)
Definition internalizable (g : BundleGraph) (b : Bundle.t) (d : Dependency.t)
  : Prop :=
  exists dependency resolution bundle,
    In dependency (allDependencies g)
    /\ Dependency.id dependency = Dependency.id d
    /\ Dependency.isEntry dependency = false
    /\ Dependency.isAsync dependency = true
    /\ getDependencyResolution g dependency = Some resolution
    /\ In bundle (findBundlesWithDependency g dependency)
    /\ Bundle.id bundle = Bundle.id b
    /\ alreadyAvailable g bundle resolution = true.

(** * Properties *)

(** ** Identity by id *)

Lemma Bundle_eqb_refl (b : Bundle.t) : Bundle.eqb b b = true.
Proof. apply String.eqb_refl. Qed.

Lemma Bundle_eqb_sym (a b : Bundle.t) : Bundle.eqb a b = Bundle.eqb b a.
Proof. apply String.eqb_sym. Qed.

Lemma Bundle_eqb_id (a b : Bundle.t) :
  Bundle.eqb a b = true <-> Bundle.id a = Bundle.id b.
Proof. apply String.eqb_eq. Qed.

Lemma Asset_eqb_refl (a : Asset.t) : Asset.eqb a a = true.
Proof. apply String.eqb_refl. Qed.

Lemma Asset_eqb_id (a b : Asset.t) :
  Asset.eqb a b = true <-> Asset.id a = Asset.id b.
Proof. apply String.eqb_eq. Qed.

Lemma Group_eqb_refl (a : BundleGroup.t) : BundleGroup.eqb a a = true.
Proof. apply String.eqb_refl. Qed.

Lemma Group_eqb_sym (a b : BundleGroup.t) :
  BundleGroup.eqb a b = BundleGroup.eqb b a.
Proof. apply String.eqb_sym. Qed.

Lemma Group_eqb_trans (a b c : BundleGroup.t) :
  BundleGroup.eqb a b = true -> BundleGroup.eqb a c = BundleGroup.eqb b c.
Proof.
  unfold BundleGroup.eqb, Dependency.eqb. intros H.
  apply String.eqb_eq in H. now rewrite H.
Qed.

Lemma memBundle_id (b : Bundle.t) (l : list Bundle.t) :
  memBundle b l = true <-> In (Bundle.id b) (map Bundle.id l).
Proof.
  unfold memBundle. rewrite existsb_exists, in_map_iff. split.
  - intros [x [Hx He]]. exists x. split; [|exact Hx].
    symmetry. now apply Bundle_eqb_id.
  - intros [x [He Hx]]. exists x. split; [exact Hx|].
    apply Bundle_eqb_id. now symmetry.
Qed.

Lemma memBundle_In (b : Bundle.t) (l : list Bundle.t) :
  In b l -> memBundle b l = true.
Proof.
  intros H. apply memBundle_id. now apply in_map.
Qed.

Lemma memBundle_app (b : Bundle.t) (l1 l2 : list Bundle.t) :
  memBundle b (l1 ++ l2) = memBundle b l1 || memBundle b l2.
Proof. apply existsb_app. Qed.

(** ** Loops *)

Lemma fold_left_invariant (A B : Type) (P : A -> Prop) (f : A -> B -> A)
  (l : list B) :
  (forall a x, In x l -> P a -> P (f a x)) ->
  forall a, P a -> P (fold_left f l a).
Proof.
  induction l as [|x l IH]; intros Hstep a Ha; simpl.
  - exact Ha.
  - apply IH.
    + intros a' y Hy. apply Hstep. now right.
    + apply Hstep; [now left|exact Ha].
Qed.

Lemma fold_left_fixed (A B : Type) (f : A -> B -> A) (l : list B) (a : A) :
  (forall x, In x l -> f a x = a) -> fold_left f l a = a.
Proof.
  intros H. apply (fold_left_invariant (fun a' => a' = a)); [|reflexivity].
  intros a' x Hx ->. now apply H.
Qed.

(** ** The depth-first closure *)

Section CollectFacts.
Variable A : Type.
Variable eqb : A -> A -> bool.
Variable next : A -> list A.
Variable keep : A -> bool.

Lemma collect_invariant (P : list A -> Prop) :
  (forall seen a, P seen -> keep a = true -> P (seen ++ [a])) ->
  forall fuel seen a, P seen -> P (collect eqb next keep fuel seen a).
Proof.
  intros Hstep. induction fuel as [|fuel IH]; intros seen a Hseen; simpl.
  - exact Hseen.
  - destruct (existsb (eqb a) seen || negb (keep a)) eqn:E.
    + exact Hseen.
    + apply orb_false_iff in E. destruct E as [_ E].
      apply negb_false_iff in E.
      apply fold_left_invariant.
      * intros s x _ Hs. now apply IH.
      * now apply Hstep.
Qed.

Lemma collect_extends (fuel : nat) (seen : list A) (a : A) :
  incl seen (collect eqb next keep fuel seen a).
Proof.
  apply (collect_invariant (fun s => incl seen s)).
  - intros s x Hs _. now apply incl_appl.
  - apply incl_refl.
Qed.

Lemma collect_kept (fuel : nat) (seen : list A) (a x : A) :
  In x (collect eqb next keep fuel seen a) -> In x seen \/ keep x = true.
Proof.
  revert x.
  apply (collect_invariant (fun s => forall x, In x s -> In x seen \/ keep x = true)).
  - intros s y Hs Hy x Hx. apply in_app_or in Hx. destruct Hx as [Hx|[<-|[]]].
    + now apply Hs.
    + now right.
  - intros x Hx. now left.
Qed.

Lemma collect_start (fuel : nat) (a : A) :
  keep a = true -> In a (collect eqb next keep (S fuel) [] a).
Proof.
  intros Hk. simpl. rewrite Hk. simpl.
  apply (fold_left_invariant (fun s => In a s)).
  - intros s x _ Hs. now apply collect_extends.
  - now left.
Qed.
End CollectFacts.

(** ** Containment *)

Lemma hasAsset_removed (g : BundleGraph) (a : Asset.t) (b : Bundle.t) :
  hasAsset (removeAssetGraphFromBundle g a b) b a = false.
Proof.
  destruct (hasAsset g b a) eqn:Hhas.
  - assert (Hin : memAsset a (removedAssets g a b) = true).
    { unfold removedAssets, memAsset.
      apply existsb_exists. exists a. split; [|apply Asset_eqb_refl].
      apply filter_In. split.
      - unfold collectAssets, nodeBound. simpl plus.
        now apply collect_start.
      - apply negb_true_iff. apply not_true_is_false. intros Hk.
        apply existsb_exists in Hk. destruct Hk as [x [Hx Hax]].
        assert (Hinv : forall l seen,
                   (forall y, In y seen -> Asset.eqb y a = false) ->
                   forall y,
                     In y (fold_left
                             (collectAssets (bundledChildren g)
                                (fun x => hasAsset g b x && negb (Asset.eqb x a))
                                (nodeBound g)) l seen) ->
                     Asset.eqb y a = false).
        { intros l seen Hseen.
          apply (fold_left_invariant
                   (fun s => forall y, In y s -> Asset.eqb y a = false));
            [|exact Hseen].
          intros s e _ Hs y Hy. unfold collectAssets in Hy.
          apply collect_kept in Hy. destruct Hy as [Hy|Hy].
          - now apply Hs.
          - apply andb_true_iff in Hy. destruct Hy as [_ Hy].
            now apply negb_true_iff in Hy. }
        specialize (Hinv _ [] (fun y (H : In y []) => match H with end) x Hx).
        unfold Asset.eqb in Hinv, Hax. rewrite String.eqb_sym in Hinv.
        congruence. }
    unfold hasAsset, removeAssetGraphFromBundle. simpl.
    apply not_true_is_false. intros H.
    apply existsb_exists in H. destruct H as [p [Hp Hpa]].
    apply filter_In in Hp. destruct Hp as [_ Hp].
    apply andb_true_iff in Hpa. destruct Hpa as [Hid Heq].
    rewrite Hid in Hp. simpl in Hp. apply negb_true_iff in Hp.
    assert (memAsset (snd p) (removedAssets g a b) = true); [|congruence].
    unfold memAsset in *. apply existsb_exists in Hin.
    destruct Hin as [y [Hy Hay]]. apply existsb_exists. exists y.
    split; [exact Hy|]. unfold Asset.eqb in *.
    apply String.eqb_eq in Heq, Hay. apply String.eqb_eq. congruence.
  - unfold hasAsset in *. unfold removeAssetGraphFromBundle. simpl.
    apply not_true_is_false. intros H.
    apply existsb_exists in H. destruct H as [p [Hp Hpa]].
    apply filter_In in Hp. destruct Hp as [Hp _].
    assert (existsb
              (fun p => String.eqb (fst p) (Bundle.id b) && Asset.eqb (snd p) a)
              (containment g) = true); [|congruence].
    apply existsb_exists. now exists p.
Qed.

Lemma remove_contents_other (g : BundleGraph) (a : Asset.t) (o : Bundle.t)
  (i : string) :
  Bundle.id o <> i ->
  filter (fun p => String.eqb (fst p) i)
         (containment (removeAssetGraphFromBundle g a o))
  = filter (fun p => String.eqb (fst p) i) (containment g).
Proof.
  intros Hne. unfold removeAssetGraphFromBundle. simpl.
  generalize (removedAssets g a o). intros removed.
  induction (containment g) as [|p c IH]; simpl; [reflexivity|].
  destruct (String.eqb (fst p) (Bundle.id o)) eqn:Ho; simpl.
  - apply String.eqb_eq in Ho.
    assert (Hi : String.eqb (fst p) i = false).
    { apply String.eqb_neq. congruence. }
    destruct (memAsset (snd p) removed); simpl; rewrite Hi; exact IH.
  - destruct (String.eqb (fst p) i); [f_equal|]; exact IH.
Qed.

(** Whatever [removeAssetGraphFromBundle] keeps, [deduplicateBundle]
    keeps: removal is its only action on the graph. *)
Lemma deduplicateBundle_invariant (P : BundleGraph -> Prop) (o : Bundle.t) :
  (forall g a, P g -> P (removeAssetGraphFromBundle g a o)) ->
  forall g, P g -> P (deduplicateBundle g o).
Proof.
  intros Hrem g Hg. unfold deduplicateBundle.
  destruct (Environment.isIsolated (Bundle.env o) || negb (Bundle.isSplittable o));
    [exact Hg|].
  unfold bundleTraverse.
  apply fold_left_invariant; [|exact Hg].
  intros g1 a _ Hg1. destruct (hasAsset g1 o a); [|exact Hg1].
  apply fold_left_invariant; [|exact Hg1].
  intros g2 node _ Hg2. destruct node as [x|d]; simpl; [exact Hg2|].
  apply fold_left_invariant; [|exact Hg2].
  intros g3 x _ Hg3.
  destruct (hasAsset g3 o x && isAssetInAncestorBundles g3 o x);
    [now apply Hrem|exact Hg3].
Qed.

Lemma deduplicateBundle_bundles (g : BundleGraph) (o : Bundle.t) :
  bundles (deduplicateBundle g o) = bundles g.
Proof.
  now apply (deduplicateBundle_invariant (fun g' => bundles g' = bundles g)).
Qed.

Lemma deduplicateBundle_bundleGroups (g : BundleGraph) (o : Bundle.t) :
  bundleGroups (deduplicateBundle g o) = bundleGroups g.
Proof.
  now apply (deduplicateBundle_invariant
               (fun g' => bundleGroups g' = bundleGroups g)).
Qed.

Lemma deduplicateBundle_contents_other (g : BundleGraph) (o : Bundle.t)
  (i : string) :
  Bundle.id o <> i ->
  filter (fun p => String.eqb (fst p) i) (containment (deduplicateBundle g o))
  = filter (fun p => String.eqb (fst p) i) (containment g).
Proof.
  intros Hne.
  apply (deduplicateBundle_invariant
           (fun g' => filter (fun p => String.eqb (fst p) i) (containment g')
                      = filter (fun p => String.eqb (fst p) i) (containment g)));
    [|reflexivity].
  intros g' a Hg'. rewrite <- Hg'. now apply remove_contents_other.
Qed.

(** ** Ancestor deduplication leaves isolated and unsplittable bundles alone *)

(** C8.  [deduplicateBundle] returns at once, the graph unchanged, when
    the environment of the bundle is isolated or the bundle is not
    splittable; this is the function step 3 runs on every bundle and step
    4 on every new shared bundle.  Such a bundle also keeps all its
    assets through the whole of step 3, provided no splittable bundle of
    a non-isolated environment carries its id: deduplicating another
    bundle never removes an asset from this one. *)
Theorem deduplicateBundle_skips (g : BundleGraph) (bundle : Bundle.t) :
  Environment.isIsolated (Bundle.env bundle)
  || negb (Bundle.isSplittable bundle) = true ->
  forallb (fun o => negb (Bundle.eqb o bundle)
                    || Environment.isIsolated (Bundle.env o)
                    || negb (Bundle.isSplittable o))
          (bundles g) = true ->
  deduplicateBundle g bundle = g
  /\ bundleAssets (optimizeStep3 g) bundle = bundleAssets g bundle.
Proof.
  intros Hskip Hall. split.
  - unfold deduplicateBundle. now rewrite Hskip.
  - unfold optimizeStep3, traverseBundlesExit, bundleAssets.
    f_equal.
    apply (fold_left_invariant
             (fun g' =>
                filter (fun p => String.eqb (fst p) (Bundle.id bundle))
                       (containment g')
                = filter (fun p => String.eqb (fst p) (Bundle.id bundle))
                         (containment g))); [|reflexivity].
    intros g' o Ho Hg'. rewrite <- Hg'.
    apply in_rev in Ho.
    rewrite forallb_forall in Hall. specialize (Hall o Ho).
    destruct (Bundle.eqb o bundle) eqn:Heq; simpl in Hall.
    + unfold deduplicateBundle. now rewrite Hall.
    + apply deduplicateBundle_contents_other.
      intros Hid. apply Bundle_eqb_id in Hid. congruence.
Qed.

Lemma deduplicateBundle_skips_witness :
  deduplicateBundle Examples.workerGraph Examples.workerBundle
  = Examples.workerGraph
  /\ bundleAssets (optimizeStep3 Examples.workerGraph) Examples.workerBundle
     = bundleAssets Examples.workerGraph Examples.workerBundle.
Proof.
  apply deduplicateBundle_skips; reflexivity.
Defined.

(** ** Bundle-groups *)

Lemma groupMembers_eqb (l : list (BundleGroup.t * list Bundle.t))
  (G G' : BundleGroup.t) :
  BundleGroup.eqb G G' = true -> groupMembers G l = groupMembers G' l.
Proof.
  intros H. induction l as [|[g' m] l IH]; simpl; [reflexivity|].
  rewrite (Group_eqb_sym g' G), (Group_eqb_sym g' G').
  rewrite (Group_eqb_trans _ _ g' H). now rewrite IH.
Qed.

Lemma hasGroup_In (l : list (BundleGroup.t * list Bundle.t))
  (G : BundleGroup.t) :
  In G (map fst l) -> hasGroup l G = true.
Proof.
  intros H. apply in_map_iff in H. destruct H as [e [<- He]].
  apply existsb_exists. exists e. split; [exact He|apply Group_eqb_refl].
Qed.

Lemma containing_hasGroup (g : BundleGraph) (b : Bundle.t) (G : BundleGroup.t) :
  In G (getBundleGroupsContainingBundle g b) ->
  hasGroup (bundleGroups g) G = true.
Proof.
  intros H. apply filter_In in H. apply hasGroup_In. tauto.
Qed.

Lemma add_groups (g : BundleGraph) (b : Bundle.t) (G0 : BundleGroup.t) :
  map fst (bundleGroups (addBundleToBundleGroup g b G0))
  = map fst (bundleGroups g).
Proof.
  unfold addBundleToBundleGroup. simpl. rewrite map_map.
  apply map_ext. intros e.
  now destruct (BundleGroup.eqb (fst e) G0 && negb (memBundle b (snd e))).
Qed.

Lemma add_hasGroup (g : BundleGraph) (b : Bundle.t) (G0 G : BundleGroup.t) :
  hasGroup (bundleGroups (addBundleToBundleGroup g b G0)) G
  = hasGroup (bundleGroups g) G.
Proof.
  unfold hasGroup, addBundleToBundleGroup. simpl.
  induction (bundleGroups g) as [|e l IH]; simpl; [reflexivity|].
  rewrite IH.
  now destruct (BundleGroup.eqb (fst e) G0 && negb (memBundle b (snd e))).
Qed.

(** What adding a bundle to a group does to the bundles of any group. *)
Lemma add_members (g : BundleGraph) (b : Bundle.t) (G0 G : BundleGroup.t) :
  getBundlesInBundleGroup (addBundleToBundleGroup g b G0) G
  = if BundleGroup.eqb G G0 && hasGroup (bundleGroups g) G
       && negb (memBundle b (getBundlesInBundleGroup g G))
    then getBundlesInBundleGroup g G ++ [b]
    else getBundlesInBundleGroup g G.
Proof.
  unfold getBundlesInBundleGroup, addBundleToBundleGroup. simpl.
  induction (bundleGroups g) as [|[g' m] l IH]; simpl.
  - now rewrite andb_false_r.
  - destruct (BundleGroup.eqb g' G) eqn:Hg.
    + rewrite <- (Group_eqb_trans _ _ G0 Hg).
      simpl. rewrite andb_true_r.
      destruct (BundleGroup.eqb g' G0 && negb (memBundle b m)); simpl;
        now rewrite Hg.
    + simpl.
      assert (Hfst : fst (if BundleGroup.eqb g' G0 && negb (memBundle b m)
                          then (g', m ++ [b]) else (g', m)) = g').
      { now destruct (BundleGroup.eqb g' G0 && negb (memBundle b m)). }
      destruct (if BundleGroup.eqb g' G0 && negb (memBundle b m)
                then (g', m ++ [b]) else (g', m)) as [g'' m''] eqn:E.
      simpl in Hfst. subst g''. rewrite Hg. exact IH.
Qed.

Lemma extended_refl (X m : list Bundle.t) : extended X m m.
Proof.
  exists []. rewrite app_nil_r. repeat split.
  - constructor.
  - intros x [].
  - intros e [].
Qed.

Lemma extended_add (X m : list Bundle.t) (g : BundleGraph) (b : Bundle.t)
  (G0 G : BundleGroup.t) :
  In b X ->
  extended X m (getBundlesInBundleGroup g G) ->
  extended X m (getBundlesInBundleGroup (addBundleToBundleGroup g b G0) G).
Proof.
  intros Hb [extra [Hm [Hnd [Hincl Hnew]]]]. rewrite add_members.
  destruct (BundleGroup.eqb G G0 && hasGroup (bundleGroups g) G
            && negb (memBundle b (getBundlesInBundleGroup g G))) eqn:E.
  - apply andb_true_iff in E. destruct E as [_ E].
    apply negb_true_iff in E. rewrite Hm in E.
    rewrite memBundle_app in E. apply orb_false_iff in E.
    destruct E as [E1 E2].
    exists (extra ++ [b]). repeat split.
    + rewrite Hm. now rewrite app_assoc.
    + rewrite map_app. simpl. apply NoDup_app; [exact Hnd| |].
      * constructor; [intros []|constructor].
      * intros x Hx [<-|[]].
        apply memBundle_id in Hx. congruence.
    + intros x Hx. apply in_app_or in Hx. destruct Hx as [Hx|[<-|[]]].
      * now apply Hincl.
      * exact Hb.
    + intros e He. apply in_app_or in He. destruct He as [He|[<-|[]]].
      * now apply Hnew.
      * exact E1.
  - exists extra. auto.
Qed.

Lemma extended_length (X m m' : list Bundle.t) :
  extended X m m' -> List.length m' <= List.length m + List.length X.
Proof.
  intros [extra [-> [Hnd [Hincl _]]]]. rewrite length_app.
  apply Nat.add_le_mono_l.
  rewrite <- (length_map Bundle.id extra), <- (length_map Bundle.id X).
  apply NoDup_incl_length; [exact Hnd|].
  intros i Hi. apply in_map_iff in Hi. destruct Hi as [e [<- He]].
  apply in_map. now apply Hincl.
Qed.

Lemma add_keeps_member (g : BundleGraph) (b x : Bundle.t)
  (G0 G : BundleGroup.t) :
  memBundle x (getBundlesInBundleGroup g G) = true ->
  memBundle x (getBundlesInBundleGroup (addBundleToBundleGroup g b G0) G) = true.
Proof.
  intros H. rewrite add_members.
  destruct (BundleGroup.eqb G G0 && hasGroup (bundleGroups g) G
            && negb (memBundle b (getBundlesInBundleGroup g G))); [|exact H].
  rewrite memBundle_app, H. reflexivity.
Qed.

Lemma add_makes_member (g : BundleGraph) (b : Bundle.t) (G : BundleGroup.t) :
  hasGroup (bundleGroups g) G = true ->
  memBundle b (getBundlesInBundleGroup (addBundleToBundleGroup g b G) G) = true.
Proof.
  intros H. rewrite add_members, Group_eqb_refl, H. simpl.
  destruct (memBundle b (getBundlesInBundleGroup g G)) eqn:E; simpl.
  - exact E.
  - rewrite memBundle_app. simpl. rewrite Bundle_eqb_refl.
    now rewrite orb_true_r.
Qed.

Lemma fold_left_establish (A B : Type) (P : A -> Prop) (f : A -> B -> A)
  (l : list B) (x : B) :
  In x l ->
  (forall a, P (f a x)) ->
  (forall a y, P a -> P (f a y)) ->
  forall a, P (fold_left f l a).
Proof.
  intros Hx Hest Hkeep. induction l as [|y l IH]; intros a; [destruct Hx|].
  simpl. destruct Hx as [->|Hx].
  - apply fold_left_invariant; [|apply Hest].
    intros a' z _. apply Hkeep.
  - now apply IH.
Qed.

Lemma addToGroups_invariant (P : BundleGraph -> Prop)
  (toAdd : list Bundle.t) (groups : list BundleGroup.t) :
  (forall g b G, In b toAdd -> P g -> P (addBundleToBundleGroup g b G)) ->
  forall g, P g -> P (addToGroups toAdd groups g).
Proof.
  intros Hadd g Hg. unfold addToGroups.
  apply fold_left_invariant; [|exact Hg].
  intros g1 G _ Hg1. apply fold_left_invariant; [|exact Hg1].
  intros g2 b Hb Hg2. now apply Hadd.
Qed.

Lemma addToGroups_containment (toAdd : list Bundle.t)
  (groups : list BundleGroup.t) (g : BundleGraph) :
  containment (addToGroups toAdd groups g) = containment g.
Proof.
  now apply (addToGroups_invariant (fun g' => containment g' = containment g)).
Qed.

Lemma addToGroups_length (toAdd : list Bundle.t) (groups : list BundleGroup.t)
  (g : BundleGraph) (G : BundleGroup.t) :
  List.length (getBundlesInBundleGroup (addToGroups toAdd groups g) G)
  <= List.length (getBundlesInBundleGroup g G) + List.length toAdd.
Proof.
  apply extended_length.
  apply (addToGroups_invariant
           (fun g' => extended toAdd (getBundlesInBundleGroup g G)
                               (getBundlesInBundleGroup g' G))).
  - intros g' b G0 Hb Hg'. now apply extended_add.
  - apply extended_refl.
Qed.

Lemma addToGroups_members (toAdd : list Bundle.t) (groups : list BundleGroup.t)
  (g : BundleGraph) (G : BundleGroup.t) (b : Bundle.t) :
  In G groups -> In b toAdd -> hasGroup (bundleGroups g) G = true ->
  memBundle b (getBundlesInBundleGroup (addToGroups toAdd groups g) G) = true.
Proof.
  intros HG Hb Hhas.
  assert (Hgoal :
    hasGroup (bundleGroups (addToGroups toAdd groups g)) G = true
    /\ memBundle b (getBundlesInBundleGroup (addToGroups toAdd groups g) G)
       = true); [|tauto].
  revert g Hhas. unfold addToGroups.
  set (P := fun g' => hasGroup (bundleGroups g') G = true
                      /\ memBundle b (getBundlesInBundleGroup g' G) = true).
  assert (Hkeep : forall g' x G0, P g' -> P (addBundleToBundleGroup g' x G0)).
  { intros g' x G0 [H1 H2]. split.
    - now rewrite add_hasGroup.
    - now apply add_keeps_member. }
  assert (Hhaskeep : forall l g' G0,
             hasGroup (bundleGroups g') G = true ->
             hasGroup (bundleGroups
                         (fold_left (fun g x => addBundleToBundleGroup g x G0)
                                    l g')) G = true).
  { intros l g' G0 H.
    apply (fold_left_invariant
             (fun g'' => hasGroup (bundleGroups g'') G = true)); [|exact H].
    intros a x _ Ha. now rewrite add_hasGroup. }
  induction groups as [|G1 groups IH]; intros g Hhas; [destruct HG|].
  simpl. destruct HG as [->|HG].
  - apply (fold_left_invariant P).
    + intros a G0 _ Ha. apply (fold_left_invariant P); [|exact Ha].
      intros a' x _. apply Hkeep.
    + clear IH. revert g Hhas.
      induction toAdd as [|y toAdd IHt]; intros g Hhas; [destruct Hb|].
      simpl. destruct Hb as [->|Hb].
      * apply (fold_left_invariant P).
        -- intros a x _. apply Hkeep.
        -- split; [now rewrite add_hasGroup|now apply add_makes_member].
      * apply IHt; [exact Hb|]. now rewrite add_hasGroup.
  - apply IH; [exact HG|]. now apply Hhaskeep.
Qed.

Lemma hasAsset_containment (g g' : BundleGraph) (b : Bundle.t) (a : Asset.t) :
  containment g' = containment g -> hasAsset g' b a = hasAsset g b a.
Proof. unfold hasAsset. now intros ->. Qed.

(** ** Step 2 checks room for one bundle *)

(** C1, as the code has it.  For a candidate, step 2 goes ahead exactly
    when every bundle-group containing the candidate holds fewer than
    [maxParallelRequests] bundles, that is, has room for one more bundle,
    whatever the number of siblings.  It then removes the subgraph of the
    main entry from the candidate and puts the bundle and every one of
    its non-inline referenced siblings in each of these groups, so a
    group grows by up to [1 + |siblings|] bundles; otherwise it leaves
    the graph as it is. *)
Theorem reparentCandidate_guard (bundle : Bundle.t) (mainEntry : Asset.t)
  (siblings : list Bundle.t) (g : BundleGraph) (candidate : Bundle.t) :
  let bundleGroups := getBundleGroupsContainingBundle g candidate in
  let g' := reparentCandidate bundle mainEntry siblings g candidate in
  if forallb
       (fun group =>
          List.length (getBundlesInBundleGroup g group)
          <? OPTIONS.maxParallelRequests)
       bundleGroups
  then
    hasAsset g' candidate mainEntry = false
    /\ (forall group b,
           In group bundleGroups -> In b (bundle :: siblings) ->
           memBundle b (getBundlesInBundleGroup g' group) = true)
    /\ (forall group,
           List.length (getBundlesInBundleGroup g' group)
           <= List.length (getBundlesInBundleGroup g group)
              + (1 + List.length siblings))
  else g' = g.
Proof.
  intros bundleGroups g'. subst g'. unfold reparentCandidate.
  fold bundleGroups.
  destruct (forallb _ bundleGroups) eqn:Hroom; [|reflexivity].
  fold (addToGroups (bundle :: siblings) bundleGroups
                    (removeAssetGraphFromBundle g mainEntry candidate)).
  split; [|split].
  - rewrite (hasAsset_containment
               (removeAssetGraphFromBundle g mainEntry candidate)).
    + apply hasAsset_removed.
    + apply addToGroups_containment.
  - intros group b HG Hb. apply addToGroups_members; [exact HG|exact Hb|].
    now apply containing_hasGroup with (b := candidate).
  - intros group.
    apply (addToGroups_length (bundle :: siblings) bundleGroups
             (removeAssetGraphFromBundle g mainEntry candidate) group).
Qed.

(** C1, as stated, fails: on the bundle graph of [pageAssets] step 2
    reparents [lib.js] out of the bundle of [page.js], whose only group
    holds four bundles: room for [lib.js], not for [lib.js] and its
    sibling [lib.css].  The group ends with six bundles. *)
Lemma reparent_overfills_group :
  let g := Examples.pageGraph in
  let g' := optimizeStep2 g in
  bundle (Examples.emptyGraph Examples.pageAssets) = Ok g
  /\ reparentSiblings g Examples.libBundle = [Examples.libCssBundle]
  /\ reparentCandidates g Examples.libBundle (Examples.js "lib.js" 2000)
     = [Examples.pageBundle]
  /\ getBundleGroupsContainingBundle g Examples.pageBundle
     = [Examples.pageGroup]
  /\ List.length (getBundlesInBundleGroup g Examples.pageGroup) = 4
  /\ hasAsset g Examples.pageBundle (Examples.js "lib.js" 2000) = true
  /\ hasAsset g' Examples.pageBundle (Examples.js "lib.js" 2000) = false
  /\ List.length (getBundlesInBundleGroup g' Examples.pageGroup) = 6
  /\ OPTIONS.maxParallelRequests < 6.
Proof.
  vm_compute. repeat split. apply Nat.leb_le. reflexivity.
Qed.

(** ** Traversal invariants *)

Section WalkFacts.
Variables (St Ctx : Type).
Variable next : Node -> list Node.
Variable enter : Node -> Ctx -> St -> St * Ctx * bool.

Lemma walk_invariant (P : St -> Prop) :
  (forall n c s, P s -> P (fst (fst (enter n c s)))) ->
  forall fuel ctx acc node,
    P (snd acc) -> P (snd (walk next enter fuel ctx acc node)).
Proof.
  intros Hstep. induction fuel as [|fuel IH]; intros ctx acc node Hacc; simpl.
  - exact Hacc.
  - destruct (existsb (nodeEqb node) (fst acc)); [exact Hacc|].
    specialize (Hstep node ctx (snd acc) Hacc).
    destruct (enter node ctx (snd acc)) as [[st' ctx'] skip]. simpl in Hstep.
    destruct skip; [exact Hstep|].
    apply (fold_left_invariant (fun a => P (snd a))); [|exact Hstep].
    intros a x _ Ha. now apply IH.
Qed.

Lemma walkAll_invariant (P : St -> Prop) :
  (forall n c s, P s -> P (fst (fst (enter n c s)))) ->
  forall fuel ctx roots st,
    P st -> P (snd (walkAll next enter fuel ctx roots st)).
Proof.
  intros Hstep fuel ctx roots st Hst. unfold walkAll.
  apply (fold_left_invariant (fun a => P (snd a))); [|exact Hst].
  intros a x _ Ha. now apply walk_invariant.
Qed.
End WalkFacts.

Lemma traverse_invariant (St Ctx : Type) (g : BundleGraph)
  (enter : Node -> Ctx -> St -> St * Ctx * bool) (P : St -> Prop) :
  (forall n c s, P s -> P (fst (fst (enter n c s)))) ->
  forall ctx st, P st -> P (traverse g enter ctx st).
Proof.
  intros Hstep ctx st Hst. unfold traverse. now apply walkAll_invariant.
Qed.

(** ** Insertion-ordered sets and maps *)

Lemma distinct_NoDup (l : list string) : distinct l = true -> NoDup l.
Proof.
  induction l as [|x l IH]; simpl; intros H; [constructor|].
  apply andb_true_iff in H. destruct H as [Hx Hl].
  constructor; [|now apply IH].
  intros Hin. apply negb_true_iff in Hx.
  assert (existsb (String.eqb x) l = true); [|congruence].
  apply existsb_exists. exists x. split; [exact Hin|apply String.eqb_refl].
Qed.

Lemma mapSet_In (V : Type) (k : string) (v : V) (l : list (string * V))
  (e : string * V) :
  In e (mapSet k v l) -> e = (k, v) \/ In e l.
Proof.
  induction l as [|[k' v'] l IH]; simpl.
  - intros [<-|[]]. now left.
  - destruct (String.eqb k k'); simpl.
    + intros [<-|H]; [now left|right; now right].
    + intros [<-|H]; [right; now left|].
      destruct (IH H) as [-> | H']; [now left|right; now right].
Qed.

Lemma assoc_In (V : Type) (k : string) (v : V) (l : list (string * V)) :
  assoc k l = Some v -> In (k, v) l.
Proof.
  induction l as [|[k' v'] l IH]; simpl; [discriminate|].
  destruct (String.eqb k k') eqn:E.
  - intros [= <-]. apply String.eqb_eq in E. subst. now left.
  - intros H. right. now apply IH.
Qed.

Lemma setAddBundle_In (s : list Bundle.t) (b x : Bundle.t) :
  In x (setAddBundle s b) -> In x s \/ x = b.
Proof.
  unfold setAddBundle. destruct (memBundle b s); [now left|].
  intros H. apply in_app_or in H. destruct H as [H|[<-|[]]]; auto.
Qed.

Lemma setAddBundle_mem (s : list Bundle.t) (b : Bundle.t) :
  memBundle b (setAddBundle s b) = true.
Proof.
  unfold setAddBundle. destruct (memBundle b s) eqn:E; [exact E|].
  rewrite memBundle_app. simpl. rewrite Bundle_eqb_refl.
  now rewrite orb_true_r.
Qed.

Lemma setAddBundle_keeps (s : list Bundle.t) (b x : Bundle.t) :
  memBundle x s = true -> memBundle x (setAddBundle s b) = true.
Proof.
  unfold setAddBundle. intros H. destruct (memBundle b s); [exact H|].
  rewrite memBundle_app, H. reflexivity.
Qed.

Lemma setAddBundle_NoDup (s : list Bundle.t) (b : Bundle.t) :
  NoDup (map Bundle.id s) -> NoDup (map Bundle.id (setAddBundle s b)).
Proof.
  unfold setAddBundle. intros H. destruct (memBundle b s) eqn:E; [exact H|].
  rewrite map_app. apply NoDup_app; [exact H| |].
  - simpl. constructor; [intros []|constructor].
  - intros i Hi [<-|[]]. apply memBundle_id in Hi. congruence.
Qed.

(** Adding a list of bundles to a set: the set then holds all of them,
    keeps what it had, and gets nothing else. *)
Lemma setAddAll (xs s : list Bundle.t) :
  NoDup (map Bundle.id s) ->
  NoDup (map Bundle.id (fold_left setAddBundle xs s))
  /\ (forall x, In x (fold_left setAddBundle xs s) -> In x s \/ In x xs)
  /\ (forall x, memBundle x s = true ->
                memBundle x (fold_left setAddBundle xs s) = true)
  /\ (forall x, In x xs -> memBundle x (fold_left setAddBundle xs s) = true).
Proof.
  revert s. induction xs as [|y xs IH]; intros s Hs; simpl.
  - split; [exact Hs|]. split; [auto|]. split; [auto|]. intros x [].
  - destruct (IH (setAddBundle s y) (setAddBundle_NoDup s y Hs))
      as [H1 [H2 [H3 H4]]].
    split; [|split; [|split]].
    + exact H1.
    + intros x Hx. destruct (H2 x Hx) as [H|H]; [|right; now right].
      destruct (setAddBundle_In _ _ _ H) as [H' | ->]; [now left|right; now left].
    + intros x Hx. apply H3. now apply setAddBundle_keeps.
    + intros x [<-|Hx]; [|now apply H4].
      apply H3. apply setAddBundle_mem.
Qed.

Lemma insertCandidate_In (x c : Candidate.t) (l : list Candidate.t) :
  In c (insertCandidate x l) <-> c = x \/ In c l.
Proof.
  induction l as [|y l IH]; simpl.
  - split; [intros [<-|[]]; now left|intros [->|[]]; now left].
  - destruct (compareCandidates x y <=? 0)%Z; simpl.
    + split; [intros [<-|H]; auto|intros [->|H]; auto].
    + rewrite IH. split.
      * intros [<-|[->|H]]; auto.
      * intros [->|[<-|H]]; auto.
Qed.

Lemma sortCandidates_In (c : Candidate.t) (l : list Candidate.t) :
  In c (sortCandidates l) <-> In c l.
Proof.
  induction l as [|x l IH]; simpl; [tauto|].
  rewrite insertCandidate_In, IH. split; intros [H|H]; auto.
Qed.

(** ** Step 4: what the candidates are made of *)

Lemma totalSize_snoc (g : BundleGraph) (assets : list Asset.t) (a : Asset.t) :
  totalSize g (assets ++ [a]) = (totalSize g assets + getTotalSize g a)%Z.
Proof. unfold totalSize. now rewrite fold_left_app. Qed.

Lemma collectVisitor_collected (g : BundleGraph) (n : Node) (ctx : unit)
  (cands : list (string * Candidate.t)) :
  (forall e, In e cands -> collected g (fst e) (snd e)) ->
  forall e, In e (fst (fst (collectVisitor g n ctx cands))) ->
            collected g (fst e) (snd e).
Proof.
  intros Hinv. destruct n as [asset|d]; simpl; [|exact Hinv].
  destruct (OPTIONS.minBundles <? List.length (containingBundles g asset))
    eqn:Hcount; simpl; [|exact Hinv].
  set (id := candidateId (containingBundles g asset)).
  destruct (assoc id cands) as [candidate|] eqn:Hget.
  - intros e He. apply mapSet_In in He. destruct He as [->|He]; [|now apply Hinv].
    apply assoc_In in Hget. specialize (Hinv _ Hget). simpl in Hinv.
    destruct Hinv as [Hne [Hassets [Hnd [Hsrc [Hcov Hsize]]]]].
    destruct (setAddAll (containingBundles g asset)
                (Candidate.sourceBundles candidate) Hnd)
      as [S1 [S2 [S3 S4]]].
    unfold collected. simpl. repeat split.
    + intros H. now apply app_eq_nil in H.
    + apply in_app_or in H. destruct H as [H|[<-|[]]];
        [now apply Hassets|exact Hcount].
    + apply in_app_or in H. destruct H as [H|[<-|[]]];
        [now apply Hassets|reflexivity].
    + exact S1.
    + intros b Hb. destruct (S2 b Hb) as [H|H].
      * destruct (Hsrc b H) as [a [Ha Hba]]. exists a. split; [|exact Hba].
        apply in_or_app. now left.
      * exists asset. split; [|exact H]. apply in_or_app. right. now left.
    + intros a b Ha Hb. apply in_app_or in Ha. destruct Ha as [Ha|[<-|[]]].
      * apply S3. now apply Hcov with (a := a).
      * now apply S4.
    + rewrite totalSize_snoc. now rewrite Hsize.
  - intros e He. apply mapSet_In in He. destruct He as [->|He]; [|now apply Hinv].
    destruct (setAddAll (containingBundles g asset) [] (NoDup_nil _))
      as [S1 [S2 [S3 S4]]].
    unfold collected, setOfBundles. simpl. repeat split.
    + discriminate.
    + destruct H as [<-|[]]. exact Hcount.
    + destruct H as [<-|[]]. reflexivity.
    + exact S1.
    + intros b Hb. destruct (S2 b Hb) as [[]|H].
      exists asset. split; [now left|exact H].
    + intros a b [<-|[]] Hb. now apply S4.
Qed.

Lemma candidateBundles_collected (g : BundleGraph) (e : string * Candidate.t) :
  In e (candidateBundles g) -> collected g (fst e) (snd e).
Proof.
  revert e. unfold candidateBundles.
  apply (traverse_invariant g (collectVisitor g)
           (fun cands => forall e, In e cands -> collected g (fst e) (snd e))).
  - intros n c s Hs. now apply collectVisitor_collected.
  - intros e [].
Qed.

Lemma sortedCandidates_collected (g : BundleGraph) (c : Candidate.t) :
  In c (sortedCandidates g) ->
  (OPTIONS.minBundleSize <= Candidate.size c)%Z
  /\ exists k, In (k, c) (candidateBundles g) /\ collected g k c.
Proof.
  unfold sortedCandidates. intros H. apply (proj1 (sortCandidates_In _ _)) in H.
  apply filter_In in H. destruct H as [H Hsize].
  split; [now apply Z.leb_le|].
  apply in_map_iff in H. destruct H as [[k c'] [Hc He]]. simpl in Hc. subst c'.
  exists k. split; [exact He|].
  exact (candidateBundles_collected g _ He).
Qed.

Lemma filter_keeps_distinct_ids (keep : Bundle.t -> bool)
  (bs : list Bundle.t) :
  NoDup (map Bundle.id bs) -> NoDup (map Bundle.id (filter keep bs)).
Proof.
  induction bs as [|b bs IH]; simpl; intros Hbs; [constructor|].
  inversion Hbs as [|? ? Hfresh Hrest]; subst.
  destruct (keep b); simpl; [|now apply IH].
  constructor; [|now apply IH].
  intros Hin. apply Hfresh. apply in_map_iff in Hin.
  destruct Hin as [y [Hy Hin]]. apply filter_In in Hin.
  apply in_map_iff. exists y. tauto.
Qed.

Lemma containingBundles_NoDup (g : BundleGraph) (a : Asset.t) :
  uniqueBundleIds g = true -> NoDup (map Bundle.id (containingBundles g a)).
Proof.
  intros H. apply distinct_NoDup in H.
  unfold containingBundles, findBundlesWithAsset.
  now do 2 apply filter_keeps_distinct_ids.
Qed.

Lemma containingBundles_spec (g : BundleGraph) (a : Asset.t) (b : Bundle.t) :
  In b (containingBundles g a) ->
  In b (bundles g)
  /\ hasAsset g b a = true
  /\ Bundle.isEntry b = false
  /\ Bundle.isSplittable b = true
  /\ match Bundle.getMainEntry b with
     | None => True
     | Some m => Asset.id m <> Asset.id a
     end.
Proof.
  unfold containingBundles, findBundlesWithAsset. intros H.
  apply filter_In in H. destruct H as [H Hflags].
  apply filter_In in H. destruct H as [Hin Hhas].
  apply andb_true_iff in Hflags. destruct Hflags as [Hflags Hmain].
  apply andb_true_iff in Hflags. destruct Hflags as [Hentry Hsplit].
  apply negb_true_iff in Hentry. repeat split; auto.
  destruct (Bundle.getMainEntry b) as [m|]; [|exact I].
  apply negb_true_iff in Hmain. now apply String.eqb_neq.
Qed.

(** A candidate that passes the size filter: its accumulated size, its
    source bundles. *)
Lemma candidate_lower_bound (g : BundleGraph) (c : Candidate.t) :
  uniqueBundleIds g = true ->
  In c (sortedCandidates g) ->
  (OPTIONS.minBundleSize <= Candidate.size c)%Z
  /\ Candidate.size c = totalSize g (Candidate.assets c)
  /\ OPTIONS.minBundles < List.length (Candidate.sourceBundles c)
  /\ forall b, In b (Candidate.sourceBundles c) ->
       In b (bundles g)
       /\ Bundle.isEntry b = false
       /\ Bundle.isSplittable b = true
       /\ exists a, In a (Candidate.assets c)
                    /\ hasAsset g b a = true
                    /\ match Bundle.getMainEntry b with
                       | None => True
                       | Some m => Asset.id m <> Asset.id a
                       end.
Proof.
  intros Hids Hc. apply sortedCandidates_collected in Hc.
  destruct Hc as [Hsize [k [_ Hcol]]].
  destruct Hcol as [Hne [Hassets [Hnd [Hsrc [Hcov Htotal]]]]].
  split; [exact Hsize|]. split; [exact Htotal|]. split.
  - destruct (Candidate.assets c) as [|a rest] eqn:Ha; [congruence|].
    destruct (Hassets a (or_introl eq_refl)) as [Hcount _].
    unfold isSharedCandidate in Hcount. apply Nat.ltb_lt in Hcount.
    eapply Nat.lt_le_trans; [exact Hcount|].
    rewrite <- (length_map Bundle.id (containingBundles g a)).
    rewrite <- (length_map Bundle.id (Candidate.sourceBundles c)).
    apply NoDup_incl_length; [now apply containingBundles_NoDup|].
    intros i Hi. apply in_map_iff in Hi. destruct Hi as [b [<- Hb]].
    apply memBundle_id. apply Hcov with (a := a); [now left|exact Hb].
  - intros b Hb. destruct (Hsrc b Hb) as [a [Ha Hba]].
    destruct (containingBundles_spec g a b Hba) as [H1 [H2 [H3 [H4 H5]]]].
    repeat split; auto. exists a. auto.
Qed.

(** ** Step 4: one candidate *)

Lemma groupMembers_map (f : Bundle.t -> Bundle.t) (G : BundleGroup.t)
  (l : list (BundleGroup.t * list Bundle.t)) :
  groupMembers G (map (fun e => (fst e, map f (snd e))) l)
  = map f (groupMembers G l).
Proof.
  induction l as [|[g' m] l IH]; simpl; [reflexivity|].
  now destruct (BundleGroup.eqb g' G).
Qed.

Lemma createBundle_spec (g g1 : BundleGraph) (opts : CreateBundleOpts.t)
  (b : Bundle.t) :
  createBundle g opts = Ok (g1, b) ->
  newBundle opts = Ok b
  /\ assetGraph g1 = assetGraph g
  /\ containment g1 = containment g
  /\ internalized g1 = internalized g
  /\ bundles g1 = (if memBundle b (bundles g)
                   then map (replaceBundle b) (bundles g)
                   else bundles g ++ [b])
  /\ map fst (bundleGroups g1) = map fst (bundleGroups g)
  /\ forall G, List.length (getBundlesInBundleGroup g1 G)
               = List.length (getBundlesInBundleGroup g G).
Proof.
  unfold createBundle. destruct (newBundle opts) as [b'|msg]; simpl;
    [|discriminate].
  destruct (memBundle b' (bundles g)) eqn:E; intros [= <- <-]; simpl;
    rewrite ?E.
  - do 5 (split; [reflexivity|]). split.
    + rewrite map_map. simpl. reflexivity.
    + intros G. unfold getBundlesInBundleGroup. simpl.
      rewrite groupMembers_map. apply length_map.
  - do 5 (split; [reflexivity|]). split; reflexivity.
Qed.

Lemma sharedBundle_new (md5FromString : string -> string) (c : Candidate.t)
  (firstBundle : Bundle.t) :
  newBundle (sharedBundleOpts md5FromString (Candidate.sourceBundles c)
                              firstBundle)
  = Ok (sharedBundle md5FromString c firstBundle).
Proof. reflexivity. Qed.

Lemma fillSharedBundle_invariant (P : BundleGraph -> Prop) (c : Candidate.t)
  (bundleGroups : list BundleGroup.t) (shared : Bundle.t) :
  (forall g a b, P g -> P (addAssetGraphToBundle g a b)) ->
  (forall g a b, P g -> P (removeAssetGraphFromBundle g a b)) ->
  (forall g G, In G bundleGroups -> P g ->
               P (addBundleToBundleGroup g shared G)) ->
  forall g1, P g1 -> P (fillSharedBundle c bundleGroups shared g1).
Proof.
  intros Hadd Hrem Hgrp g1 Hg1. unfold fillSharedBundle.
  apply deduplicateBundle_invariant; [intros; now apply Hrem|].
  apply fold_left_invariant; [intros; now apply Hgrp|].
  apply fold_left_invariant; [|exact Hg1].
  intros g2 a _ Hg2. apply fold_left_invariant; [intros; now apply Hrem|].
  now apply Hadd.
Qed.

(** The three ways through the body of the loop of step 4. *)
Lemma extractSharedBundle_cases (md5FromString : string -> string)
  (g : BundleGraph) (c : Candidate.t) :
  let bundleGroups := candidateGroups g (Candidate.sourceBundles c) in
  let full :=
    existsb
      (fun group =>
         OPTIONS.maxParallelRequests
         <=? List.length (getBundlesInBundleGroup g group))
      bundleGroups in
  (full = true /\ extractSharedBundle md5FromString (Ok g) c = Ok g)
  \/ (full = false /\ Candidate.sourceBundles c = []
      /\ exists msg, extractSharedBundle md5FromString (Ok g) c = Err msg)
  \/ (full = false
      /\ exists firstBundle rest g1,
           Candidate.sourceBundles c = firstBundle :: rest
           /\ createBundle g (sharedBundleOpts md5FromString
                                (Candidate.sourceBundles c) firstBundle)
              = Ok (g1, sharedBundle md5FromString c firstBundle)
           /\ extractSharedBundle md5FromString (Ok g) c
              = Ok (fillSharedBundle c bundleGroups
                      (sharedBundle md5FromString c firstBundle) g1)).
Proof.
  intros bundleGroups full. subst full. unfold extractSharedBundle.
  simpl bind. fold bundleGroups.
  destruct (existsb _ bundleGroups) eqn:Hfull.
  - left. split; reflexivity.
  - right. destruct (Candidate.sourceBundles c) as [|firstBundle rest] eqn:Hsrc.
    + left. split; [reflexivity|]. split; [reflexivity|]. simpl. eauto.
    + right. split; [reflexivity|]. exists firstBundle, rest.
      simpl bind.
      destruct (createBundle g
                  (sharedBundleOpts md5FromString (firstBundle :: rest)
                                    firstBundle)) as [[g1 b]|msg] eqn:Hcreate.
      * assert (Hb : b = sharedBundle md5FromString c firstBundle).
        { apply createBundle_spec in Hcreate. destruct Hcreate as [Hnew _].
          rewrite <- Hsrc in Hnew. rewrite sharedBundle_new in Hnew.
          congruence. }
        subst b. exists g1. repeat split. simpl.
        unfold fillSharedBundle. now rewrite Hsrc.
      * exfalso. unfold createBundle in Hcreate. simpl in Hcreate.
        destruct (memBundle _ (bundles g)); discriminate.
Qed.

Lemma In_replaceBundle (b x : Bundle.t) (l : list Bundle.t) :
  In x (map (replaceBundle b) l) -> x = b \/ In x l.
Proof.
  intros H. apply in_map_iff in H. destruct H as [y [<- Hy]].
  unfold replaceBundle. destruct (Bundle.eqb y b); auto.
Qed.

(** Step 4 never throws: a candidate has source bundles. *)
Lemma optimizeStep4_total (md5FromString : string -> string) (g : BundleGraph) :
  exists g', optimizeStep4 md5FromString g = Ok g'.
Proof.
  unfold optimizeStep4.
  assert (Hsrc : forall c, In c (sortedCandidates g) ->
                           Candidate.sourceBundles c <> []).
  { intros c Hc. apply sortedCandidates_collected in Hc.
    destruct Hc as [_ [k [_ [Hne [Hassets [_ [_ [Hcov _]]]]]]]].
    destruct (Candidate.assets c) as [|a rest]; [congruence|].
    destruct (Hassets a (or_introl eq_refl)) as [Hcount _].
    unfold isSharedCandidate in Hcount. apply Nat.ltb_lt in Hcount.
    destruct (containingBundles g a) as [|b bs] eqn:Hb;
      [simpl in Hcount; lia|].
    intros Hnil. specialize (Hcov a b (or_introl eq_refl)).
    rewrite Hb, Hnil in Hcov. specialize (Hcov (or_introl eq_refl)).
    discriminate. }
  revert Hsrc. generalize (sortedCandidates g) as cands. intros cands.
  revert g. induction cands as [|c cands IH]; intros g Hsrc; cbn [fold_left].
  - now exists g.
  - destruct (extractSharedBundle_cases md5FromString g c)
      as [[_ H]|[[_ [Hnil _]]|[_ [fb [rest [g1 [_ [_ H]]]]]]]].
    + rewrite H. apply IH. intros c' Hc'. apply Hsrc. now right.
    + exfalso. apply (Hsrc c); [now left|exact Hnil].
    + rewrite H. apply IH. intros c' Hc'. apply Hsrc. now right.
Qed.

Lemma extract_error (md5FromString : string -> string)
  (cands : list Candidate.t) (msg : string) :
  fold_left (extractSharedBundle md5FromString) cands (Err msg) = Err msg.
Proof. induction cands as [|c cands IH]; simpl; [reflexivity|exact IH]. Qed.

Lemma optimizeStep4_invariant (md5FromString : string -> string)
  (P : BundleGraph -> Prop) (cands : list Candidate.t) :
  (forall g c g', In c cands -> P g ->
                  extractSharedBundle md5FromString (Ok g) c = Ok g' -> P g') ->
  forall g g',
    P g ->
    fold_left (extractSharedBundle md5FromString) cands (Ok g) = Ok g' ->
    P g'.
Proof.
  induction cands as [|c cands IH]; intros Hstep g g' Hg; cbn [fold_left].
  - now intros [= <-].
  - destruct (extractSharedBundle md5FromString (Ok g) c) as [g1|msg] eqn:E.
    + apply IH.
      * intros g2 c' g3 Hc'. apply Hstep. now right.
      * apply (Hstep g c g1); [now left|exact Hg|exact E].
    + rewrite extract_error. discriminate.
Qed.

(** ** Group capacity *)

Lemma withinCapacity_spec (g : BundleGraph) :
  withinCapacity g = true <->
  forall G, In G (map fst (bundleGroups g)) ->
            List.length (getBundlesInBundleGroup g G)
            <= OPTIONS.maxParallelRequests.
Proof.
  unfold withinCapacity. rewrite forallb_forall. split.
  - intros H G HG. apply Nat.leb_le. now apply H.
  - intros H G HG. apply Nat.leb_le. now apply H.
Qed.

Lemma existsb_false (A : Type) (f : A -> bool) (l : list A) (x : A) :
  existsb f l = false -> In x l -> f x = false.
Proof.
  intros H Hx. apply not_true_is_false. intros Hf.
  assert (existsb f l = true); [|congruence].
  apply existsb_exists. now exists x.
Qed.

(** One candidate of step 4 adds at most one bundle to a group, and only
    to a group that holds fewer than [maxParallelRequests]. *)
Lemma extractSharedBundle_capacity (md5FromString : string -> string)
  (g g' : BundleGraph) (c : Candidate.t) :
  extractSharedBundle md5FromString (Ok g) c = Ok g' ->
  map fst (bundleGroups g') = map fst (bundleGroups g)
  /\ forall G, List.length (getBundlesInBundleGroup g' G)
               <= Nat.max (List.length (getBundlesInBundleGroup g G))
                          OPTIONS.maxParallelRequests.
Proof.
  intros H.
  destruct (extractSharedBundle_cases md5FromString g c)
    as [[_ E]|[[_ [_ [msg E]]]|[Hfull [fb [rest [g1 [_ [Hcreate E]]]]]]]];
    rewrite E in H; [| discriminate |].
  - injection H as <-. split; [reflexivity|]. intros G. apply Nat.le_max_l.
  - injection H as <-.
    apply createBundle_spec in Hcreate.
    destruct Hcreate as [_ [_ [_ [_ [_ [Hfst Hlen]]]]]].
    set (shared := sharedBundle md5FromString c fb) in *.
    set (groups := candidateGroups g (Candidate.sourceBundles c)) in *.
    split.
    + rewrite <- Hfst.
      apply (fillSharedBundle_invariant
               (fun g2 => map fst (bundleGroups g2) = map fst (bundleGroups g1)));
        auto.
      intros g2 G _ Hg2. now rewrite add_groups.
    + intros G. rewrite <- Hlen.
      assert (Hcase :
        getBundlesInBundleGroup (fillSharedBundle c groups shared g1) G
        = getBundlesInBundleGroup g1 G
        \/ (getBundlesInBundleGroup (fillSharedBundle c groups shared g1) G
            = getBundlesInBundleGroup g1 G ++ [shared]
            /\ exists G0, In G0 groups /\ BundleGroup.eqb G G0 = true)).
      { apply (fillSharedBundle_invariant
                 (fun g2 =>
                    getBundlesInBundleGroup g2 G = getBundlesInBundleGroup g1 G
                    \/ (getBundlesInBundleGroup g2 G
                        = getBundlesInBundleGroup g1 G ++ [shared]
                        /\ exists G0, In G0 groups
                                      /\ BundleGroup.eqb G G0 = true))); auto.
        intros g2 G0 HG0 Hg2. rewrite add_members.
        destruct (BundleGroup.eqb G G0) eqn:Heq; simpl; [|exact Hg2].
        destruct (hasGroup (bundleGroups g2) G); simpl; [|exact Hg2].
        destruct Hg2 as [Hg2|[Hg2 Hex]].
        - destruct (memBundle shared (getBundlesInBundleGroup g2 G));
            simpl; [now left|].
          right. split; [now rewrite Hg2|]. now exists G0.
        - assert (Hmem : memBundle shared (getBundlesInBundleGroup g2 G) = true).
          { rewrite Hg2, memBundle_app. simpl. rewrite Bundle_eqb_refl.
            now rewrite orb_true_r. }
          rewrite Hmem. simpl. right. split; [exact Hg2|exact Hex]. }
      destruct Hcase as [->|[-> [G0 [HG0 Heq]]]]; [apply Nat.le_max_l|].
      rewrite length_app. simpl.
      apply (existsb_false _ _ G0 Hfull) in HG0.
      apply Nat.leb_gt in HG0.
      unfold getBundlesInBundleGroup in *.
      rewrite <- (groupMembers_eqb (bundleGroups g) _ _ Heq) in HG0.
      specialize (Hlen G). lia.
Qed.

Lemma removeBundleGroup_members (g : BundleGraph) (grp G : BundleGroup.t) :
  In G (map fst (bundleGroups (removeBundleGroup g grp))) ->
  In G (map fst (bundleGroups g))
  /\ getBundlesInBundleGroup (removeBundleGroup g grp) G
     = getBundlesInBundleGroup g G.
Proof.
  unfold removeBundleGroup, getBundlesInBundleGroup. simpl.
  intros H. apply in_map_iff in H. destruct H as [e [<- He]].
  apply filter_In in He. destruct He as [He Hne].
  apply negb_true_iff in Hne. split; [now apply in_map|].
  clear He. induction (bundleGroups g) as [|[g' m] l IH]; simpl; [reflexivity|].
  destruct (BundleGroup.eqb g' grp) eqn:Hg; simpl.
  - destruct (BundleGroup.eqb g' (fst e)) eqn:Hge; [|exact IH].
    exfalso. rewrite (Group_eqb_sym g' (fst e)) in Hge.
    rewrite (Group_eqb_trans _ _ grp Hge) in Hne. congruence.
  - now rewrite IH.
Qed.

Lemma internalizeIn_frame (resolution : Asset.t) (dependency : Dependency.t)
  (g : BundleGraph) (b : Bundle.t) :
  let g' := internalizeIn resolution dependency g b in
  assetGraph g' = assetGraph g /\ bundles g' = bundles g
  /\ bundleGroups g' = bundleGroups g /\ containment g' = containment g
  /\ bundleReferences g' = bundleReferences g
  /\ assetReferences g' = assetReferences g.
Proof.
  unfold internalizeIn, internalizeAsyncDependency.
  destruct (hasAsset g b resolution || isAssetInAncestorBundles g b resolution);
    [|repeat split].
  destruct (isInternalized g b dependency); repeat split.
Qed.

(** The traversal of step 5 changes nothing but the internalized
    dependencies. *)
Lemma internalize_traverse_frame (g : BundleGraph)
  (s : BundleGraph * list BundleGroup.t) :
  traverse g internalizeVisitor tt (Ok (g, [])) = Ok s ->
  assetGraph (fst s) = assetGraph g /\ bundles (fst s) = bundles g
  /\ bundleGroups (fst s) = bundleGroups g
  /\ containment (fst s) = containment g
  /\ bundleReferences (fst s) = bundleReferences g
  /\ assetReferences (fst s) = assetReferences g.
Proof.
  set (P := fun (r : Result (BundleGraph * list BundleGroup.t)) =>
              match r with
              | Ok s => assetGraph (fst s) = assetGraph g
                        /\ bundles (fst s) = bundles g
                        /\ bundleGroups (fst s) = bundleGroups g
                        /\ containment (fst s) = containment g
                        /\ bundleReferences (fst s) = bundleReferences g
                        /\ assetReferences (fst s) = assetReferences g
              | Err _ => True
              end).
  assert (HP : P (traverse g internalizeVisitor tt (Ok (g, [])))).
  { apply traverse_invariant; [|simpl; repeat split].
    intros n c r Hr. destruct n as [a|d]; simpl; [exact Hr|].
    destruct (Dependency.isEntry d || negb (Dependency.isAsync d)); [exact Hr|].
    destruct r as [[g1 groups]|msg]; simpl; [|exact I].
    destruct (getDependencyResolution g1 d) as [resolution|]; [|exact Hr].
    destruct (resolveExternalDependency g1 d) as [[value|value]|];
      simpl; try exact I.
    apply (fold_left_invariant
             (fun g2 => assetGraph g2 = assetGraph g
                        /\ bundles g2 = bundles g
                        /\ bundleGroups g2 = bundleGroups g
                        /\ containment g2 = containment g
                        /\ bundleReferences g2 = bundleReferences g
                        /\ assetReferences g2 = assetReferences g));
      [|exact Hr].
    intros g2 b _ Hg2.
    destruct (internalizeIn_frame resolution d g2 b)
      as [H1 [H2 [H3 [H4 [H5 H6]]]]].
    destruct Hg2 as [K1 [K2 [K3 [K4 [K5 K6]]]]].
    repeat split; congruence. }
  intros E. rewrite E in HP. exact HP.
Qed.

(** C2, as the code has it.  Steps 3, 4 and 5 keep every bundle-group
    within [maxParallelRequests]: step 3 and the traversal of step 5 do
    not touch the groups, step 5 only removes groups, and step 4, which
    always completes, adds a shared bundle only to groups that hold fewer
    than [maxParallelRequests] bundles.  (Step 2 is not among them, and
    nothing bounds the groups that step 1 makes.) *)
Theorem capacity_kept_by_steps_3_4_5 (md5FromString : string -> string)
  (g : BundleGraph) :
  withinCapacity g = true ->
  withinCapacity (optimizeStep3 g) = true
  /\ (exists g', optimizeStep4 md5FromString g = Ok g'
                 /\ withinCapacity g' = true)
  /\ (forall g', optimizeStep5 g = Ok g' -> withinCapacity g' = true).
Proof.
  intros Hcap. split; [|split].
  - assert (Hgroups : bundleGroups (optimizeStep3 g) = bundleGroups g).
    { unfold optimizeStep3, traverseBundlesExit.
      apply (fold_left_invariant
               (fun g' => bundleGroups g' = bundleGroups g)); [|reflexivity].
      intros g' o _ Hg'. now rewrite deduplicateBundle_bundleGroups. }
    unfold withinCapacity, getBundlesInBundleGroup in *. now rewrite Hgroups.
  - destruct (optimizeStep4_total md5FromString g) as [g' Hg'].
    exists g'. split; [exact Hg'|].
    apply withinCapacity_spec. rewrite withinCapacity_spec in Hcap.
    assert (Hinv :
      map fst (bundleGroups g') = map fst (bundleGroups g)
      /\ forall G, List.length (getBundlesInBundleGroup g' G)
                   <= Nat.max (List.length (getBundlesInBundleGroup g G))
                              OPTIONS.maxParallelRequests).
    { unfold optimizeStep4 in Hg'.
      apply (optimizeStep4_invariant md5FromString
               (fun g1 =>
                  map fst (bundleGroups g1) = map fst (bundleGroups g)
                  /\ forall G,
                       List.length (getBundlesInBundleGroup g1 G)
                       <= Nat.max (List.length (getBundlesInBundleGroup g G))
                                  OPTIONS.maxParallelRequests)
               (sortedCandidates g)) with (g := g); [| |exact Hg'].
      - intros g1 c g2 _ [H1 H2] E.
        apply extractSharedBundle_capacity in E. destruct E as [E1 E2].
        split; [congruence|]. intros G.
        specialize (E2 G). specialize (H2 G). lia.
      - split; [reflexivity|]. intros G. apply Nat.le_max_l. }
    destruct Hinv as [Hfst Hlen]. intros G HG. rewrite Hfst in HG.
    specialize (Hcap G HG). specialize (Hlen G). lia.
  - intros g'. unfold optimizeStep5.
    destruct (traverse g internalizeVisitor tt (Ok (g, []))) as [s|msg] eqn:E;
      simpl; [|discriminate].
    intros [= <-].
    apply internalize_traverse_frame in E.
    destruct E as [_ [_ [Hgroups _]]].
    apply withinCapacity_spec. rewrite withinCapacity_spec in Hcap.
    apply (fold_left_invariant
             (fun g' => forall G, In G (map fst (bundleGroups g')) ->
                                  List.length (getBundlesInBundleGroup g' G)
                                  <= OPTIONS.maxParallelRequests)).
    + intros g1 grp _ Hg1 G. unfold removeOrphanGroup.
      destruct (List.length (getParentBundlesOfBundleGroup g1 grp) =? 0);
        [|apply Hg1].
      intros HG. apply removeBundleGroup_members in HG.
      destruct HG as [HG ->]. now apply Hg1.
    + intros G HG. unfold getBundlesInBundleGroup in *.
      rewrite Hgroups in *. now apply Hcap.
Qed.

Lemma capacity_kept_by_steps_3_4_5_witness :
  withinCapacity Examples.targetsGraph = true
  /\ withinCapacity (optimizeStep3 Examples.targetsGraph) = true
  /\ (exists g', optimizeStep4 Examples.md5 Examples.targetsGraph = Ok g'
                 /\ withinCapacity g' = true)
  /\ (forall g', optimizeStep5 Examples.targetsGraph = Ok g' ->
                 withinCapacity g' = true).
Proof.
  split; [reflexivity|].
  apply (capacity_kept_by_steps_3_4_5 Examples.md5 Examples.targetsGraph).
  reflexivity.
Defined.

(** C2, as stated, fails: every group of the bundle graph of
    [pageAssets] holds at most four bundles, and after step 2, and in the
    output of [optimize], one group holds six. *)
Lemma optimize_exceeds_capacity :
  withinCapacity Examples.pageGraph = true
  /\ withinCapacity (optimizeStep2 Examples.pageGraph) = false
  /\ match optimize Examples.md5 Examples.pageGraph with
     | Ok g' =>
         withinCapacity g' = false
         /\ List.length (getBundlesInBundleGroup g' Examples.pageGroup) = 6
     | Err _ => False
     end.
Proof. vm_compute. repeat split. Qed.

(** ** Step 4: the shared bundle *)

(** Step 4 always completes, and every bundle of its output is a bundle
    of its input or the shared bundle of a candidate of
    [sortedCandidates]. *)
Lemma optimizeStep4_bundles (md5FromString : string -> string)
  (g : BundleGraph) :
  exists g',
    optimizeStep4 md5FromString g = Ok g'
    /\ forall b, In b (bundles g') ->
         In b (bundles g)
         \/ exists c firstBundle,
              In c (sortedCandidates g)
              /\ hd_error (Candidate.sourceBundles c) = Some firstBundle
              /\ b = sharedBundle md5FromString c firstBundle.
Proof.
  destruct (optimizeStep4_total md5FromString g) as [g' Hg'].
  exists g'. split; [exact Hg'|].
  unfold optimizeStep4 in Hg'.
  apply (optimizeStep4_invariant md5FromString
           (fun g1 =>
              forall b, In b (bundles g1) ->
                In b (bundles g)
                \/ exists c firstBundle,
                     In c (sortedCandidates g)
                     /\ hd_error (Candidate.sourceBundles c) = Some firstBundle
                     /\ b = sharedBundle md5FromString c firstBundle)
           (sortedCandidates g)) with (g := g); [| |exact Hg'].
  - intros g1 c g2 Hc Hg1 E.
    destruct (extractSharedBundle_cases md5FromString g1 c)
      as [[_ E']|[[_ [_ [msg E']]]|[_ [fb [rest [g3 [Hsrc [Hcreate E']]]]]]]];
      rewrite E' in E; [| discriminate |].
    + injection E as <-. exact Hg1.
    + injection E as <-.
      apply createBundle_spec in Hcreate.
      destruct Hcreate as [_ [_ [_ [_ [Hbundles _]]]]].
      assert (Hsame :
        bundles (fillSharedBundle c
                   (candidateGroups g1 (Candidate.sourceBundles c))
                   (sharedBundle md5FromString c fb) g3) = bundles g3).
      { now apply (fillSharedBundle_invariant
                     (fun g4 => bundles g4 = bundles g3)). }
      intros b Hb. rewrite Hsame, Hbundles in Hb.
      assert (Hor : b = sharedBundle md5FromString c fb \/ In b (bundles g1)).
      { destruct (memBundle (sharedBundle md5FromString c fb) (bundles g1)).
        - now apply In_replaceBundle.
        - apply in_app_or in Hb. destruct Hb as [Hb|[<-|[]]]; auto. }
      destruct Hor as [->|Hb']; [|now apply Hg1].
      right. exists c, fb. split; [exact Hc|].
      split; [now rewrite Hsrc|reflexivity].
  - intros b Hb. now left.
Qed.

(** C3, as the code has it.  Step 4 always completes, and every bundle
    of its output is a bundle of its input or the shared bundle of a
    candidate of [sortedCandidates].  The unique key of that bundle, which
    is its id, is the hash of the ids of the source bundles joined with
    [:] in the order of the [sourceBundles] set (the order in which the
    bundles were found, not sorted); its type, environment and target are
    those of the first source bundle, taken without any check that the
    other source bundles agree; it is splittable. *)
Theorem shared_bundle_identity (md5FromString : string -> string)
  (g : BundleGraph) :
  exists g',
    optimizeStep4 md5FromString g = Ok g'
    /\ forall b, In b (bundles g') ->
         In b (bundles g)
         \/ exists c firstBundle,
              In c (sortedCandidates g)
              /\ hd_error (Candidate.sourceBundles c) = Some firstBundle
              /\ CreateBundleOpts.uniqueKey
                   (sharedBundleOpts md5FromString (Candidate.sourceBundles c)
                                     firstBundle)
                 = Some (md5FromString
                           (String.concat ":"%string
                              (map Bundle.id (Candidate.sourceBundles c))))
              /\ newBundle
                   (sharedBundleOpts md5FromString (Candidate.sourceBundles c)
                                     firstBundle)
                 = Ok b
              /\ Bundle.id b
                 = md5FromString
                     (String.concat ":"%string
                        (map Bundle.id (Candidate.sourceBundles c)))
              /\ Bundle.type b = Bundle.type firstBundle
              /\ Bundle.env b = Bundle.env firstBundle
              /\ Bundle.target b = Bundle.target firstBundle
              /\ Bundle.isSplittable b = true.
Proof.
  destruct (optimizeStep4_bundles md5FromString g) as [g' [Hg' Hb]].
  exists g'. split; [exact Hg'|].
  intros b Hin. destruct (Hb b Hin) as [H|[c [fb [Hc [Hfb ->]]]]];
    [now left|].
  right. exists c, fb. repeat split; assumption.
Qed.

(** C6.  Every bundle of the output of step 4 that is not a bundle of
    its input is the shared bundle of a candidate of [sortedCandidates],
    and every such candidate has an accumulated size, the sum of
    [getTotalSize] over its assets, of at least [minBundleSize], and more
    than [minBundles] source bundles; each source bundle is a bundle of the
    graph that is not an entry bundle, is splittable, and holds one of the
    bucketed assets without having it as its main entry. *)
Theorem shared_bundle_lower_bound (md5FromString : string -> string)
  (g : BundleGraph) :
  uniqueBundleIds g = true ->
  exists g',
    optimizeStep4 md5FromString g = Ok g'
    /\ forall b, In b (bundles g') ->
         In b (bundles g)
         \/ exists c firstBundle,
              In c (sortedCandidates g)
              /\ b = sharedBundle md5FromString c firstBundle
              /\ (OPTIONS.minBundleSize <= Candidate.size c)%Z
              /\ Candidate.size c = totalSize g (Candidate.assets c)
              /\ OPTIONS.minBundles < List.length (Candidate.sourceBundles c)
              /\ forall s, In s (Candidate.sourceBundles c) ->
                   In s (bundles g)
                   /\ Bundle.isEntry s = false
                   /\ Bundle.isSplittable s = true
                   /\ exists a, In a (Candidate.assets c)
                                /\ hasAsset g s a = true
                                /\ match Bundle.getMainEntry s with
                                   | None => True
                                   | Some m => Asset.id m <> Asset.id a
                                   end.
Proof.
  intros Hids.
  destruct (optimizeStep4_bundles md5FromString g) as [g' [Hg' Hb]].
  exists g'. split; [exact Hg'|].
  intros b Hin. destruct (Hb b Hin) as [H|[c [fb [Hc [Hfb ->]]]]];
    [now left|].
  right. exists c, fb. split; [exact Hc|]. split; [reflexivity|].
  now apply candidate_lower_bound.
Qed.

Lemma shared_bundle_lower_bound_witness :
  uniqueBundleIds Examples.targetsGraph = true
  /\ exists g',
       optimizeStep4 Examples.md5 Examples.targetsGraph = Ok g'
       /\ forall b, In b (bundles g') ->
            In b (bundles Examples.targetsGraph)
            \/ exists c firstBundle,
                 In c (sortedCandidates Examples.targetsGraph)
                 /\ b = sharedBundle Examples.md5 c firstBundle
                 /\ (OPTIONS.minBundleSize <= Candidate.size c)%Z
                 /\ Candidate.size c
                    = totalSize Examples.targetsGraph (Candidate.assets c)
                 /\ OPTIONS.minBundles
                    < List.length (Candidate.sourceBundles c)
                 /\ forall s, In s (Candidate.sourceBundles c) ->
                      In s (bundles Examples.targetsGraph)
                      /\ Bundle.isEntry s = false
                      /\ Bundle.isSplittable s = true
                      /\ exists a, In a (Candidate.assets c)
                                   /\ hasAsset Examples.targetsGraph s a = true
                                   /\ match Bundle.getMainEntry s with
                                      | None => True
                                      | Some m => Asset.id m <> Asset.id a
                                      end.
Proof.
  split; [reflexivity|].
  apply (shared_bundle_lower_bound Examples.md5 Examples.targetsGraph).
  reflexivity.
Defined.

(** C3, as stated, fails on the bundle graph of [targetsAssets].  The
    source bundles [z.js] and [a.js] have different targets; step 4
    completes all the same and the shared bundle takes the target of
    [z.js].  Its unique key hashes [z.js:a.js], the ids as found, where the
    sorted ids would give [a.js:z.js]. *)
Lemma shared_bundle_key_unsorted_unchecked :
  bundle (Examples.emptyGraph Examples.targetsAssets) = Ok Examples.targetsGraph
  /\ sortedCandidates Examples.targetsGraph = [Examples.sharedCandidate]
  /\ Bundle.target Examples.zBundle = Examples.legacy
  /\ Bundle.target Examples.aBundle = Examples.modern
  /\ match optimizeStep4 Examples.md5 Examples.targetsGraph with
     | Ok g' =>
         In (sharedBundle Examples.md5 Examples.sharedCandidate Examples.zBundle)
            (bundles g')
     | Err _ => False
     end
  /\ Bundle.target
       (sharedBundle Examples.md5 Examples.sharedCandidate Examples.zBundle)
     = Examples.legacy
  /\ String.concat ":"%string
       (map Bundle.id (Candidate.sourceBundles Examples.sharedCandidate))
     = "z.js:a.js"%string
  /\ String.concat ":"%string
       (sortStrings
          (map Bundle.id (Candidate.sourceBundles Examples.sharedCandidate)))
     = "a.js:z.js"%string
  /\ Bundle.id
       (sharedBundle Examples.md5 Examples.sharedCandidate Examples.zBundle)
     = Examples.md5 "z.js:a.js"%string.
Proof.
  vm_compute. repeat split. do 4 right. left. reflexivity.
Qed.

(** ** The two sorts of step 4 *)

Lemma insertString_HdRel (x y : string) (l : list string) :
  HdRel stringLe y l -> stringLe y x -> HdRel stringLe y (insertString x l).
Proof.
  intros Hl Hyx. destruct l as [|z l]; simpl.
  - now constructor.
  - destruct (String.leb x z); constructor; [exact Hyx|].
    now inversion Hl.
Qed.

Lemma insertString_Sorted (x : string) (l : list string) :
  Sorted stringLe l -> Sorted stringLe (insertString x l).
Proof.
  induction l as [|y l IH]; simpl; intros Hl.
  - repeat constructor.
  - destruct (String.leb x y) eqn:E.
    + constructor; [exact Hl|]. now constructor.
    + inversion Hl as [|? ? Hs Hh]; subst. constructor; [now apply IH|].
      apply insertString_HdRel; [exact Hh|].
      destruct (String.leb_total x y) as [H|H]; [congruence|exact H].
Qed.

Lemma insertString_Permutation (x : string) (l : list string) :
  Permutation (x :: l) (insertString x l).
Proof.
  induction l as [|y l IH]; simpl; [reflexivity|].
  destruct (String.leb x y); [reflexivity|].
  rewrite perm_swap. now constructor.
Qed.

Lemma sortStrings_sorts (l : list string) :
  Sorted stringLe (sortStrings l) /\ Permutation l (sortStrings l).
Proof.
  induction l as [|x l [IHs IHp]]; simpl.
  - split; constructor.
  - split; [now apply insertString_Sorted|].
    rewrite <- insertString_Permutation. now constructor.
Qed.

Lemma insertCandidate_HdRel (x y : Candidate.t) (l : list Candidate.t) :
  HdRel sizeGe y l -> sizeGe y x -> HdRel sizeGe y (insertCandidate x l).
Proof.
  intros Hl Hyx. destruct l as [|z l]; simpl.
  - now constructor.
  - destruct (compareCandidates x z <=? 0)%Z; constructor;
      [exact Hyx|]. now inversion Hl.
Qed.

Lemma insertCandidate_Sorted (x : Candidate.t) (l : list Candidate.t) :
  Sorted sizeGe l -> Sorted sizeGe (insertCandidate x l).
Proof.
  induction l as [|y l IH]; simpl; intros Hl.
  - repeat constructor.
  - destruct (compareCandidates x y <=? 0)%Z eqn:E.
    + constructor; [exact Hl|]. constructor.
      apply Z.leb_le in E. unfold compareCandidates in E. unfold sizeGe. lia.
    + inversion Hl as [|? ? Hs Hh]; subst. constructor; [now apply IH|].
      apply insertCandidate_HdRel; [exact Hh|].
      apply Z.leb_gt in E. unfold compareCandidates in E. unfold sizeGe. lia.
Qed.

Lemma sortCandidates_Sorted (l : list Candidate.t) :
  Sorted sizeGe (sortCandidates l).
Proof.
  induction l as [|x l IH]; simpl; [constructor|].
  now apply insertCandidate_Sorted.
Qed.

Lemma insertCandidate_Permutation (x : Candidate.t) (l : list Candidate.t) :
  Permutation (x :: l) (insertCandidate x l).
Proof.
  induction l as [|y l IH]; simpl; [reflexivity|].
  destruct (compareCandidates x y <=? 0)%Z; [reflexivity|].
  rewrite perm_swap. now constructor.
Qed.

Lemma sortCandidates_Permutation (l : list Candidate.t) :
  Permutation l (sortCandidates l).
Proof.
  induction l as [|x l IH]; simpl; [constructor|].
  rewrite <- insertCandidate_Permutation. now constructor.
Qed.

(** C4, as the code has it.  The key of a candidate bucket is, for each
    asset in it, the ids of the bundles that count for the asset, sorted
    in ascending order and joined with [:].  The candidates that are
    processed are those of at least [minBundleSize], each once, by
    decreasing size.  What the comparator of the sort answers depends on
    the sizes of the two candidates only, and is 0 when they are equal:
    keys are never compared. *)
Theorem candidates_keyed_and_ordered (g : BundleGraph) :
  (forall k c a,
      In (k, c) (candidateBundles g) -> In a (Candidate.assets c) ->
      k = String.concat ":"%string
            (sortStrings (map Bundle.id (containingBundles g a))))
  /\ (forall ids, Sorted stringLe (sortStrings ids)
                  /\ Permutation ids (sortStrings ids))
  /\ Permutation
       (filter (fun c => (OPTIONS.minBundleSize <=? Candidate.size c)%Z)
               (map snd (candidateBundles g)))
       (sortedCandidates g)
  /\ Sorted sizeGe (sortedCandidates g)
  /\ (forall a b a' b',
        Candidate.size a = Candidate.size a' ->
        Candidate.size b = Candidate.size b' ->
        compareCandidates a b = compareCandidates a' b')
  /\ (forall a b,
        Candidate.size a = Candidate.size b -> compareCandidates a b = 0%Z).
Proof.
  split; [|split; [|split; [|split; [|split]]]].
  - intros k c a Hc Ha.
    destruct (candidateBundles_collected g _ Hc) as [_ [Hassets _]].
    now destruct (Hassets a Ha) as [_ Hk].
  - apply sortStrings_sorts.
  - apply sortCandidates_Permutation.
  - apply sortCandidates_Sorted.
  - intros a b a' b' Ha Hb. unfold compareCandidates. now rewrite Ha, Hb.
  - intros a b Hab. unfold compareCandidates. lia.
Qed.

(** C4, as stated, fails.  [tiesGraph] and [orderedTiesGraph] each give
    three candidates of size 30000, whose buckets were created in the
    orders [c.js:d.js], [e.js:f.js], [a.js:b.js] and [a.js:b.js],
    [c.js:d.js], [e.js:f.js]; the comparator answers 0 for every pair.
    Left in the order they have, the candidates of [tiesGraph] are
    processed in an order that no comparison of keys gives.  And
    whichever way a sort arranges three elements that all compare equal,
    arranging the positions of both arrays that way leaves the keys of
    one of them out of key order. *)
Lemma ties_not_broken_by_key :
  let first := candidateBundles Examples.tiesGraph in
  let second := candidateBundles Examples.orderedTiesGraph in
  map fst first = ["c.js:d.js"; "e.js:f.js"; "a.js:b.js"]%string
  /\ map fst second = ["a.js:b.js"; "c.js:d.js"; "e.js:f.js"]%string
  /\ map (fun e => Candidate.size (snd e)) first = [30000; 30000; 30000]%Z
  /\ map (fun e => Candidate.size (snd e)) second = [30000; 30000; 30000]%Z
  /\ forallb (fun a => forallb (fun b => (compareCandidates a b =? 0)%Z)
                               (map snd first))
             (map snd first) = true
  /\ map candidateKey (sortedCandidates Examples.tiesGraph)
     = ["c.js:d.js"; "e.js:f.js"; "a.js:b.js"]%string
  /\ keyOrdered ["c.js:d.js"; "e.js:f.js"; "a.js:b.js"]%string = false
  /\ forall p,
       Permutation p [0; 1; 2] ->
       keyOrdered (rearranged p (map fst first))
       && keyOrdered (rearranged p (map fst second)) = false.
Proof.
  cbv zeta.
  assert (Hfirst :
    map fst (candidateBundles Examples.tiesGraph)
    = ["c.js:d.js"; "e.js:f.js"; "a.js:b.js"]%string)
    by (vm_compute; reflexivity).
  assert (Hsecond :
    map fst (candidateBundles Examples.orderedTiesGraph)
    = ["a.js:b.js"; "c.js:d.js"; "e.js:f.js"]%string)
    by (vm_compute; reflexivity).
  rewrite Hfirst, Hsecond.
  repeat (split; [vm_compute; reflexivity|]).
  intros p Hp.
  pose proof (Permutation_length Hp) as Hlen.
  assert (Hnd : NoDup p).
  { apply (Permutation_NoDup (Permutation_sym Hp)).
    repeat constructor; simpl; intuition discriminate. }
  assert (Hin : forall x, In x p -> In x [0; 1; 2]).
  { intros x. apply (Permutation_in x Hp). }
  destruct p as [|i [|j [|k [|l p]]]]; try discriminate.
  pose proof (Hin i (or_introl eq_refl)) as Hi.
  pose proof (Hin j (or_intror (or_introl eq_refl))) as Hj.
  pose proof (Hin k (or_intror (or_intror (or_introl eq_refl)))) as Hk.
  clear Hin Hp Hlen. simpl in Hi, Hj, Hk.
  inversion Hnd as [|? ? N1 Hnd1]; subst.
  inversion Hnd1 as [|? ? N2 _]; subst. simpl in N1, N2.
  destruct Hi as [<-|[<-|[<-|[]]]]; destruct Hj as [<-|[<-|[<-|[]]]];
    destruct Hk as [<-|[<-|[<-|[]]]];
    try (vm_compute; reflexivity); exfalso; tauto.
Qed.

(** ** Step 4: what skipping the children does *)

Section WalkReached.
Variables (St Ctx : Type).
Variable next : Node -> list Node.
Variable enter : Node -> Ctx -> St -> St * Ctx * bool.
Variable Q : Node -> Prop.
Variable P : St -> Prop.
Hypothesis enter_keeps :
  forall n c s, Q n -> P s -> P (fst (fst (enter n c s))).
Hypothesis descent :
  forall n c s child,
    Q n -> snd (enter n c s) = false -> In child (next n) -> Q child.

(** [enter] only runs on nodes of [Q] when the walk starts from one and
    [Q] holds of the children of the nodes at which [enter] does not
    skip. *)
Lemma walk_reached (fuel : nat) :
  forall ctx acc node,
    Q node -> P (snd acc) -> P (snd (walk next enter fuel ctx acc node)).
Proof.
  induction fuel as [|fuel IH]; intros ctx acc node Hq Hacc; simpl.
  - exact Hacc.
  - destruct (existsb (nodeEqb node) (fst acc)); [exact Hacc|].
    pose proof (@enter_keeps node ctx (snd acc) Hq Hacc) as Hkeep.
    pose proof (@descent node ctx (snd acc)) as Hdesc.
    destruct (enter node ctx (snd acc)) as [[st' ctx'] skip].
    simpl in Hkeep, Hdesc.
    destruct skip; [exact Hkeep|].
    apply (fold_left_invariant (fun a => P (snd a))); [|exact Hkeep].
    intros a child Hchild Ha. apply IH; [|exact Ha].
    now apply Hdesc.
Qed.

Lemma walkAll_reached (fuel : nat) (ctx : Ctx) (roots : list Node) (st : St) :
  (forall r, In r roots -> Q r) -> P st ->
  P (snd (walkAll next enter fuel ctx roots st)).
Proof.
  intros Hroots Hst. unfold walkAll.
  apply (fold_left_invariant (fun a => P (snd a))); [|exact Hst].
  intros a r Hr Ha. apply walk_reached; [now apply Hroots|exact Ha].
Qed.
End WalkReached.

Lemma collectVisitor_skips (g : BundleGraph) (n : Node) (ctx : unit)
  (cands : list (string * Candidate.t)) :
  snd (collectVisitor g n ctx cands) = skipsChildren g n.
Proof.
  destruct n as [asset|d]; simpl; [|reflexivity].
  unfold isSharedCandidate.
  now destruct (OPTIONS.minBundles <? List.length (containingBundles g asset)).
Qed.

Lemma candidateBundles_reached (g : BundleGraph) (e : string * Candidate.t)
  (a : Asset.t) :
  In e (candidateBundles g) -> In a (Candidate.assets (snd e)) ->
  reachedFreely g (AssetNode a).
Proof.
  revert e a. unfold candidateBundles, traverse.
  apply (walkAll_reached (children g) (collectVisitor g) (reachedFreely g)
           (fun cands => forall e a, In e cands ->
                                     In a (Candidate.assets (snd e)) ->
                                     reachedFreely g (AssetNode a))).
  - intros n c s Hn Hs. destruct n as [asset|d]; simpl; [|exact Hs].
    destruct (OPTIONS.minBundles <? List.length (containingBundles g asset));
      simpl; [|exact Hs].
    destruct (assoc (candidateId (containingBundles g asset)) s)
      as [candidate|] eqn:Hget; intros e a He Ha;
      apply mapSet_In in He; destruct He as [->|He];
      try (now apply (Hs e a)); simpl in Ha.
    + apply in_app_or in Ha. destruct Ha as [Ha|[<-|[]]]; [|exact Hn].
      apply assoc_In in Hget. now apply (Hs _ a Hget).
    + destruct Ha as [<-|[]]. exact Hn.
  - intros n c s child Hn Hskip Hchild.
    rewrite collectVisitor_skips in Hskip.
    now apply reached_child with (n := n).
  - intros r Hr. apply in_map_iff in Hr. destruct Hr as [d [<- Hd]].
    now constructor.
  - intros e a [].
Qed.

(** C10, as the code has it.  The visitor of step 4 calls [skipChildren]
    at an asset exactly when the asset is in more than [minBundles] of
    the bundles that count, whatever the size of its candidate, which is
    filtered later: the traversal does not go down from such an asset.
    An asset is bucketed only if the traversal enters it: it is resolved
    by a dependency of the root, or by a dependency of an asset that the
    traversal enters and that is not itself bucketed.  So a descendant of
    a bucketed asset is bucketed only when another path leads to it. *)
Theorem skipped_children_reached_otherwise (g : BundleGraph) :
  (forall asset ctx cands,
      snd (collectVisitor g (AssetNode asset) ctx cands)
      = (OPTIONS.minBundles <? List.length (containingBundles g asset)))
  /\ forall k c a,
       In (k, c) (candidateBundles g) -> In a (Candidate.assets c) ->
       (OPTIONS.minBundles <? List.length (containingBundles g a)) = true
       /\ reachedFreely g (AssetNode a)
       /\ exists d,
            In a (getDependencyAssets g d)
            /\ (In d (entryDependencies (assetGraph g))
                \/ exists p,
                     In d (getDependencies g p)
                     /\ (OPTIONS.minBundles
                         <? List.length (containingBundles g p)) = false
                     /\ reachedFreely g (AssetNode p)).
Proof.
  split.
  - intros asset ctx cands. simpl.
    now destruct (OPTIONS.minBundles <? List.length (containingBundles g asset)).
  - intros k c a Hc Ha.
    pose proof (candidateBundles_reached g (k, c) a Hc Ha) as Hreach.
    destruct (candidateBundles_collected g _ Hc) as [_ [Hassets _]].
    destruct (Hassets a Ha) as [Hcount _].
    split; [exact Hcount|]. split; [exact Hreach|].
    inversion Hreach as [|n child Hn Hskip Hchild]; subst.
    destruct n as [p|d]; simpl in Hchild.
    + apply in_map_iff in Hchild. destruct Hchild as [d [Hd _]]. discriminate.
    + apply in_map_iff in Hchild. destruct Hchild as [a' [[= ->] Ha']].
      exists d. split; [exact Ha'|].
      inversion Hn as [d' Hroot|n' child' Hn' Hskip' Hchild']; subst.
      * now left.
      * right. destruct n' as [p|d']; simpl in Hchild'.
        -- apply in_map_iff in Hchild'. destruct Hchild' as [d' [[= ->] Hd']].
           exists p. repeat split; assumption.
        -- apply in_map_iff in Hchild'. destruct Hchild' as [x [Hx _]].
           discriminate.
Qed.

(** C10, as stated, fails on [dagGraph], which steps 2 and 3 leave as
    it is.  [parent.js] is in the two bundles [p.js] and [q.js], so it is
    bucketed and the traversal does not go down from it; [child.js], which
    [parent.js] depends on, is bucketed all the same, under a key of its
    own, because [r.js] leads to it. *)
Lemma descendant_bucketed_by_other_path :
  let g := Examples.dagGraph in
  optimizeStep3 (optimizeStep2 g) = g
  /\ isSharedCandidate g (Examples.js "parent.js" 100) = true
  /\ getDependencies g (Examples.js "parent.js" 100)
     = [Examples.sync "parent>child"]
  /\ getDependencyAssets g (Examples.sync "parent>child")
     = [Examples.js "child.js" 50000]
  /\ map (fun e => (fst e, map Asset.id (Candidate.assets (snd e))))
         (candidateBundles g)
     = [("p.js:q.js", ["parent.js"]); ("p.js:q.js:r.js", ["child.js"])]%string
  /\ map (fun c => map Asset.id (Candidate.assets c)) (sortedCandidates g)
     = [["parent.js"]; ["child.js"]]%string.
Proof. vm_compute. repeat split. Qed.

(** ** Step 5 *)

Lemma available_frame (g g' : BundleGraph) (b : Bundle.t) (a : Asset.t) :
  bundles g' = bundles g -> bundleGroups g' = bundleGroups g ->
  containment g' = containment g ->
  bundleReferences g' = bundleReferences g ->
  alreadyAvailable g' b a = alreadyAvailable g b a.
Proof.
  destruct g, g'. simpl. intros -> -> -> ->. reflexivity.
Qed.

Lemma isInternalized_added (g : BundleGraph) (b b' : Bundle.t)
  (d d' : Dependency.t) :
  isInternalized (internalizeAsyncDependency g b d) b' d'
  = isInternalized g b' d' || (Bundle.eqb b b' && Dependency.eqb d d').
Proof.
  unfold internalizeAsyncDependency.
  destruct (isInternalized g b d) eqn:E.
  - destruct (Bundle.eqb b b' && Dependency.eqb d d') eqn:Heq;
      [|now rewrite orb_false_r].
    apply andb_true_iff in Heq. destruct Heq as [Hb Hd].
    apply Bundle_eqb_id in Hb. apply String.eqb_eq in Hd.
    unfold isInternalized in *. rewrite <- Hb, <- Hd, E. reflexivity.
  - unfold isInternalized. simpl. rewrite existsb_app. simpl.
    rewrite orb_false_r. reflexivity.
Qed.

Lemma internalize_loop (g : BundleGraph) (resolution : Asset.t)
  (d : Dependency.t) (bs : list Bundle.t) :
  forall g1,
    bundles g1 = bundles g -> bundleGroups g1 = bundleGroups g ->
    containment g1 = containment g ->
    bundleReferences g1 = bundleReferences g ->
    forall b',
      isInternalized (fold_left (internalizeIn resolution d) bs g1) b' d
      = isInternalized g1 b' d
        || existsb (fun b => Bundle.eqb b b' && alreadyAvailable g b resolution)
                   bs.
Proof.
  induction bs as [|b bs IH]; intros g1 H1 H2 H3 H4 b'; simpl.
  - now rewrite orb_false_r.
  - destruct (internalizeIn_frame resolution d g1 b)
      as [_ [K1 [K2 [K3 [K4 _]]]]].
    rewrite IH by congruence.
    rewrite orb_assoc. f_equal.
    unfold internalizeIn.
    fold (alreadyAvailable g1 b resolution).
    rewrite (available_frame g g1 b resolution H1 H2 H3 H4).
    destruct (alreadyAvailable g b resolution).
    + rewrite isInternalized_added.
      unfold Dependency.eqb. rewrite String.eqb_refl.
      now rewrite !andb_true_r.
    + now rewrite andb_false_r, orb_false_r.
Qed.

Lemma distinct_ids_same (l : list Bundle.t) (x y : Bundle.t) :
  NoDup (map Bundle.id l) -> In x l -> In y l ->
  Bundle.id x = Bundle.id y -> x = y.
Proof.
  induction l as [|z l IH]; simpl; intros Hnd Hx Hy Hid; [destruct Hx|].
  inversion Hnd as [|? ? Hz Hl]; subst.
  destruct Hx as [->|Hx], Hy as [->|Hy]; auto.
  - exfalso. apply Hz. rewrite Hid. now apply in_map.
  - exfalso. apply Hz. rewrite <- Hid. now apply in_map.
Qed.

Lemma parents_after_removal (g : BundleGraph) (removed grp : BundleGroup.t)
  (b : Bundle.t) :
  In b (getParentBundlesOfBundleGroup (removeBundleGroup g removed) grp) ->
  In b (getParentBundlesOfBundleGroup g grp).
Proof.
  unfold getParentBundlesOfBundleGroup, findBundlesWithDependency.
  intros H. apply filter_In in H. destruct H as [H Hint].
  apply filter_In in H. destruct H as [Hb Hdep].
  apply filter_In. split; [|exact Hint].
  apply filter_In. split.
  - unfold removeBundleGroup in Hb. simpl in Hb.
    apply filter_In in Hb. tauto.
  - unfold hasDependency, bundleAssets in *.
    apply existsb_exists in Hdep. destruct Hdep as [a [Ha Hd]].
    apply existsb_exists. exists a. split; [|exact Hd].
    apply in_map_iff in Ha. destruct Ha as [p [<- Hp]].
    apply in_map. apply filter_In in Hp. destruct Hp as [Hp Hid].
    apply filter_In. split; [|exact Hid].
    unfold removeBundleGroup in Hp. simpl in Hp.
    apply filter_In in Hp. tauto.
Qed.

Lemma hasGroup_after_removal (g : BundleGraph) (grp : BundleGroup.t) :
  hasGroup (bundleGroups (removeBundleGroup g grp)) grp = false.
Proof.
  unfold hasGroup, removeBundleGroup. simpl.
  apply not_true_is_false. intros H.
  apply existsb_exists in H. destruct H as [e [He Heq]].
  apply filter_In in He. destruct He as [_ He]. rewrite Heq in He.
  discriminate.
Qed.

Lemma hasGroup_removal_keeps (g : BundleGraph) (removed grp : BundleGroup.t) :
  hasGroup (bundleGroups g) grp = false ->
  hasGroup (bundleGroups (removeOrphanGroup g removed)) grp = false.
Proof.
  unfold removeOrphanGroup. intros H.
  destruct (List.length (getParentBundlesOfBundleGroup g removed) =? 0);
    [|exact H].
  unfold hasGroup, removeBundleGroup in *. simpl.
  apply not_true_is_false. intros K.
  apply existsb_exists in K. destruct K as [e [He Heq]].
  apply filter_In in He. destruct He as [He _].
  assert (existsb (fun e => BundleGroup.eqb (fst e) grp) (bundleGroups g)
          = true); [|congruence].
  apply existsb_exists. now exists e.
Qed.

(** A recorded group without parent bundles is gone after the last loop
    of step 5. *)
Lemma orphan_groups_removed (recorded : list BundleGroup.t) (g : BundleGraph)
  (grp : BundleGroup.t) :
  In grp recorded ->
  List.length (getParentBundlesOfBundleGroup g grp) = 0 ->
  hasGroup (bundleGroups (fold_left removeOrphanGroup recorded g)) grp = false.
Proof.
  revert g. induction recorded as [|x recorded IH]; intros g Hin Hzero;
    [destruct Hin|].
  assert (Hkeep : forall g1 y,
             List.length (getParentBundlesOfBundleGroup g1 grp) = 0 ->
             List.length
               (getParentBundlesOfBundleGroup (removeOrphanGroup g1 y) grp) = 0).
  { intros g1 y H. unfold removeOrphanGroup.
    destruct (List.length (getParentBundlesOfBundleGroup g1 y) =? 0);
      [|exact H].
    destruct (getParentBundlesOfBundleGroup (removeBundleGroup g1 y) grp)
      as [|b rest] eqn:E; [reflexivity|].
    assert (Hb : In b (getParentBundlesOfBundleGroup g1 grp)).
    { apply parents_after_removal with (removed := y). rewrite E. now left. }
    destruct (getParentBundlesOfBundleGroup g1 grp); [destruct Hb|discriminate]. }
  simpl. destruct Hin as [->|Hin].
  - apply (fold_left_invariant
             (fun g1 => hasGroup (bundleGroups g1) grp = false)).
    + intros g1 y _. apply hasGroup_removal_keeps.
    + unfold removeOrphanGroup. rewrite Hzero. simpl.
      apply hasGroup_after_removal.
  - apply IH; [exact Hin|]. now apply Hkeep.
Qed.

(** X20.  When the traversal of step 5 enters an async dependency that
    is not an entry and has a resolution, and the dependency resolves
    externally to a bundle-group, the group is recorded and, for every
    bundle that contains the dependency, the dependency is internalized
    in the bundle afterwards exactly when it was before or the bundle
    has the resolution or the resolution is in an ancestor bundle;
    nothing else of the graph changes.  (When it does not resolve to a
    bundle-group the invariant throws.)  Every recorded bundle-group
    that has no parent bundle when the traversal is over is removed: it
    is not in the graph step 5 returns. *)
Theorem async_internalization (g : BundleGraph) (dependency : Dependency.t)
  (resolution : Asset.t) (recorded : list BundleGroup.t) :
  uniqueBundleIds g = true ->
  Dependency.isEntry dependency = false ->
  Dependency.isAsync dependency = true ->
  getDependencyResolution g dependency = Some resolution ->
  match resolveExternalDependency g dependency with
  | Some (ResolvedBundleGroup value) =>
      exists g',
        fst (fst (internalizeVisitor (DependencyNode dependency) tt
                    (Ok (g, recorded))))
        = Ok (g', setAddGroup recorded value)
        /\ bundles g' = bundles g
        /\ bundleGroups g' = bundleGroups g
        /\ containment g' = containment g
        /\ forall b,
             In b (findBundlesWithDependency g dependency) ->
             isInternalized g' b dependency
             = isInternalized g b dependency
               || (hasAsset g b resolution
                   || isAssetInAncestorBundles g b resolution)
  | _ =>
      exists msg,
        fst (fst (internalizeVisitor (DependencyNode dependency) tt
                    (Ok (g, recorded))))
        = Err msg
  end
  /\ forall g',
       optimizeStep5 g = Ok g' ->
       exists g1 asyncBundleGroups,
         traverse g internalizeVisitor tt (Ok (g, []))
         = Ok (g1, asyncBundleGroups)
         /\ forall bundleGroup,
              In bundleGroup asyncBundleGroups ->
              List.length (getParentBundlesOfBundleGroup g1 bundleGroup) = 0 ->
              hasGroup (bundleGroups g') bundleGroup = false.
Proof.
  intros Hids Hentry Hasync Hres. split.
  - simpl. rewrite Hentry, Hasync, Hres. simpl.
    destruct (resolveExternalDependency g dependency) as [[value|value]|];
      try (eexists; reflexivity).
    eexists. split; [reflexivity|].
    set (bs := findBundlesWithDependency g dependency).
    assert (Hframe :
      bundles (fold_left (internalizeIn resolution dependency) bs g) = bundles g
      /\ bundleGroups (fold_left (internalizeIn resolution dependency) bs g)
         = bundleGroups g
      /\ containment (fold_left (internalizeIn resolution dependency) bs g)
         = containment g).
    { apply (fold_left_invariant
               (fun g1 => bundles g1 = bundles g
                          /\ bundleGroups g1 = bundleGroups g
                          /\ containment g1 = containment g)); [|auto].
      intros g1 b _ [K1 [K2 K3]].
      destruct (internalizeIn_frame resolution dependency g1 b)
        as [_ [J1 [J2 [J3 _]]]].
      repeat split; congruence. }
    destruct Hframe as [F1 [F2 F3]]. repeat split; try assumption.
    intros b Hb.
    rewrite (internalize_loop g resolution dependency bs g) by reflexivity.
    f_equal. fold (alreadyAvailable g b resolution).
    destruct (alreadyAvailable g b resolution) eqn:Hav.
    + apply existsb_exists. exists b. split; [exact Hb|].
      now rewrite Bundle_eqb_refl, Hav.
    + apply not_true_is_false. intros H.
      apply existsb_exists in H. destruct H as [b2 [Hb2 H]].
      apply andb_true_iff in H. destruct H as [Heq Hav2].
      apply Bundle_eqb_id in Heq.
      assert (b2 = b).
      { apply distinct_ids_same with (l := bundles g);
          [now apply distinct_NoDup| | |exact Heq].
        - unfold bs, findBundlesWithDependency in Hb2.
          apply filter_In in Hb2. tauto.
        - unfold bs, findBundlesWithDependency in Hb.
          apply filter_In in Hb. tauto. }
      subst b2. congruence.
  - intros g'. unfold optimizeStep5.
    destruct (traverse g internalizeVisitor tt (Ok (g, [])))
      as [[g1 asyncBundleGroups]|msg]; simpl; [|discriminate].
    intros [= <-]. exists g1, asyncBundleGroups. split; [reflexivity|].
    intros bundleGroup Hin Hzero. now apply orphan_groups_removed.
Qed.

Lemma async_internalization_witness :
  match optimizeStep5 Examples.asyncGraph with
  | Ok g' =>
      isInternalized g' Examples.entryBundle
                     (Examples.async "a>import(b)") = true
      /\ hasGroup (bundleGroups g') Examples.asyncGroup = false
  | Err _ => False
  end
  /\ match resolveExternalDependency Examples.asyncGraph
             (Examples.async "a>import(b)") with
     | Some (ResolvedBundleGroup value) =>
         exists g',
           fst (fst (internalizeVisitor
                       (DependencyNode (Examples.async "a>import(b)")) tt
                       (Ok (Examples.asyncGraph, []))))
           = Ok (g', setAddGroup [] value)
           /\ bundles g' = bundles Examples.asyncGraph
           /\ bundleGroups g' = bundleGroups Examples.asyncGraph
           /\ containment g' = containment Examples.asyncGraph
           /\ forall b,
                In b (findBundlesWithDependency Examples.asyncGraph
                        (Examples.async "a>import(b)")) ->
                isInternalized g' b (Examples.async "a>import(b)")
                = isInternalized Examples.asyncGraph b
                                 (Examples.async "a>import(b)")
                  || (hasAsset Examples.asyncGraph b (Examples.js "b.js" 2000)
                      || isAssetInAncestorBundles Examples.asyncGraph b
                           (Examples.js "b.js" 2000))
     | _ =>
         exists msg,
           fst (fst (internalizeVisitor
                       (DependencyNode (Examples.async "a>import(b)")) tt
                       (Ok (Examples.asyncGraph, []))))
           = Err msg
     end.
Proof.
  split; [vm_compute; split; reflexivity|].
  apply (@async_internalization Examples.asyncGraph
           (Examples.async "a>import(b)") (Examples.js "b.js" 2000) []);
    reflexivity.
Defined.


(** ** A second run of the optimizer *)

Lemma settledStep2_fixed (g : BundleGraph) :
  settledStep2 g = true -> optimizeStep2 g = g.
Proof.
  unfold settledStep2, optimizeStep2, traverseBundles. intros H.
  rewrite forallb_forall in H.
  apply fold_left_fixed. intros b Hb. specialize (H b Hb).
  unfold reparentVisitor.
  destruct (Bundle.isInline b || negb (Bundle.isSplittable b));
    [reflexivity|]. simpl in H.
  destruct (Bundle.getMainEntry b) as [mainEntry|]; [|reflexivity].
  rewrite forallb_forall in H.
  apply fold_left_fixed. intros c Hc. specialize (H c Hc).
  apply negb_true_iff in H. unfold reparentCandidate. now rewrite H.
Qed.

Lemma settledStep3_fixed (g : BundleGraph) :
  settledStep3 g = true -> optimizeStep3 g = g.
Proof.
  unfold settledStep3, optimizeStep3, traverseBundlesExit. intros H.
  rewrite forallb_forall in H.
  apply fold_left_fixed. intros b Hb. apply in_rev in Hb.
  specialize (H b Hb). unfold deduplicateBundle.
  destruct (Environment.isIsolated (Bundle.env b)
            || negb (Bundle.isSplittable b)); [reflexivity|].
  simpl in H. rewrite forallb_forall in H.
  unfold bundleTraverse.
  apply fold_left_fixed. intros a Ha. specialize (H a Ha).
  destruct (hasAsset g b a); [|reflexivity].
  rewrite forallb_forall in H.
  apply fold_left_fixed. intros n Hn. destruct Hn as [<-|Hn]; [reflexivity|].
  apply in_map_iff in Hn. destruct Hn as [d [<- Hd]].
  specialize (H d Hd). rewrite forallb_forall in H. simpl.
  apply fold_left_fixed. intros x Hx. specialize (H x Hx).
  apply negb_true_iff in H. now rewrite H.
Qed.

Lemma settledStep4_fixed (md5FromString : string -> string) (g : BundleGraph) :
  settledStep4 g = true -> optimizeStep4 md5FromString g = Ok g.
Proof.
  unfold settledStep4, optimizeStep4. intros H.
  rewrite forallb_forall in H.
  apply fold_left_fixed. intros c Hc. specialize (H c Hc).
  destruct (extractSharedBundle_cases md5FromString g c)
    as [[_ E]|[[Hfull _]|[Hfull _]]]; [exact E| |]; congruence.
Qed.

Lemma assocList_In (V : Type) (k : string) (l : list (string * list V))
  (v : V) :
  In v (assocList k l) -> In v (flat_map snd l).
Proof.
  unfold assocList. destruct (assoc k l) as [vs|] eqn:E; [|intros []].
  intros Hv. apply assoc_In in E. apply in_flat_map.
  exists (k, vs). split; [exact E|exact Hv].
Qed.

Lemma settledStep5_fixed (g : BundleGraph) :
  settledStep5 g = true -> optimizeStep5 g = Ok g.
Proof.
  unfold settledStep5. intros H. rewrite forallb_forall in H.
  set (P := fun (r : Result (BundleGraph * list BundleGroup.t)) =>
              exists recorded,
                r = Ok (g, recorded)
                /\ forall grp, In grp recorded ->
                     (List.length (getParentBundlesOfBundleGroup g grp) =? 0)
                     = false).
  set (Q := fun n => match n with
                     | DependencyNode d => In d (allDependencies g)
                     | AssetNode _ => True
                     end).
  assert (HP : P (traverse g internalizeVisitor tt (Ok (g, [])))).
  { unfold traverse.
    apply (walkAll_reached (children g) internalizeVisitor Q P).
    - intros n c r Hn [recorded [-> Hrec]].
      destruct n as [a|d]; simpl; [now exists recorded|].
      specialize (H d Hn).
      destruct (Dependency.isEntry d || negb (Dependency.isAsync d));
        [now exists recorded|]. simpl in H.
      destruct (getDependencyResolution g d) as [resolution|];
        [|now exists recorded].
      destruct (resolveExternalDependency g d) as [[value|value]|];
        try discriminate.
      apply andb_true_iff in H. destruct H as [Hparents Hint].
      apply negb_true_iff in Hparents. rewrite forallb_forall in Hint.
      exists (setAddGroup recorded value). split.
      + f_equal. f_equal. apply fold_left_fixed. intros b Hb.
        specialize (Hint b Hb). unfold internalizeIn.
        fold (alreadyAvailable g b resolution).
        destruct (alreadyAvailable g b resolution); [|reflexivity].
        simpl in Hint. unfold internalizeAsyncDependency. now rewrite Hint.
      + intros grp Hgrp. unfold setAddGroup in Hgrp.
        destruct (memGroup value recorded); [now apply Hrec|].
        apply in_app_or in Hgrp. destruct Hgrp as [Hgrp|[<-|[]]];
          [now apply Hrec|exact Hparents].
    - intros n c r child Hn _ Hchild. destruct n as [a|d]; simpl in Hchild.
      + apply in_map_iff in Hchild. destruct Hchild as [d [<- Hd]]. simpl.
        unfold allDependencies. apply in_or_app. right.
        unfold getDependencies in Hd. now apply assocList_In in Hd.
      + apply in_map_iff in Hchild. destruct Hchild as [a [<- _]]. exact I.
    - intros r Hr. apply in_map_iff in Hr. destruct Hr as [d [<- Hd]]. simpl.
      unfold allDependencies. apply in_or_app. now left.
    - exists []. split; [reflexivity|]. intros grp []. }
  unfold optimizeStep5. destruct HP as [recorded [-> Hrec]]. simpl.
  f_equal. apply fold_left_fixed. intros grp Hgrp.
  unfold removeOrphanGroup. now rewrite (Hrec grp Hgrp).
Qed.

(** C9, as the code has it.  [optimize] returns the graph it is given
    when that graph is settled: step 2 declines every candidate, step 3
    finds no asset of a splittable, non-isolated bundle in an ancestor
    bundle, step 4 skips every candidate that meets the size threshold,
    and step 5 finds every async dependency resolved to a bundle-group
    with a parent bundle and already internalized wherever its resolution
    is available.  A second run on the output of [optimize] is a no-op
    when that output is settled, which it need not be. *)
Theorem optimize_settled (md5FromString : string -> string) (g : BundleGraph) :
  settled g = true -> optimize md5FromString g = Ok g.
Proof.
  unfold settled. intros H.
  apply andb_true_iff in H. destruct H as [H H5].
  apply andb_true_iff in H. destruct H as [H H4].
  apply andb_true_iff in H. destruct H as [H2 H3].
  unfold optimize.
  rewrite (settledStep2_fixed g H2), (settledStep3_fixed g H3).
  rewrite (settledStep4_fixed md5FromString g H4). simpl.
  now apply settledStep5_fixed.
Qed.

Lemma optimize_settled_witness :
  optimize Examples.md5 Examples.targetsGraph = Ok Examples.targetsOptimized
  /\ settled Examples.targetsOptimized = true
  /\ optimize Examples.md5 Examples.targetsOptimized
     = Ok Examples.targetsOptimized.
Proof.
  split; [reflexivity|]. split; [reflexivity|].
  apply (optimize_settled Examples.md5 Examples.targetsOptimized).
  reflexivity.
Defined.

(** C9, as stated, fails on the bundle graph of [inlineAssets].  The
    first run extracts [lib.js] from the two inline bundles into a shared
    bundle; step 2 does not consider inline bundles, but the shared bundle
    is not inline, so the second run takes [lib.js], the main entry of the
    bundle [lib.js], out of the shared bundle and adds that bundle to its
    groups. *)
Lemma second_run_changes_graph :
  bundle (Examples.emptyGraph Examples.inlineAssets) = Ok Examples.inlineGraph
  /\ optimize Examples.md5 Examples.inlineGraph = Ok Examples.inlineOptimized
  /\ optimize Examples.md5 Examples.inlineOptimized
     = Ok Examples.inlineReoptimized
  /\ hasAsset Examples.inlineOptimized Examples.inlineShared
              (Examples.js "lib.js" 30000) = true
  /\ hasAsset Examples.inlineReoptimized Examples.inlineShared
              (Examples.js "lib.js" 30000) = false
  /\ Examples.inlineReoptimized <> Examples.inlineOptimized.
Proof.
  do 5 (split; [vm_compute; reflexivity|]).
  intros H.
  assert (K : hasAsset Examples.inlineReoptimized Examples.inlineShared
                       (Examples.js "lib.js" 30000)
              = hasAsset Examples.inlineOptimized Examples.inlineShared
                         (Examples.js "lib.js" 30000)).
  { now rewrite H. }
  vm_compute in K. discriminate K.
Qed.

(** ** Step 1: the new bundle-group branch *)

Lemma memBundle_replaced (b x : Bundle.t) (l : list Bundle.t) :
  memBundle x (map (replaceBundle b) l) = memBundle x l.
Proof.
  unfold memBundle. induction l as [|y l IH]; simpl; [reflexivity|].
  rewrite IH. f_equal. unfold replaceBundle.
  destruct (Bundle.eqb y b) eqn:E; [|reflexivity].
  unfold Bundle.eqb in *. apply String.eqb_eq in E. now rewrite E.
Qed.

Lemma createBundle_members (g g1 : BundleGraph) (opts : CreateBundleOpts.t)
  (b : Bundle.t) :
  createBundle g opts = Ok (g1, b) ->
  memBundle b (bundles g1) = true
  /\ (forall x, memBundle x (bundles g) = true ->
                memBundle x (bundles g1) = true)
  /\ (forall x G, memBundle x (getBundlesInBundleGroup g1 G)
                  = memBundle x (getBundlesInBundleGroup g G))
  /\ forall G, hasGroup (bundleGroups g1) G = hasGroup (bundleGroups g) G.
Proof.
  unfold createBundle. destruct (newBundle opts) as [b'|msg]; simpl;
    [|discriminate].
  destruct (memBundle b' (bundles g)) eqn:E; intros [= <- <-]; simpl.
  - split; [now rewrite memBundle_replaced|].
    split; [intros x Hx; now rewrite memBundle_replaced|].
    split.
    + intros x G. unfold getBundlesInBundleGroup. simpl.
      rewrite groupMembers_map. apply memBundle_replaced.
    + intros G. unfold hasGroup.
      induction (bundleGroups g) as [|e l IH]; simpl; [reflexivity|].
      now rewrite IH.
  - split.
    { rewrite memBundle_app. simpl. rewrite Bundle_eqb_refl.
      now rewrite orb_true_r. }
    split; [|split; reflexivity].
    intros x Hx. rewrite memBundle_app, Hx. reflexivity.
Qed.

Lemma groupBundle_new (dependency : Dependency.t) (bundleGroup : BundleGroup.t)
  (asset : Asset.t) :
  newBundle (groupBundleOpts dependency bundleGroup asset)
  = Ok (groupBundle dependency (BundleGroup.target bundleGroup) asset).
Proof. reflexivity. Qed.

(** The loop over the resolved assets in the new bundle-group branch. *)
Lemma addGroupBundles_spec (dependency : Dependency.t)
  (bundleGroup : BundleGroup.t) (byType : nat) (assets : list Asset.t) :
  forall s0,
  exists s',
    fold_left (addGroupBundle dependency bundleGroup byType) assets (Ok s0)
    = Ok s'
    /\ map fst (bundleGroups (graph s')) = map fst (bundleGroups (graph s0))
    /\ (forall b, In b (bundles (graph s')) ->
          In b (bundles (graph s0))
          \/ exists asset,
               In asset assets
               /\ b = groupBundle dependency (BundleGroup.target bundleGroup)
                                  asset)
    /\ (forall x, memBundle x (bundles (graph s0)) = true ->
                  memBundle x (bundles (graph s')) = true)
    /\ (forall x G, memBundle x (getBundlesInBundleGroup (graph s0) G) = true ->
                    memBundle x (getBundlesInBundleGroup (graph s') G) = true)
    /\ (forall asset,
          In asset assets ->
          memBundle (groupBundle dependency (BundleGroup.target bundleGroup)
                                 asset)
                    (bundles (graph s')) = true
          /\ (hasGroup (bundleGroups (graph s0)) bundleGroup = true ->
              memBundle (groupBundle dependency
                           (BundleGroup.target bundleGroup) asset)
                        (getBundlesInBundleGroup (graph s') bundleGroup)
              = true)).
Proof.
  induction assets as [|asset assets IH]; intros s0; cbn [fold_left].
  - exists s0. split; [reflexivity|]. split; [reflexivity|].
    split; [now left|]. split; [auto|]. split; [auto|]. intros a [].
  - unfold addGroupBundle at 2. simpl bind.
    destruct (createBundle (graph s0)
                (groupBundleOpts dependency bundleGroup asset))
      as [[g1 b]|msg] eqn:Hcreate.
    2:{ exfalso. unfold createBundle in Hcreate. simpl in Hcreate.
        destruct (memBundle _ (bundles (graph s0))); discriminate. }
    simpl bind. simpl fst. simpl snd.
    pose proof (createBundle_spec _ _ Hcreate)
      as [Hnew [_ [_ [_ [Hbundles [Hfst _]]]]]].
    pose proof (createBundle_members _ _ Hcreate)
      as [Hmem [Hkeep [Hgrp Hhas]]].
    rewrite groupBundle_new in Hnew. injection Hnew as <-.
    set (b := groupBundle dependency (BundleGroup.target bundleGroup) asset)
      in *.
    match goal with
    | |- exists s', fold_left _ _ (Ok ?s) = _ /\ _ => set (s1 := s)
    end.
    destruct (IH s1) as [s' [Hfold [G1 [G2 [G3 [G4 G5]]]]]].
    exists s'. split; [exact Hfold|].
    assert (Hs1b : bundles (graph s1) = bundles g1) by reflexivity.
    split; [|split; [|split; [|split]]].
    + rewrite G1. unfold s1. cbn [graph]. now rewrite add_groups.
    + intros x Hx. destruct (G2 x Hx) as [H|[a [Ha ->]]].
      * rewrite Hs1b, Hbundles in H.
        assert (Hor : x = b \/ In x (bundles (graph s0))).
        { destruct (memBundle b (bundles (graph s0))).
          - now apply In_replaceBundle.
          - apply in_app_or in H. destruct H as [H|[<-|[]]]; auto. }
        destruct Hor as [->|H']; [|now left].
        right. exists asset. split; [now left|reflexivity].
      * right. exists a. split; [now right|reflexivity].
    + intros x Hx. apply G3. rewrite Hs1b. now apply Hkeep.
    + intros x G Hx. apply G4. unfold s1. cbn [graph].
      apply add_keeps_member. now rewrite Hgrp.
    + intros a [<-|Ha].
      * split.
        -- apply G3. now rewrite Hs1b.
        -- intros HG. apply G4. unfold s1. cbn [graph].
           apply add_makes_member. now rewrite Hhas.
      * destruct (G5 a Ha) as [K1 K2]. split; [exact K1|].
        intros HG. apply K2. unfold s1. cbn [graph].
        now rewrite add_hasGroup, Hhas.
Qed.

Lemma fold_result_invariant (S A : Type) (P : S -> Prop)
  (f : Result S -> A -> Result S) (l : list A) :
  (forall msg x, f (Err msg) x = Err msg) ->
  (forall s x s', In x l -> P s -> f (Ok s) x = Ok s' -> P s') ->
  forall s s', P s -> fold_left f l (Ok s) = Ok s' -> P s'.
Proof.
  intros Herr. induction l as [|x l IH]; intros Hstep s s' Hs; cbn [fold_left].
  - now intros [= <-].
  - destruct (f (Ok s) x) as [s1|msg] eqn:E.
    + apply IH.
      * intros s2 y s3 Hy. apply Hstep. now right.
      * apply (Hstep s x s1); [now left|exact Hs|exact E].
    + assert (Hfold : forall l', fold_left f l' (Err msg) = Err msg).
      { induction l' as [|y l' IHl]; simpl; [reflexivity|].
        now rewrite Herr. }
      rewrite Hfold. discriminate.
Qed.

(** The same-group branch does not make a bundle-group. *)
Lemma enterSameGroup_groups (s s' : BundlerState) (context context' : option Context.t)
  (dependency : Dependency.t) :
  enterSameGroup s context dependency = Ok (s', context') ->
  map fst (bundleGroups (graph s')) = map fst (bundleGroups (graph s)).
Proof.
  unfold enterSameGroup.
  destruct context as [c|]; simpl; [|discriminate].
  destruct (Context.parentNode c) as [parentAsset|]; simpl; [|discriminate].
  destruct (Context.parentBundle c) as [parentBundle|]; simpl; [|discriminate].
  destruct (Context.bundleGroup c) as [bundleGroup|]; simpl; [|discriminate].
  destruct (Context.bundleGroupDependency c) as [bundleGroupDependency|];
    simpl; [|discriminate].
  destruct (Context.bundleByType c) as [byType|]; simpl; [|discriminate].
  destruct (assoc (Asset.id parentAsset) (siblingBundlesByAsset s))
    as [siblingBundles|]; simpl; [|discriminate].
  match goal with
  | |- context [fold_left ?f ?l (Ok s)] =>
      destruct (fold_left f l (Ok s)) as [s1|msg] eqn:Hfold
  end; simpl; [|discriminate].
  intros [= <- _].
  revert Hfold.
  apply (fold_result_invariant
           (fun s2 => map fst (bundleGroups (graph s2))
                      = map fst (bundleGroups (graph s)))); [| |reflexivity].
  - reflexivity.
  - intros s2 asset s3 _ Hs2. unfold addSiblingBundle. simpl bind.
    destruct (String.eqb (Asset.type parentAsset) (Asset.type asset)).
    + destruct (assoc (Asset.id asset) (siblingBundlesByAsset s2)) as [ref|].
      * destruct (forallb _ _); intros [= <-]; [|exact Hs2]. simpl.
        rewrite <- Hs2.
        apply (fold_left_invariant
                 (fun g => map fst (bundleGroups g)
                           = map fst (bundleGroups (graph s2))));
          [|reflexivity].
        intros g b _ Hg. now rewrite add_groups.
      * destruct (forallb _ _); intros [= <-]; exact Hs2.
    + destruct (assoc (Asset.type asset) (nth byType (typeMaps s2) []))
        as [existingBundle|].
      * destruct (assoc (Bundle.id existingBundle) (bundleRoots s2))
          as [roots|]; simpl; [|discriminate].
        destruct (assoc (Asset.id asset) (siblingBundlesByAsset s2));
          intros [= <-]; exact Hs2.
      * destruct (createBundle (graph s2) _) as [[g1 b]|msg] eqn:Hcreate;
          simpl; [|discriminate].
        apply createBundle_spec in Hcreate.
        destruct Hcreate as [_ [_ [_ [_ [_ [Hfst _]]]]]].
        assert (Hgroups :
          map fst (bundleGroups
                     (addBundleToBundleGroup
                        (createBundleReference
                           (createAssetReference g1 dependency asset)
                           parentBundle b) b bundleGroup))
          = map fst (bundleGroups (graph s))).
        { rewrite add_groups. unfold createBundleReference.
          destruct (existsb _ _); simpl; congruence. }
        destruct (assoc (Asset.id asset) (siblingBundlesByAsset s2));
          intros [= <-]; exact Hgroups.
Qed.


(** ** The traversal never runs out of fuel *)

Lemma nodeEqb_refl (n : Node) : nodeEqb n n = true.
Proof. destruct n; apply String.eqb_refl. Qed.

Section Unseen.
Variable A : Type.
Variable eqb : A -> A -> bool.
Hypothesis eqb_refl : forall a, eqb a a = true.

Lemma unseen_mono (U v v' : list A) :
  (forall x, existsb (eqb x) v = true -> existsb (eqb x) v' = true) ->
  unseen eqb U v' <= unseen eqb U v.
Proof.
  intros H. unfold unseen. induction U as [|u U IH]; simpl; [lia|].
  destruct (existsb (eqb u) v) eqn:E.
  - rewrite (H u E). simpl. exact IH.
  - simpl. destruct (existsb (eqb u) v'); simpl; lia.
Qed.

Lemma unseen_enter (U v : list A) (n : A) :
  In n U -> existsb (eqb n) v = false ->
  unseen eqb U (v ++ [n]) < unseen eqb U v.
Proof.
  intros Hn Hv.
  assert (Hgrow : forall x, existsb (eqb x) v = true ->
                            existsb (eqb x) (v ++ [n]) = true).
  { intros x Hx. rewrite existsb_app, Hx. reflexivity. }
  unfold unseen. induction U as [|u U IH]; [destruct Hn|].
  simpl. destruct Hn as [->|Hn].
  - rewrite Hv. rewrite existsb_app. simpl. rewrite eqb_refl.
    rewrite orb_true_r. simpl.
    pose proof (unseen_mono U v (v ++ [n]) Hgrow) as Hle.
    unfold unseen in Hle. lia.
  - specialize (IH Hn).
    destruct (existsb (eqb u) v) eqn:E.
    + rewrite (Hgrow u E). simpl. exact IH.
    + simpl. destruct (existsb (eqb u) (v ++ [n])); simpl; lia.
Qed.

Lemma unseen_bound (U v : list A) : unseen eqb U v <= List.length U.
Proof. unfold unseen. apply filter_length_le. Qed.

Variable next : A -> list A.
Variable keep : A -> bool.
Variable U : list A.
Hypothesis next_closed :
  forall a child, In a U -> In child (next a) -> In child U.

Lemma collect_keeps_seen (fuel : nat) (seen : list A) (a x : A) :
  existsb (eqb x) seen = true ->
  existsb (eqb x) (collect eqb next keep fuel seen a) = true.
Proof.
  intros Hx. apply existsb_exists in Hx. destruct Hx as [y [Hy Hxy]].
  apply existsb_exists. exists y. split; [|exact Hxy].
  now apply (collect_extends eqb next keep fuel seen a).
Qed.

(** With more fuel than there are elements left to enter, the closure
    does not depend on the fuel. *)
Lemma collect_fuel (fuel1 : nat) :
  forall fuel2 seen a,
    In a U ->
    unseen eqb U seen < fuel1 -> unseen eqb U seen < fuel2 ->
    collect eqb next keep fuel1 seen a = collect eqb next keep fuel2 seen a.
Proof.
  induction fuel1 as [|fuel1 IH]; intros fuel2 seen a Ha H1 H2; [lia|].
  destruct fuel2 as [|fuel2]; [lia|]. simpl.
  destruct (existsb (eqb a) seen) eqn:Hv; [reflexivity|]. simpl.
  destruct (keep a); [|reflexivity]. simpl.
  pose proof (unseen_enter U seen a Ha Hv) as Hlt.
  assert (Hchildren : forall child, In child (next a) -> In child U).
  { intros child. now apply next_closed. }
  revert Hchildren. generalize (next a) as l.
  assert (Hstart : unseen eqb U (seen ++ [a]) < fuel1
                   /\ unseen eqb U (seen ++ [a]) < fuel2) by lia.
  revert Hstart. generalize (seen ++ [a]) as s.
  intros s Hs l. revert s Hs.
  induction l as [|child l IHl]; intros s [Hs1 Hs2] Hl; [reflexivity|].
  simpl.
  rewrite (IH fuel2 s child (Hl child (or_introl eq_refl)) Hs1 Hs2).
  apply IHl.
  - pose proof (unseen_mono U s (collect eqb next keep fuel2 s child)
                  (collect_keeps_seen fuel2 s child)) as Hle.
    lia.
  - intros c Hc. apply Hl. now right.
Qed.

Lemma collectAll_fuel (fuel1 fuel2 : nat) (roots seen : list A) :
  (forall r, In r roots -> In r U) ->
  List.length U < fuel1 -> List.length U < fuel2 ->
  fold_left (collect eqb next keep fuel1) roots seen
  = fold_left (collect eqb next keep fuel2) roots seen.
Proof.
  intros Hroots H1 H2. revert seen.
  induction roots as [|r roots IH]; intros seen; [reflexivity|].
  simpl. pose proof (unseen_bound U seen) as Hb.
  rewrite (@collect_fuel fuel1 fuel2 seen r);
    [|apply Hroots; now left|lia|lia].
  apply IH. intros x Hx. apply Hroots. now right.
Qed.
End Unseen.

Section WalkFuel.
Variables (St Ctx : Type).
Variable next : Node -> list Node.
Variable enter : Node -> Ctx -> St -> St * Ctx * bool.
Variable U : list Node.
Hypothesis next_closed :
  forall n child, In n U -> In child (next n) -> In child U.

Lemma walk_keeps_visited (fuel : nat) :
  forall ctx acc node x,
    existsb (nodeEqb x) (fst acc) = true ->
    existsb (nodeEqb x) (fst (walk next enter fuel ctx acc node)) = true.
Proof.
  induction fuel as [|fuel IH]; intros ctx acc node x Hx; simpl.
  - exact Hx.
  - destruct (existsb (nodeEqb node) (fst acc)); [exact Hx|].
    destruct (enter node ctx (snd acc)) as [[st' ctx'] skip].
    assert (Hx' : existsb (nodeEqb x) (fst (fst acc ++ [node], st')) = true).
    { simpl. rewrite existsb_app, Hx. reflexivity. }
    destruct skip; [exact Hx'|].
    apply (fold_left_invariant
             (fun a => existsb (nodeEqb x) (fst a) = true)); [|exact Hx'].
    intros a child _ Ha. now apply IH.
Qed.

(** With more fuel than there are nodes left to enter, the walk does
    not depend on the fuel. *)
Lemma walk_fuel (fuel1 : nat) :
  forall fuel2 ctx acc node,
    In node U ->
    unvisited U (fst acc) < fuel1 -> unvisited U (fst acc) < fuel2 ->
    walk next enter fuel1 ctx acc node = walk next enter fuel2 ctx acc node.
Proof.
  unfold unvisited.
  induction fuel1 as [|fuel1 IH]; intros fuel2 ctx acc node Hn H1 H2; [lia|].
  destruct fuel2 as [|fuel2]; [lia|]. simpl.
  destruct (existsb (nodeEqb node) (fst acc)) eqn:Hv; [reflexivity|].
  destruct (enter node ctx (snd acc)) as [[st' ctx'] skip].
  destruct skip; [reflexivity|].
  pose proof (unseen_enter nodeEqb nodeEqb_refl U (fst acc) node Hn Hv) as Hlt.
  assert (Hchildren : forall child, In child (next node) -> In child U).
  { intros child. now apply next_closed. }
  revert Hchildren.
  generalize (next node) as l.
  assert (Hstart : unseen nodeEqb U (fst (fst acc ++ [node], st')) < fuel1
                   /\ unseen nodeEqb U (fst (fst acc ++ [node], st')) < fuel2).
  { simpl. lia. }
  revert Hstart. generalize (fst acc ++ [node], st') as a.
  intros a Ha l. revert a Ha.
  induction l as [|child l IHl]; intros a [Ha1 Ha2] Hl; [reflexivity|].
  simpl.
  rewrite (IH fuel2 ctx' a child (Hl child (or_introl eq_refl)) Ha1 Ha2).
  apply IHl.
  - pose proof (unseen_mono nodeEqb U (fst a)
                  (fst (walk next enter fuel2 ctx' a child))
                  (walk_keeps_visited fuel2 ctx' a child)) as Hle.
    lia.
  - intros c Hc. apply Hl. now right.
Qed.

Lemma walkAll_fuel (fuel1 fuel2 : nat) (ctx : Ctx) (roots : list Node)
  (st : St) :
  (forall r, In r roots -> In r U) ->
  List.length U < fuel1 -> List.length U < fuel2 ->
  walkAll next enter fuel1 ctx roots st = walkAll next enter fuel2 ctx roots st.
Proof.
  intros Hroots H1 H2. unfold walkAll.
  generalize (@nil Node, st) as a. revert Hroots.
  induction roots as [|r roots IH]; intros Hroots a; [reflexivity|].
  simpl. pose proof (unseen_bound nodeEqb U (fst a)) as Hb.
  rewrite (@walk_fuel fuel1 fuel2 ctx a r).
  - apply IH. intros x Hx. apply Hroots. now right.
  - apply Hroots. now left.
  - unfold unvisited. lia.
  - unfold unvisited. lia.
Qed.
End WalkFuel.

Lemma children_closed (g : BundleGraph) (n child : Node) :
  In n (graphNodes g) -> In child (children g n) -> In child (graphNodes g).
Proof.
  intros _ Hchild. unfold graphNodes. destruct n as [a|d]; simpl in Hchild.
  - apply in_map_iff in Hchild. destruct Hchild as [d [<- Hd]].
    apply in_or_app. right. apply in_or_app. left. apply in_map.
    unfold getDependencies in Hd. now apply assocList_In in Hd.
  - apply in_map_iff in Hchild. destruct Hchild as [a [<- Ha]].
    apply in_or_app. right. apply in_or_app. right. apply in_map.
    unfold getDependencyAssets in Ha. now apply assocList_In in Ha.
Qed.

(** [traverse] gives the traversal enough fuel: any greater amount
    gives the same result. *)
Lemma traverse_fuel (St Ctx : Type) (g : BundleGraph)
  (enter : Node -> Ctx -> St -> St * Ctx * bool) (ctx : Ctx) (st : St)
  (extra : nat) :
  snd (walkAll (children g) enter (nodeBound g + extra) ctx
         (map DependencyNode (entryDependencies (assetGraph g))) st)
  = traverse g enter ctx st.
Proof.
  unfold traverse. f_equal.
  assert (Hlen : List.length (graphNodes g) < nodeBound g).
  { unfold graphNodes, nodeBound. rewrite !length_app, !length_map. lia. }
  apply (@walkAll_fuel _ _ (children g) enter (graphNodes g)
           (@children_closed g)).
  - intros r Hr. unfold graphNodes. apply in_or_app. now left.
  - lia.
  - exact Hlen.
Qed.

(** ** Step 1: failures at the root *)

Lemma enter_error (node : Node) (context : option Context.t) (msg : string) :
  fst (fst (enter node context (Err msg))) = Err msg.
Proof. reflexivity. Qed.

Lemma walk_error (g : BundleGraph) (msg : string) (fuel : nat)
  (context : option Context.t) (acc : list Node * Result BundlerState)
  (node : Node) :
  snd acc = Err msg ->
  snd (walk (children g) enter fuel context acc node) = Err msg.
Proof.
  apply (walk_invariant (children g) enter (fun st => st = Err msg)).
  intros n c s ->. apply enter_error.
Qed.

Lemma walks_error (g : BundleGraph) (msg : string) (fuel : nat)
  (context : option Context.t) (nodes : list Node)
  (acc : list Node * Result BundlerState) :
  snd acc = Err msg ->
  snd (fold_left (walk (children g) enter fuel context) nodes acc) = Err msg.
Proof.
  apply (fold_left_invariant (fun a => snd a = Err msg)).
  intros a n _. apply walk_error.
Qed.

(** X1. The first dependency of the root is entered without a context.
    When it does not open a bundle-group, [invariant(context != null)]
    throws; when it does and has no target, [nullthrows] throws. *)
Theorem bundle_throws_at_first_entry (g : BundleGraph) (d : Dependency.t)
  (rest : list Dependency.t) :
  entryDependencies (assetGraph g) = d :: rest ->
  opensBundleGroup d (getDependencyResolution g d)
  && isSome (Dependency.target d) = false ->
  bundle g
  = Err (if opensBundleGroup d (getDependencyResolution g d)
         then "Got unexpected null"%string else "invariant"%string).
Proof.
  intros Hroots Hbad. unfold bundle, traverse, walkAll.
  rewrite Hroots. cbn [map fold_left].
  set (s0 := mkBundlerState g [] [] [] [] []).
  set (msg := if opensBundleGroup d (getDependencyResolution g d)
              then "Got unexpected null"%string else "invariant"%string).
  assert (Henter : enter (DependencyNode d) None (Ok s0) = (Err msg, None, false)).
  { unfold enter, enterDependency. cbn [graph s0]. unfold msg.
    destruct (opensBundleGroup d (getDependencyResolution g d)).
    - simpl in Hbad. unfold enterNewGroup.
      destruct (Dependency.target d); [discriminate|]. reflexivity.
    - reflexivity. }
  assert (Hfirst :
    snd (walk (children g) enter (nodeBound g) None ([], Ok s0)
           (DependencyNode d)) = Err msg).
  { assert (Hfuel : exists fuel, nodeBound g = S fuel)
      by (unfold nodeBound; eexists; reflexivity).
    destruct Hfuel as [fuel ->]. cbn [walk existsb fst snd].
    rewrite Henter. apply walks_error. reflexivity. }
  rewrite (@walks_error g msg (nodeBound g) None _ _ Hfirst). reflexivity.
Qed.

Lemma bundle_throws_at_first_entry_witness :
  bundle (Examples.emptyGraph
            (mkAssetGraph [Examples.entry "index.html"] [] []))
  = Err "invariant"%string.
Proof.
  apply (@bundle_throws_at_first_entry
           (Examples.emptyGraph
              (mkAssetGraph [Examples.entry "index.html"] [] []))
           (Examples.entry "index.html") []); reflexivity.
Defined.

(** ** Step 1: what the visitor keeps *)

Lemma assoc_mapSet (V : Type) (k k' : string) (v : V) (l : list (string * V)) :
  assoc k (mapSet k' v l) = if String.eqb k k' then Some v else assoc k l.
Proof.
  induction l as [|[k0 v0] l IH]; simpl.
  - reflexivity.
  - destruct (String.eqb k' k0) eqn:E0; simpl.
    + apply String.eqb_eq in E0. subst k0.
      destruct (String.eqb k k'); reflexivity.
    + rewrite IH. destruct (String.eqb k k0) eqn:E1; [|reflexivity].
      apply String.eqb_eq in E1. subst k0.
      destruct (String.eqb k k') eqn:E2; [|reflexivity].
      apply String.eqb_eq in E2. subst k'. rewrite String.eqb_refl in E0.
      discriminate.
Qed.

Lemma hasKey_set (V : Type) (k : string) (v : V) (l : list (string * V)) :
  hasKey k (mapSet k v l) = true.
Proof. unfold hasKey. rewrite assoc_mapSet, String.eqb_refl. reflexivity. Qed.

Lemma hasKey_kept (V : Type) (k k' : string) (v : V) (l : list (string * V)) :
  hasKey k l = true -> hasKey k (mapSet k' v l) = true.
Proof.
  unfold hasKey. rewrite assoc_mapSet. now destruct (String.eqb k k').
Qed.

Lemma typeMap_updated (t k : string) (v e : Bundle.t) (j : nat)
  (l : list (list (string * Bundle.t))) :
  forall i,
    assoc t (nth i (updateNth j (mapSet k v) l) []) = Some e ->
    e = v \/ assoc t (nth i l []) = Some e.
Proof.
  revert j. induction l as [|m l IH]; intros j i; simpl.
  - destruct j; destruct i; simpl; auto.
  - destruct j as [|j]; destruct i as [|i]; simpl; auto.
    + rewrite assoc_mapSet. destruct (String.eqb t k); [|auto].
      intros [= <-]. now left.
    + apply IH.
Qed.

Lemma nth_nil (A : Type) (i : nat) (d : A) : nth i [] d = d.
Proof. now destruct i. Qed.

Section WalkContext.
Variables (St Ctx : Type).
Variable next : Node -> list Node.
Variable enter : Node -> Ctx -> St -> St * Ctx * bool.
Variable P : list Node -> St -> Prop.
Variable Q : Node -> Ctx -> St -> Prop.
Variable le : St -> St -> Prop.
Hypothesis le_refl : forall s, le s s.
Hypothesis le_trans : forall s1 s2 s3, le s1 s2 -> le s2 s3 -> le s1 s3.
Hypothesis Q_mono : forall n c s s', Q n c s -> le s s' -> Q n c s'.
Hypothesis enter_keeps :
  forall n c v s,
    existsb (nodeEqb n) v = false -> P v s -> Q n c s ->
    P (v ++ [n]) (fst (fst (enter n c s)))
    /\ le s (fst (fst (enter n c s)))
    /\ forall child,
         In child (next n) ->
         Q child (snd (fst (enter n c s))) (fst (fst (enter n c s))).

(** A visitor that finds at every node what it needs in its context
    keeps its invariant, which may mention the nodes entered so far,
    through the descent. *)
Lemma walk_context (fuel : nat) :
  forall ctx acc node,
    P (fst acc) (snd acc) -> Q node ctx (snd acc) ->
    P (fst (walk next enter fuel ctx acc node))
      (snd (walk next enter fuel ctx acc node))
    /\ le (snd acc) (snd (walk next enter fuel ctx acc node)).
Proof.
  induction fuel as [|fuel IH]; intros ctx acc node HP HQ; simpl.
  - auto.
  - destruct (existsb (nodeEqb node) (fst acc)) eqn:Hv; [auto|].
    destruct (@enter_keeps node ctx (fst acc) (snd acc) Hv HP HQ)
      as [HP' [Hle Hchildren]].
    destruct (enter node ctx (snd acc)) as [[st' ctx'] skip].
    simpl in HP', Hle, Hchildren.
    destruct skip; [auto|].
    revert Hchildren. generalize (next node) as l.
    assert (Hstart : P (fst (fst acc ++ [node], st'))
                       (snd (fst acc ++ [node], st'))
                     /\ le st' (snd (fst acc ++ [node], st')))
      by (simpl; auto).
    revert Hstart. generalize (fst acc ++ [node], st') as a.
    intros a Ha l. revert a Ha.
    induction l as [|child l IHl]; intros a [Ha1 Ha2] Hl; simpl.
    + split; [exact Ha1|]. now apply le_trans with st'.
    + assert (Hq : Q child ctx' (snd a)).
      { apply Q_mono with st'; [|exact Ha2]. apply Hl. now left. }
      destruct (IH ctx' a child Ha1 Hq) as [K1 K2].
      apply IHl.
      * split; [exact K1|]. now apply le_trans with (snd a).
      * intros c Hc. apply Hl. now right.
Qed.

Lemma walkAll_context (fuel : nat) (ctx : Ctx) (roots : list Node) (st : St) :
  P [] st -> (forall r, In r roots -> Q r ctx st) ->
  P (fst (walkAll next enter fuel ctx roots st))
    (snd (walkAll next enter fuel ctx roots st)).
Proof.
  intros HP HQ. unfold walkAll.
  assert (Hstart : P (fst (@nil Node, st)) (snd (@nil Node, st))
                   /\ le st (snd (@nil Node, st)))
    by (simpl; auto).
  revert Hstart. generalize (@nil Node, st) as a. revert HQ.
  induction roots as [|r roots IH]; intros HQ a [Ha1 Ha2]; simpl.
  - exact Ha1.
  - assert (Hq : Q r ctx (snd a)).
    { apply Q_mono with st; [|exact Ha2]. apply HQ. now left. }
    destruct (@walk_context fuel ctx a r Ha1 Hq) as [K1 K2].
    apply IH.
    + intros x Hx. apply HQ. now right.
    + split; [exact K1|]. now apply le_trans with (snd a).
Qed.
End WalkContext.

(** *** The graph operations of step 1 *)

Lemma created_bundles (g g1 : BundleGraph) (opts : CreateBundleOpts.t)
  (b x : Bundle.t) :
  createBundle g opts = Ok (g1, b) ->
  In x (bundles g1) ->
  x = b \/ (In x (bundles g) /\ Bundle.eqb x b = false).
Proof.
  unfold createBundle. destruct (newBundle opts) as [b'|msg]; simpl;
    [|discriminate].
  destruct (memBundle b' (bundles g)) eqn:E; intros [= <- <-]; simpl.
  - intros Hx. apply in_map_iff in Hx. destruct Hx as [y [<- Hy]].
    unfold replaceBundle. destruct (Bundle.eqb y b') eqn:Ey; auto.
  - intros Hx. apply in_app_or in Hx. destruct Hx as [Hx|[<-|[]]]; [|now left].
    right. split; [exact Hx|]. rewrite Bundle_eqb_sym.
    unfold memBundle in E. now apply (existsb_false _ _ x E).
Qed.

Lemma created_from_asset (g : BundleGraph) (a : Asset.t) (target : Target.t)
  (isEntry : bool) :
  exists g1 b,
    createBundle g
      (CreateBundleOpts.mk (Some a) None None None target (Some isEntry)
                           (Some (Asset.isInline a)) None)
    = Ok (g1, b)
    /\ madeFrom b a.
Proof.
  unfold createBundle, newBundle. simpl.
  match goal with
  | |- context [memBundle ?b ?l] => destruct (memBundle b l)
  end; eexists; eexists; (split; [reflexivity|]); repeat split.
Qed.

Lemma inSomeGroup_created (g g1 : BundleGraph) (opts : CreateBundleOpts.t)
  (b x : Bundle.t) :
  createBundle g opts = Ok (g1, b) -> inSomeGroup g1 x = inSomeGroup g x.
Proof.
  unfold createBundle. destruct (newBundle opts) as [b'|msg]; simpl;
    [|discriminate].
  destruct (memBundle b' (bundles g)); intros [= <- <-]; [|reflexivity].
  unfold inSomeGroup. simpl.
  induction (bundleGroups g) as [|e l IH]; simpl; [reflexivity|].
  now rewrite memBundle_replaced, IH.
Qed.

Lemma inSomeGroup_add_keeps (g : BundleGraph) (b x : Bundle.t)
  (G : BundleGroup.t) :
  inSomeGroup g x = true -> inSomeGroup (addBundleToBundleGroup g b G) x = true.
Proof.
  unfold inSomeGroup, addBundleToBundleGroup. simpl.
  induction (bundleGroups g) as [|e l IH]; simpl; [auto|].
  intros H. apply orb_true_iff in H. apply orb_true_iff.
  destruct H as [H|H]; [left|right; now apply IH].
  destruct (BundleGroup.eqb (fst e) G && negb (memBundle b (snd e)));
    simpl; [|exact H].
  rewrite memBundle_app, H. reflexivity.
Qed.

Lemma inSomeGroup_added (g : BundleGraph) (b : Bundle.t) (G : BundleGroup.t) :
  hasGroup (bundleGroups g) G = true ->
  inSomeGroup (addBundleToBundleGroup g b G) b = true.
Proof.
  unfold inSomeGroup, hasGroup, addBundleToBundleGroup. simpl.
  induction (bundleGroups g) as [|e l IH]; simpl; [auto|].
  intros H. apply orb_true_iff in H. apply orb_true_iff.
  destruct H as [H|H]; [left|right; now apply IH].
  rewrite H. simpl. destruct (memBundle b (snd e)) eqn:E; simpl; [exact E|].
  rewrite memBundle_app. simpl. rewrite Bundle_eqb_refl.
  now rewrite orb_true_r.
Qed.

(** *** The state of step 1 *)

Lemma grows_refl (s : BundlerState) : grows s s.
Proof. repeat split; auto. Qed.

Lemma grows_trans (s1 s2 s3 : BundlerState) :
  grows s1 s2 -> grows s2 s3 -> grows s1 s3.
Proof.
  intros [A1 [A2 A3]] [B1 [B2 B3]]. repeat split; auto.
Qed.

Lemma grows_group_of (s s' : BundlerState) (d : Dependency.t) :
  grows s s' ->
  hasGroupOf (bundleGroups (graph s)) d = true ->
  hasGroupOf (bundleGroups (graph s')) d = true.
Proof.
  intros [_ [_ Hgroups]] H. unfold hasGroupOf in H.
  apply existsb_exists in H. destruct H as [e [He Heq]].
  assert (Hhas : hasGroup (bundleGroups (graph s)) (fst e) = true).
  { apply hasGroup_In. now apply in_map. }
  apply Hgroups in Hhas. unfold hasGroup in Hhas.
  apply existsb_exists in Hhas. destruct Hhas as [e' [He' Heq']].
  apply existsb_exists. exists e'. split; [exact He'|].
  unfold BundleGroup.eqb, Dependency.eqb in *.
  apply String.eqb_eq in Heq, Heq'. apply String.eqb_eq. congruence.
Qed.

Lemma groupReady_grows (s s' : BundlerState) (ctx : Context.t) :
  groupReady s ctx -> grows s s' -> groupReady s' ctx.
Proof.
  intros [[G [HG Hhas]] [H1 H2]] [_ [_ Hgroups]].
  split; [|split; assumption]. exists G. split; [exact HG|]. now apply Hgroups.
Qed.

Lemma ready_grows (s s' : BundlerState) (n : Node) (c : option Context.t) :
  ready s n c -> grows s s' -> ready s' n c.
Proof.
  intros Hready Hgrows. pose proof Hgrows as [Hsib [Hentry _]].
  destruct n as [a|d], c as [ctx|]; simpl in *; auto.
  - destruct Hready as [Hg [Hs Hb]].
    split; [now apply groupReady_grows with s|]. split; [now apply Hsib|].
    apply orb_true_iff in Hb. apply orb_true_iff.
    destruct Hb as [Hb|Hb]; [left; now apply Hentry|now right].
  - destruct Hready as [Hg [Hb [a [Ha Hs]]]].
    split; [now apply groupReady_grows with s|]. split; [exact Hb|].
    exists a. split; [exact Ha|]. now apply Hsib.
Qed.

Lemma consistent_update (g : BundleGraph) (s s' : BundlerState) :
  consistent g s ->
  assetGraph (graph s') = assetGraph (graph s) ->
  bundles (graph s') = bundles (graph s) ->
  (forall b, inSomeGroup (graph s) b = true ->
             inSomeGroup (graph s') b = true) ->
  (forall b, rooted s b -> rooted s' b) ->
  (forall k, hasKey k (bundleRoots s) = true ->
             hasKey k (bundleRoots s') = true) ->
  (forall i t e, assoc t (nth i (typeMaps s') []) = Some e ->
                 assoc t (nth i (typeMaps s) []) = Some e) ->
  consistent g s'.
Proof.
  intros [I1 [I2 [I3 [I4 I5]]]] Hag Hbs Hgroups Hrooted Hkeys Htypes.
  split; [congruence|]. split; [|split; [|split]].
  - intros i t e He. apply Hkeys. apply (I2 i t e). now apply Htypes.
  - intros b Hb. rewrite Hbs in Hb. destruct (I3 b Hb); auto.
  - intros b Hb. rewrite Hbs in Hb. destruct (I4 b Hb); auto.
  - now rewrite Hbs.
Qed.

(** A change of [siblingBundlesByAsset] alone. *)
Lemma consistent_siblings (g : BundleGraph) (s s' : BundlerState) :
  consistent g s ->
  graph s' = graph s -> bundleRoots s' = bundleRoots s ->
  typeMaps s' = typeMaps s ->
  consistent g s'.
Proof.
  intros H Hg Hr Ht. apply consistent_update with s; try rewrite Hg; auto.
  - intros b [a [b0 [roots K]]]. exists a, b0, roots. now rewrite Hr.
  - intros k. now rewrite Hr.
  - intros i t e. now rewrite Ht.
Qed.

Lemma replaced_ids (b : Bundle.t) (l : list Bundle.t) :
  map Bundle.id (map (replaceBundle b) l) = map Bundle.id l.
Proof.
  induction l as [|x l IH]; simpl; [reflexivity|]. rewrite IH. f_equal.
  unfold replaceBundle. destruct (Bundle.eqb x b) eqn:E; [|reflexivity].
  apply Bundle_eqb_id in E. now rewrite E.
Qed.

(** A bundle was created for the asset [a], given its root, kept by
    type and added to the bundle-group. *)
Lemma consistent_created (g : BundleGraph) (s s' : BundlerState)
  (opts : CreateBundleOpts.t) (g1 g2 : BundleGraph) (b : Bundle.t)
  (a : Asset.t) (G : BundleGroup.t) (byType : nat) :
  consistent g s ->
  createBundle (graph s) opts = Ok (g1, b) ->
  madeFrom b a ->
  assetGraph g2 = assetGraph g1 -> bundles g2 = bundles g1 ->
  bundleGroups g2 = bundleGroups g1 ->
  hasGroup (bundleGroups (graph s)) G = true ->
  graph s' = addBundleToBundleGroup g2 b G ->
  bundleRoots s' = mapSet (Bundle.id b) (b, [a]) (bundleRoots s) ->
  typeMaps s' = updateNth byType (mapSet (Bundle.type b) b) (typeMaps s) ->
  consistent g s'.
Proof.
  intros [I1 [I2 [I3 [I4 I5]]]] Hcreate Hfrom Hag Hbs Hgs HG Hgraph Hroots
         Htypes.
  pose proof (createBundle_spec _ _ Hcreate)
    as [_ [Hag1 [_ [_ [Hmade _]]]]].
  pose proof (createBundle_members _ _ Hcreate) as [_ [_ [_ Hhas]]].
  assert (Hbundles : bundles (graph s') = bundles g1)
    by (rewrite Hgraph; simpl; exact Hbs).
  assert (Hb : rooted s' b).
  { exists a, b, [a]. rewrite Hroots, assoc_mapSet, String.eqb_refl.
    split; [exact Hfrom|]. repeat split. now left. }
  split; [|split; [|split; [|split]]].
  - rewrite Hgraph. simpl. congruence.
  - intros i t e He. rewrite Htypes in He. rewrite Hroots.
    apply typeMap_updated in He. destruct He as [->|He].
    + apply hasKey_set.
    + apply hasKey_kept. now apply (I2 i t e).
  - intros x Hx. rewrite Hbundles in Hx.
    destruct (created_bundles _ _ x Hcreate Hx) as [->|[Hold Hne]];
      [now right|].
    destruct (I3 x Hold) as [H|[ax [b0 [roots [K1 [K3 [K4 K5]]]]]]];
      [now left|].
    right. exists ax, b0, roots. rewrite Hroots, assoc_mapSet.
    unfold Bundle.eqb in Hne. rewrite Hne. auto.
  - intros x Hx. rewrite Hbundles in Hx. rewrite Hgraph.
    destruct (created_bundles _ _ x Hcreate Hx) as [->|[Hold Hne]].
    + right. apply inSomeGroup_added. rewrite Hgs, Hhas. exact HG.
    + destruct (I4 x Hold) as [H|H]; [now left|right].
      apply inSomeGroup_add_keeps.
      unfold inSomeGroup. rewrite Hgs.
      change (inSomeGroup g1 x = true).
      now rewrite (inSomeGroup_created _ _ x Hcreate).
  - intros Hnd. specialize (I5 Hnd). rewrite Hbundles, Hmade.
    destruct (memBundle b (bundles (graph s))) eqn:Hmem.
    + now rewrite replaced_ids.
    + rewrite map_app. cbn [map].
      apply (Permutation_NoDup
               (l := Bundle.id b :: map Bundle.id (bundles (graph s)))).
      { apply Permutation_cons_append. }
      constructor; [|exact I5].
      intros Hin. apply memBundle_id in Hin. rewrite Hmem in Hin.
      discriminate.
Qed.

(** *** The two loops over the resolved assets *)

Lemma addGroupBundle_keeps (g : BundleGraph) (dependency : Dependency.t)
  (G : BundleGroup.t) (byType : nat) (s : BundlerState) (a : Asset.t) :
  consistent g s ->
  hasGroup (bundleGroups (graph s)) G = true ->
  exists s',
    addGroupBundle dependency G byType (Ok s) a = Ok s'
    /\ consistent g s' /\ grows s s'
    /\ hasKey (Asset.id a) (siblingBundlesByAsset s') = true
    /\ hasKey (Asset.id a) (bundlesByEntryAsset s') = true.
Proof.
  intros Hs HG.
  destruct (created_from_asset (graph s) a (BundleGroup.target G)
              (if Asset.isIsolated a then false
               else Dependency.isEntry dependency))
    as [g1 [b [Hcreate Hfrom]]].
  unfold addGroupBundle, groupBundleOpts. simpl bind. rewrite Hcreate.
  simpl bind.
  eexists. split; [reflexivity|].
  pose proof (createBundle_members _ _ Hcreate) as [_ [_ [_ Hhas]]].
  split; [|split; [|split]].
  - apply (@consistent_created g s _ _ g1 g1 b a G byType Hs Hcreate); auto.
  - split; [|split];
      cbn [graph siblingBundlesByAsset bundlesByEntryAsset fst snd].
    + intros k. apply hasKey_kept.
    + intros k. apply hasKey_kept.
    + intros G'. now rewrite add_hasGroup, Hhas.
  - simpl. apply hasKey_set.
  - simpl. apply hasKey_set.
Qed.

Lemma addGroupBundles_keep (g : BundleGraph) (dependency : Dependency.t)
  (G : BundleGroup.t) (byType : nat) (assets : list Asset.t) :
  forall s,
    consistent g s ->
    hasGroup (bundleGroups (graph s)) G = true ->
    exists s',
      fold_left (addGroupBundle dependency G byType) assets (Ok s) = Ok s'
      /\ consistent g s' /\ grows s s'
      /\ forall a, In a assets ->
           hasKey (Asset.id a) (siblingBundlesByAsset s') = true
           /\ hasKey (Asset.id a) (bundlesByEntryAsset s') = true.
Proof.
  induction assets as [|a assets IH]; intros s Hs HG; cbn [fold_left].
  - exists s. split; [reflexivity|]. split; [exact Hs|].
    split; [apply grows_refl|]. intros a [].
  - destruct (@addGroupBundle_keeps g dependency G byType s a Hs HG)
      as [s1 [Hstep [Hs1 [Hgrows [K1 K2]]]]].
    rewrite Hstep.
    destruct (IH s1 Hs1 (proj2 (proj2 Hgrows) G HG))
      as [s' [Hfold [Hs' [Hgrows' Hkeys]]]].
    exists s'. split; [exact Hfold|]. split; [exact Hs'|].
    split; [now apply grows_trans with s1|].
    intros x [<-|Hx]; [|now apply Hkeys].
    destruct Hgrows' as [G1 [G2 _]]. split; auto.
Qed.

Lemma add_siblings_frame (G : BundleGroup.t) (siblings : list Bundle.t)
  (g : BundleGraph) :
  let g' :=
    fold_left (fun g bundle => addBundleToBundleGroup g bundle G) siblings g in
  assetGraph g' = assetGraph g
  /\ bundles g' = bundles g
  /\ (forall b, inSomeGroup g b = true -> inSomeGroup g' b = true)
  /\ (forall G', hasGroup (bundleGroups g') G' = hasGroup (bundleGroups g) G').
Proof.
  revert g. induction siblings as [|x siblings IH]; intros g; simpl.
  - repeat split; auto.
  - destruct (IH (addBundleToBundleGroup g x G)) as [K1 [K2 [K3 K4]]].
    split; [exact K1|]. split; [exact K2|]. split.
    + intros b Hb. apply K3. now apply inSomeGroup_add_keeps.
    + intros G'. now rewrite K4, add_hasGroup.
Qed.

Lemma addSiblingBundle_keeps (g : BundleGraph) (dependency : Dependency.t)
  (parentAsset : Asset.t) (parentBundle : Bundle.t) (G : BundleGroup.t)
  (bundleGroupDependency : Dependency.t) (byType siblingBundles : nat)
  (allSameType : bool) (s : BundlerState) (a : Asset.t) :
  consistent g s ->
  hasGroup (bundleGroups (graph s)) G = true ->
  exists s',
    addSiblingBundle dependency parentAsset parentBundle G
      bundleGroupDependency byType siblingBundles allSameType (Ok s) a
    = Ok s'
    /\ consistent g s' /\ grows s s'
    /\ hasKey (Asset.id a) (siblingBundlesByAsset s') = true.
Proof.
  intros Hs HG. unfold addSiblingBundle. simpl bind.
  destruct (String.eqb (Asset.type parentAsset) (Asset.type a)).
  - (* the type of the parent *)
    destruct (assoc (Asset.id a) (siblingBundlesByAsset s)) as [ref|] eqn:Hsib.
    + destruct allSameType.
      * eexists. split; [reflexivity|].
        destruct (add_siblings_frame G (nth ref (siblingArrays s) []) (graph s))
          as [K1 [K2 [K3 K4]]].
        split; [|split].
        -- apply (@consistent_update g s); auto.
        -- split; [|split]; simpl; auto. intros G'. now rewrite K4.
        -- simpl. unfold hasKey. now rewrite Hsib.
      * exists s. split; [reflexivity|]. split; [exact Hs|].
        split; [apply grows_refl|]. unfold hasKey. now rewrite Hsib.
    + destruct allSameType; eexists; (split; [reflexivity|]);
        (split; [now apply (@consistent_siblings g s)|]);
        (split; [|simpl; apply hasKey_set]);
        (split; [|split]; simpl; auto; intros k; apply hasKey_kept).
  - (* another type *)
    assert (Hafter :
      forall s1,
        consistent g s1 -> grows s s1 ->
        exists s',
          match assoc (Asset.id a) (siblingBundlesByAsset s) with
          | Some _ => Ok s1
          | None =>
              Ok (mkBundlerState (graph s1) (bundleRoots s1)
                    (bundlesByEntryAsset s1)
                    (mapSet (Asset.id a) (List.length (siblingArrays s1))
                            (siblingBundlesByAsset s1))
                    (siblingArrays s1 ++ [[]]) (typeMaps s1))
          end = Ok s'
          /\ consistent g s' /\ grows s s'
          /\ hasKey (Asset.id a) (siblingBundlesByAsset s') = true).
    { intros s1 Hs1 Hgrows.
      destruct (assoc (Asset.id a) (siblingBundlesByAsset s)) as [ref|] eqn:Hsib.
      - exists s1. split; [reflexivity|]. split; [exact Hs1|].
        split; [exact Hgrows|]. apply (proj1 Hgrows).
        unfold hasKey. now rewrite Hsib.
      - eexists. split; [reflexivity|].
        split; [now apply (@consistent_siblings g s1)|].
        split; [|simpl; apply hasKey_set].
        apply grows_trans with s1; [exact Hgrows|].
        split; [|split]; simpl; auto. intros k. apply hasKey_kept. }
    destruct (assoc (Asset.type a) (nth byType (typeMaps s) []))
      as [existingBundle|] eqn:Hexisting.
    + (* a bundle of this type is in the group *)
      pose proof Hs as [_ [I2 _]].
      specialize (I2 byType (Asset.type a) existingBundle Hexisting).
      unfold hasKey in I2.
      destruct (assoc (Bundle.id existingBundle) (bundleRoots s))
        as [roots|] eqn:Hroots; [|discriminate].
      cbn [bind nullthrows]. apply Hafter.
      * apply (@consistent_update g s); auto.
        -- intros b [ab [b0 [rs [K1 [K3 [K4 K5]]]]]].
           destruct (String.eqb (Bundle.id b) (Bundle.id existingBundle))
             eqn:E.
           ++ pose proof E as E'. apply String.eqb_eq in E'.
              rewrite E', Hroots in K3. injection K3 as ->.
              exists ab, b0, (rs ++ [a]). cbn [bundleRoots].
              rewrite assoc_mapSet, E. cbn [fst snd].
              split; [exact K1|]. repeat split; auto.
              apply in_or_app. now left.
           ++ exists ab, b0, rs. cbn [bundleRoots].
              rewrite assoc_mapSet, E. auto.
        -- intros k. apply hasKey_kept.
      * split; [|split]; simpl; auto.
    + (* a new bundle *)
      destruct (created_from_asset (graph s) a (BundleGroup.target G)
                  (Dependency.isEntry bundleGroupDependency))
        as [g1 [b [Hcreate Hfrom]]].
      rewrite Hcreate. cbn [bind fst snd].
      pose proof (createBundle_members _ _ Hcreate) as [_ [_ [_ Hhas]]].
      assert (Hrefs :
        let g2 := createBundleReference
                    (createAssetReference g1 dependency a) parentBundle b in
        assetGraph g2 = assetGraph g1 /\ bundles g2 = bundles g1
        /\ bundleGroups g2 = bundleGroups g1).
      { unfold createBundleReference. destruct (existsb _ _); simpl; auto. }
      destruct Hrefs as [R1 [R2 R3]].
      apply Hafter.
      * apply (@consistent_created g s _ _ g1 _ b a G byType Hs Hcreate
                 Hfrom R1 R2 R3 HG); reflexivity.
      * split; [|split];
          cbn [graph siblingBundlesByAsset bundlesByEntryAsset]; auto.
        -- intros k. apply hasKey_kept.
        -- intros G'. rewrite add_hasGroup, R3, Hhas. auto.
Qed.

Lemma addSiblingBundles_keep (g : BundleGraph) (dependency : Dependency.t)
  (parentAsset : Asset.t) (parentBundle : Bundle.t) (G : BundleGroup.t)
  (bundleGroupDependency : Dependency.t) (byType siblingBundles : nat)
  (allSameType : bool) (assets : list Asset.t) :
  forall s,
    consistent g s ->
    hasGroup (bundleGroups (graph s)) G = true ->
    exists s',
      fold_left
        (addSiblingBundle dependency parentAsset parentBundle G
           bundleGroupDependency byType siblingBundles allSameType)
        assets (Ok s)
      = Ok s'
      /\ consistent g s' /\ grows s s'
      /\ forall a, In a assets ->
           hasKey (Asset.id a) (siblingBundlesByAsset s') = true.
Proof.
  induction assets as [|a assets IH]; intros s Hs HG; cbn [fold_left].
  - exists s. split; [reflexivity|]. split; [exact Hs|].
    split; [apply grows_refl|]. intros a [].
  - destruct (@addSiblingBundle_keeps g dependency parentAsset parentBundle G
                bundleGroupDependency byType siblingBundles allSameType s a
                Hs HG)
      as [s1 [Hstep [Hs1 [Hgrows K1]]]].
    rewrite Hstep.
    destruct (IH s1 Hs1 (proj2 (proj2 Hgrows) G HG))
      as [s' [Hfold [Hs' [Hgrows' Hkeys]]]].
    exists s'. split; [exact Hfold|]. split; [exact Hs'|].
    split; [now apply grows_trans with s1|].
    intros x [<-|Hx]; [|now apply Hkeys].
    now apply (proj1 Hgrows').
Qed.

(** *** The visitor *)

Lemma resolution_of_asset_graph (g g' : BundleGraph) (d : Dependency.t) :
  assetGraph g' = assetGraph g ->
  getDependencyAssets g' d = getDependencyAssets g d
  /\ getDependencyResolution g' d = getDependencyResolution g d.
Proof.
  intros H. unfold getDependencyResolution, getDependencyAssets.
  now rewrite H.
Qed.

Lemma typeMap_opened (t : string) (e : Bundle.t)
  (l : list (list (string * Bundle.t))) (i : nat) :
  assoc t (nth i (l ++ [[]]) []) = Some e -> assoc t (nth i l []) = Some e.
Proof.
  destruct (Nat.lt_ge_cases i (List.length l)) as [Hlt|Hge].
  - now rewrite app_nth1.
  - rewrite app_nth2 by exact Hge.
    destruct (i - List.length l) as [|[|k]]; discriminate.
Qed.

(** At a node where the context is ready the visitor keeps the state
    consistent and hands a ready context down to every child.  It
    throws nowhere but at a dependency of the root that is not ready. *)
Lemma enter_keeps_consistent (g : BundleGraph) (s : BundlerState) (n : Node)
  (c : option Context.t) :
  consistent g s -> ready s n c ->
  match enter n c (Ok s) with
  | (Ok s', c', _) =>
      consistent g s' /\ grows s s' /\ isSome c' = true
      /\ (forall d,
            n = DependencyNode d ->
            opensBundleGroup d (getDependencyResolution g d) = true ->
            hasGroupOf (bundleGroups (graph s')) d = true)
      /\ forall child, In child (children g n) -> ready s' child c'
  | (Err _, _, _) =>
      c = None /\ exists d, n = DependencyNode d /\ rootReady g d = false
  end.
Proof.
  intros Hs Hready. pose proof Hs as [I1 _].
  destruct n as [a|d].
  - (* an asset *)
    destruct c as [ctx|]; [|destruct Hready].
    destruct Hready as [Hg [Hsib Hb]]. cbn [enter].
    split; [exact Hs|]. split; [apply grows_refl|]. split; [reflexivity|].
    split; [discriminate|].
    intros child Hchild. cbn [children] in Hchild.
    apply in_map_iff in Hchild. destruct Hchild as [d [<- _]].
    cbn [ready]. split; [exact Hg|]. cbn [Context.parentBundle].
    split.
    + unfold hasKey in Hb. cbn [inheritedParentBundle].
      destruct (assoc (Asset.id a) (bundlesByEntryAsset s)); [reflexivity|].
      exact Hb.
    + exists a. split; [reflexivity|exact Hsib].
  - (* a dependency *)
    destruct (@resolution_of_asset_graph g (graph s) d I1) as [Hassets Hres].
    cbn [enter]. unfold enterDependency. rewrite Hres.
    destruct (opensBundleGroup d (getDependencyResolution g d)) eqn:Hopens.
    + (* a new bundle-group *)
      unfold enterNewGroup.
      assert (Htarget :
        (exists target,
            orElse (Dependency.target d) (inheritedTarget c) = Some target)
        \/ (orElse (Dependency.target d) (inheritedTarget c) = None
            /\ c = None /\ rootReady g d = false)).
      { unfold rootReady. rewrite Hopens.
        destruct (Dependency.target d) as [t|]; [left; now exists t|].
        destruct c as [ctx|]; [|right; auto].
        destruct Hready as [[[G [HG _]] _] _]. left. simpl. rewrite HG.
        now eexists. }
      destruct Htarget as [[target ->]|[-> [-> Hroot]]];
        [|cbn [bind nullthrows]; split; [reflexivity|now exists d]].
      cbn [bind nullthrows createBundleGroup fst snd].
      set (G := BundleGroup.mk d target).
      set (s0 := mkBundlerState _ _ _ _ _ _).
      assert (Hs0 : consistent g s0).
      { apply (@consistent_update g s); auto.
        - intros b Hb. unfold inSomeGroup, s0. cbn [graph].
          unfold withBundleGroups. cbn [bundleGroups].
          rewrite existsb_app. unfold inSomeGroup in Hb. now rewrite Hb.
        - intros i t e. unfold s0. cbn [typeMaps]. apply typeMap_opened. }
      assert (Hgrows0 : grows s s0).
      { split; [|split]; auto. intros G' HG'. unfold s0, hasGroup.
        cbn [graph]. unfold withBundleGroups. cbn [bundleGroups].
        rewrite existsb_app. unfold hasGroup in HG'. now rewrite HG'. }
      assert (HG0 : hasGroup (bundleGroups (graph s0)) G = true).
      { unfold s0, hasGroup. cbn [graph]. unfold withBundleGroups.
        cbn [bundleGroups]. rewrite existsb_app. simpl.
        rewrite Group_eqb_refl. now rewrite orb_true_r. }
      destruct (@addGroupBundles_keep g d G (List.length (typeMaps s))
                  (getDependencyAssets (graph s) d) s0 Hs0 HG0)
        as [s' [Hfold [Hs' [Hgrows' Hkeys]]]].
      rewrite Hfold. cbn [bind].
      split; [exact Hs'|]. split; [now apply grows_trans with s0|].
      split; [reflexivity|].
      split; [intros d' [= <-] _; exact (proj2 (proj2 Hgrows') G HG0)|].
      intros child Hchild. cbn [children] in Hchild.
      apply in_map_iff in Hchild. destruct Hchild as [a [<- Ha]].
      rewrite <- Hassets in Ha. destruct (Hkeys a Ha) as [K1 K2].
      cbn [ready]. split; [|split; [exact K1|now rewrite K2]].
      split; [|split; reflexivity].
      exists G. split; [reflexivity|]. now apply (proj2 (proj2 Hgrows')).
    + (* the bundle-group of the context *)
      unfold enterSameGroup.
      destruct c as [ctx|];
        [|cbn [bind]; split; [reflexivity|]; exists d; split; [reflexivity|];
          unfold rootReady; now rewrite Hopens].
      destruct Hready as [Hg [Hb [a [Ha Hsib]]]].
      pose proof Hg as [[G [HG Hhas]] [Hbt Hbd]].
      cbn [bind]. rewrite Ha. cbn [bind].
      destruct (Context.parentBundle ctx) as [parentBundle|] eqn:Hpb;
        [|discriminate].
      cbn [bind]. rewrite HG. cbn [bind nullthrows].
      destruct (Context.bundleGroupDependency ctx) as [bgd|] eqn:Hbgd;
        [|discriminate].
      cbn [bind].
      destruct (Context.bundleByType ctx) as [byType|] eqn:Hbyt;
        [|discriminate].
      cbn [bind]. unfold hasKey in Hsib.
      destruct (assoc (Asset.id a) (siblingBundlesByAsset s))
        as [siblingBundles|]; [|discriminate].
      cbn [bind nullthrows].
      match goal with
      | |- context [fold_left
                      (addSiblingBundle _ _ _ _ _ _ _ ?same) _ _] =>
          destruct (@addSiblingBundles_keep g d a parentBundle G bgd byType
                      siblingBundles same
                      (getDependencyAssets (graph s) d) s Hs Hhas)
            as [s' [Hfold [Hs' [Hgrows' Hkeys]]]]
      end.
      rewrite Hfold. cbn [bind].
      split; [exact Hs'|]. split; [exact Hgrows'|]. split; [reflexivity|].
      split; [intros d' [= <-] Hopens'; rewrite Hopens in Hopens';
              discriminate|].
      intros child Hchild. cbn [children] in Hchild.
      apply in_map_iff in Hchild. destruct Hchild as [x [<- Hx]].
      rewrite <- Hassets in Hx.
      cbn [ready]. split; [|split].
      * split; [|split; cbn; auto].
        exists G. split; [reflexivity|]. now apply (proj2 (proj2 Hgrows')).
      * now apply Hkeys.
      * cbn. apply orb_true_r.
Qed.

(** *** Bundling completes *)

(** The order in which the state of step 1 is reached: a state that is
    not an error comes from one that is not, and has grown. *)
Lemma grows_result_trans (r1 r2 r3 : Result BundlerState) :
  (forall s2, r2 = Ok s2 -> exists s1, r1 = Ok s1 /\ grows s1 s2) ->
  (forall s3, r3 = Ok s3 -> exists s2, r2 = Ok s2 /\ grows s2 s3) ->
  forall s3, r3 = Ok s3 -> exists s1, r1 = Ok s1 /\ grows s1 s3.
Proof.
  intros H12 H23 s3 H3. destruct (H23 s3 H3) as [s2 [H2 G2]].
  destruct (H12 s2 H2) as [s1 [H1 G1]]. exists s1. split; [exact H1|].
  now apply grows_trans with s2.
Qed.

(** X2. Step 1 never throws when every dependency of the root opens a
    bundle-group and has a target: every [invariant] and [nullthrows] of
    the visitor holds at every node it enters. *)
Theorem bundle_completes (g : BundleGraph) :
  forallb (rootReady g) (entryDependencies (assetGraph g)) = true ->
  exists g', bundle g = Ok g'.
Proof.
  intros Hroots. unfold bundle, traverse.
  set (s0 := mkBundlerState g [] [] [] [] []).
  assert (Hs0 : consistent g s0).
  { split; [reflexivity|].
    split; [|split; [|split]]; [|intros b Hb; now left..|auto].
    intros i t e. unfold s0. cbn [typeMaps]. rewrite nth_nil. discriminate. }
  assert (Hfinal :
    exists s,
      snd (walkAll (children g) enter (nodeBound g) None
             (map DependencyNode (entryDependencies (assetGraph g))) (Ok s0))
      = Ok s /\ consistent g s).
  { apply (walkAll_context (children g) enter
             (fun _ r => exists s, r = Ok s /\ consistent g s)
             (fun n c r =>
                forall s, r = Ok s ->
                  ready s n c
                  /\ (c = None -> forall d, n = DependencyNode d ->
                                            rootReady g d = true))
             (fun r r' =>
                forall s', r' = Ok s' -> exists s, r = Ok s /\ grows s s')).
    - intros r s' ->. exists s'. split; [reflexivity|apply grows_refl].
    - intros r1 r2 r3. apply grows_result_trans.
    - intros n c r r' HQ Hle s' ->. destruct (Hle s' eq_refl) as [s [-> Hg]].
      destruct (HQ s eq_refl) as [Hready Hroot].
      split; [now apply ready_grows with s|exact Hroot].
    - intros n c v r _ [s [-> Hs]] HQ.
      destruct (HQ s eq_refl) as [Hready Hroot].
      pose proof (enter_keeps_consistent n c Hs Hready) as Hstep.
      destruct (enter n c (Ok s)) as [[[s'|msg] c'] skip]; cbn [fst snd].
      + destruct Hstep as [Hs' [Hgrows [Hsome [_ Hchildren]]]].
        split; [now exists s'|]. split.
        * intros s2 [= <-]. now exists s.
        * intros child Hchild s2 [= <-]. split; [now apply Hchildren|].
          intros ->. discriminate.
      + destruct Hstep as [-> [d [-> Hbad]]].
        rewrite (Hroot eq_refl d eq_refl) in Hbad. discriminate.
    - now exists s0.
    - intros r Hr s [= <-]. apply in_map_iff in Hr. destruct Hr as [d [<- Hd]].
      split; [exact I|]. intros _ d' [= <-].
      rewrite forallb_forall in Hroots. now apply Hroots. }
  destruct Hfinal as [s [-> _]]. cbn [bind]. now eexists.
Qed.

Lemma bundle_completes_witness :
  forallb (rootReady (Examples.emptyGraph Examples.pageAssets))
          (entryDependencies
             (assetGraph (Examples.emptyGraph Examples.pageAssets))) = true
  /\ exists g', bundle (Examples.emptyGraph Examples.pageAssets) = Ok g'.
Proof.
  split; [reflexivity|].
  apply (@bundle_completes (Examples.emptyGraph Examples.pageAssets)).
  reflexivity.
Defined.

(** *** What step 1 makes *)

(** The state after the traversal of step 1, if it did not throw: it is
    consistent, and every dependency the traversal entered that opens a
    bundle-group has one. *)
Lemma bundle_traversal_groups (g : BundleGraph) (s : BundlerState) :
  let r := walkAll (children g) enter (nodeBound g) None
             (map DependencyNode (entryDependencies (assetGraph g)))
             (Ok (mkBundlerState g [] [] [] [] [])) in
  snd r = Ok s ->
  consistent g s
  /\ forall d,
       In (DependencyNode d) (fst r) ->
       opensBundleGroup d (getDependencyResolution g d) = true ->
       hasGroupOf (bundleGroups (graph s)) d = true.
Proof.
  cbn zeta. set (s0 := mkBundlerState g [] [] [] [] []).
  assert (Hs0 : consistent g s0).
  { split; [reflexivity|].
    split; [|split; [|split]]; [|intros b Hb; now left..|auto].
    intros i t e. unfold s0. cbn [typeMaps]. rewrite nth_nil. discriminate. }
  revert s.
  apply (walkAll_context (children g) enter
           (fun v r =>
              forall s, r = Ok s ->
                consistent g s
                /\ forall d,
                     In (DependencyNode d) v ->
                     opensBundleGroup d (getDependencyResolution g d) = true ->
                     hasGroupOf (bundleGroups (graph s)) d = true)
           (fun n c r => forall s, r = Ok s -> ready s n c)
           (fun r r' =>
              forall s', r' = Ok s' -> exists s, r = Ok s /\ grows s s')).
  - intros r s' ->. exists s'. split; [reflexivity|apply grows_refl].
  - intros r1 r2 r3. apply grows_result_trans.
  - intros n c r r' HQ Hle s' ->. destruct (Hle s' eq_refl) as [s [-> Hg]].
    apply ready_grows with s; [now apply HQ|exact Hg].
  - intros n c v [s|msg] _ HP HQ.
    + destruct (HP s eq_refl) as [Hs Hgroups].
      pose proof (enter_keeps_consistent n c Hs (HQ s eq_refl)) as Hstep.
      destruct (enter n c (Ok s)) as [[[s'|msg] c'] skip]; cbn [fst snd].
      * destruct Hstep as [Hs' [Hgrows [_ [Hopened Hchildren]]]].
        split; [|split].
        -- intros s2 [= <-]. split; [exact Hs'|].
           intros d Hd Hopens. apply in_app_or in Hd.
           destruct Hd as [Hd|[Hn|[]]].
           ++ apply (@grows_group_of s s' d Hgrows). now apply Hgroups.
           ++ now apply (Hopened d).
        -- intros s2 [= <-]. now exists s.
        -- intros child Hchild s2 [= <-]. now apply Hchildren.
      * split; [discriminate|]. split; [discriminate|]. discriminate.
    + cbn [enter fst snd]. split; [discriminate|].
      split; [discriminate|]. discriminate.
  - intros s [= <-]. split; [exact Hs0|]. intros d [].
  - intros r Hr s [= <-]. apply in_map_iff in Hr. destruct Hr as [d [<- Hd]].
    exact I.
Qed.

Lemma bundle_traversal_consistent (g : BundleGraph) (s : BundlerState) :
  traverse g enter None (Ok (mkBundlerState g [] [] [] [] [])) = Ok s ->
  consistent g s.
Proof.
  intros H. exact (proj1 (bundle_traversal_groups g H)).
Qed.

Lemma attach_keeps (b x : Bundle.t) (a y : Asset.t)
  (c : list (string * Asset.t)) :
  existsb (fun p => String.eqb (fst p) (Bundle.id x) && Asset.eqb (snd p) y) c
  = true ->
  existsb (fun p => String.eqb (fst p) (Bundle.id x) && Asset.eqb (snd p) y)
          (attach b c a) = true.
Proof.
  intros H. unfold attach.
  destruct (existsb (fun p => String.eqb (fst p) (Bundle.id b)
                              && Asset.eqb (snd p) a) c); [exact H|].
  rewrite existsb_app, H. reflexivity.
Qed.

Lemma attach_adds (b : Bundle.t) (a : Asset.t) (c : list (string * Asset.t)) :
  existsb (fun p => String.eqb (fst p) (Bundle.id b) && Asset.eqb (snd p) a)
          (attach b c a) = true.
Proof.
  unfold attach.
  destruct (existsb (fun p => String.eqb (fst p) (Bundle.id b)
                              && Asset.eqb (snd p) a) c) eqn:E; [exact E|].
  rewrite existsb_app. simpl.
  rewrite String.eqb_refl, Asset_eqb_refl. now rewrite orb_true_r.
Qed.

Lemma added_graph_frame (g : BundleGraph) (a : Asset.t) (b : Bundle.t) :
  let g' := addAssetGraphToBundle g a b in
  assetGraph g' = assetGraph g /\ bundles g' = bundles g
  /\ bundleGroups g' = bundleGroups g
  /\ (forall x y, hasAsset g x y = true -> hasAsset g' x y = true)
  /\ hasAsset g' b a = true.
Proof.
  cbn zeta. split; [reflexivity|]. split; [reflexivity|].
  split; [reflexivity|].
  unfold hasAsset, addAssetGraphToBundle. cbn [containment withContainment].
  split.
  - intros x y.
    apply (fold_left_invariant
             (fun c => existsb
                         (fun p => String.eqb (fst p) (Bundle.id x)
                                   && Asset.eqb (snd p) y) c = true)).
    intros c z _. apply attach_keeps.
  - apply (fold_left_establish
             (fun c => existsb
                         (fun p => String.eqb (fst p) (Bundle.id b)
                                   && Asset.eqb (snd p) a) c = true))
      with (x := a).
    + unfold assetSubgraph, collectAssets, nodeBound. cbn [Nat.add].
      now apply collect_start.
    + intros c. apply attach_adds.
    + intros c z. apply attach_keeps.
Qed.

(** The loop that ends [bundle]: every root is attached to its bundle. *)
Lemma roots_attached (entries : list (string * (Bundle.t * list Asset.t))) :
  forall g,
    let g' :=
      fold_left
        (fun g entry =>
           fold_left
             (fun g asset => addAssetGraphToBundle g asset (fst (snd entry)))
             (snd (snd entry)) g)
        entries g in
    assetGraph g' = assetGraph g
    /\ bundles g' = bundles g
    /\ bundleGroups g' = bundleGroups g
    /\ (forall x y, hasAsset g x y = true -> hasAsset g' x y = true)
    /\ forall entry a,
         In entry entries -> In a (snd (snd entry)) ->
         hasAsset g' (fst (snd entry)) a = true.
Proof.
  assert (Hinner :
    forall (b : Bundle.t) (roots : list Asset.t) (g : BundleGraph),
      let g' :=
        fold_left (fun g asset => addAssetGraphToBundle g asset b) roots g in
      assetGraph g' = assetGraph g
      /\ bundles g' = bundles g
      /\ bundleGroups g' = bundleGroups g
      /\ (forall x y, hasAsset g x y = true -> hasAsset g' x y = true)
      /\ forall a, In a roots -> hasAsset g' b a = true).
  { intros b roots. induction roots as [|r roots IH]; intros g; cbn zeta;
      cbn [fold_left].
    - repeat split; auto; easy.
    - destruct (IH (addAssetGraphToBundle g r b)) as [K0 [K1 [K2 [K3 K4]]]].
      destruct (added_graph_frame g r b) as [F0 [F1 [F2 [F3 F4]]]].
      split; [congruence|]. split; [congruence|]. split; [congruence|]. split.
      + intros x y H. apply K3. now apply F3.
      + intros a [<-|Ha]; [now apply K3|now apply K4]. }
  induction entries as [|e entries IH]; intros g; cbn zeta; cbn [fold_left].
  - repeat split; auto; easy.
  - destruct (Hinner (fst (snd e)) (snd (snd e)) g) as [F0 [F1 [F2 [F3 F4]]]].
    match goal with
    | |- context [fold_left _ entries ?g1] =>
        destruct (IH g1) as [K0 [K1 [K2 [K3 K4]]]]
    end.
    split; [congruence|]. split; [congruence|]. split; [congruence|]. split.
    + intros x y H. apply K3. now apply F3.
    + intros entry a [<-|He] Ha; [apply K3; now apply F4|now apply K4].
Qed.

Lemma hasAsset_by_id (g : BundleGraph) (b b' : Bundle.t) (a : Asset.t) :
  Bundle.id b = Bundle.id b' -> hasAsset g b a = hasAsset g b' a.
Proof. intros H. unfold hasAsset. now rewrite H. Qed.

(** X3. Every bundle step 1 makes has one entry asset, the asset it was
    created for, which is its main entry; it has the type of that asset
    and the inline flag [isInline: asset.isInline] passes, and after the
    loop over [bundleRoots] it contains the asset. *)
Theorem bundle_contains_its_entry (g g' : BundleGraph) :
  bundle g = Ok g' ->
  forall b,
    In b (bundles g') ->
    In b (bundles g)
    \/ exists a,
         Bundle.entryAssets b = [a]
         /\ Bundle.getMainEntry b = Some a
         /\ Bundle.type b = Asset.type a
         /\ Bundle.isInline b = Asset.isInline a
         /\ hasAsset g' b a = true.
Proof.
  unfold bundle.
  destruct (traverse g enter None (Ok (mkBundlerState g [] [] [] [] [])))
    as [s|msg] eqn:Htraverse; cbn [bind]; [|discriminate].
  intros [= <-] b Hb.
  destruct (bundle_traversal_consistent g Htraverse) as [_ [_ [I3 _]]].
  destruct (roots_attached (bundleRoots s) (graph s)) as [_ [K1 [_ [_ K4]]]].
  cbn zeta in K1, K4. rewrite K1 in Hb.
  destruct (I3 b Hb) as [H|[a [b0 [roots [E1 [E3 [E4 E5]]]]]]];
    [now left|].
  destruct E1 as [M1 [_ [M3 [_ [M5 _]]]]].
  right. exists a. split; [exact M1|].
  split; [unfold Bundle.getMainEntry; now rewrite M1|].
  split; [exact M3|]. split; [exact M5|].
  rewrite (hasAsset_by_id _ b b0 a (eq_sym E4)).
  apply (K4 (Bundle.id b, (b0, roots)) a); [|exact E5].
  now apply assoc_In.
Qed.

Lemma bundle_contains_its_entry_witness :
  In Examples.libCssBundle
     (bundles (Examples.emptyGraph Examples.pageAssets))
  \/ exists a,
       Bundle.entryAssets Examples.libCssBundle = [a]
       /\ Bundle.getMainEntry Examples.libCssBundle = Some a
       /\ Bundle.type Examples.libCssBundle = Asset.type a
       /\ Bundle.isInline Examples.libCssBundle = Asset.isInline a
       /\ hasAsset Examples.pageGraph Examples.libCssBundle a = true.
Proof.
  apply (@bundle_contains_its_entry
           (Examples.emptyGraph Examples.pageAssets) Examples.pageGraph);
    [reflexivity|].
  vm_compute. auto 10.
Defined.

(** X4. Every bundle step 1 makes is in a bundle-group. *)
Theorem bundle_joins_a_group (g g' : BundleGraph) :
  bundle g = Ok g' ->
  forall b,
    In b (bundles g') -> In b (bundles g) \/ inSomeGroup g' b = true.
Proof.
  unfold bundle.
  destruct (traverse g enter None (Ok (mkBundlerState g [] [] [] [] [])))
    as [s|msg] eqn:Htraverse; cbn [bind]; [|discriminate].
  intros [= <-] b Hb.
  destruct (bundle_traversal_consistent g Htraverse) as [_ [_ [_ [I4 _]]]].
  destruct (roots_attached (bundleRoots s) (graph s)) as [_ [K1 [K2 _]]].
  cbn zeta in K1, K2. rewrite K1 in Hb. unfold inSomeGroup. rewrite K2.
  exact (I4 b Hb).
Qed.

Lemma bundle_joins_a_group_witness :
  In Examples.libCssBundle
     (bundles (Examples.emptyGraph Examples.pageAssets))
  \/ inSomeGroup Examples.pageGraph Examples.libCssBundle = true.
Proof.
  apply (@bundle_joins_a_group
           (Examples.emptyGraph Examples.pageAssets) Examples.pageGraph);
    [reflexivity|].
  vm_compute. auto 10.
Defined.

(** ** Steps 2 and 3 only move bundles into groups and assets out of bundles *)

(** Step 2 acts on the graph through two operations only: it removes an
    asset graph from a candidate, which is a bundle of the graph that is
    neither an entry nor inline and is splittable, and it adds a bundle
    that is not inline to a bundle-group. *)
Lemma optimizeStep2_invariant (P : BundleGraph -> Prop) (g0 : BundleGraph) :
  (forall g a b,
      bundles g = bundles g0 -> P g -> In b (bundles g0) ->
      Bundle.isEntry b = false -> Bundle.isInline b = false ->
      Bundle.isSplittable b = true ->
      P (removeAssetGraphFromBundle g a b)) ->
  (forall g b G,
      bundles g = bundles g0 -> P g -> Bundle.isInline b = false ->
      P (addBundleToBundleGroup g b G)) ->
  P g0 -> P (optimizeStep2 g0).
Proof.
  intros Hremove Hadd H0. unfold optimizeStep2, traverseBundles.
  apply (fold_left_invariant (fun g => P g /\ bundles g = bundles g0));
    [|split; [exact H0|reflexivity]].
  intros g bundle _ [Hg Hbs]. unfold reparentVisitor.
  destruct (Bundle.isInline bundle) eqn:Hinline; [now split|].
  destruct (negb (Bundle.isSplittable bundle)); [now split|]. cbn [orb].
  destruct (Bundle.getMainEntry bundle) as [mainEntry|]; [|now split].
  assert (Hsiblings :
    forall b, In b (bundle :: reparentSiblings g bundle) ->
              Bundle.isInline b = false).
  { intros b [<-|Hb]; [exact Hinline|]. unfold reparentSiblings in Hb.
    apply filter_In in Hb. now apply negb_true_iff. }
  revert Hsiblings. generalize (reparentSiblings g bundle).
  intros siblings Hsiblings.
  assert (Hcandidates :
    forall candidate,
      In candidate (reparentCandidates g bundle mainEntry) ->
      In candidate (bundles g0)
      /\ Bundle.isEntry candidate = false
      /\ Bundle.isInline candidate = false
      /\ Bundle.isSplittable candidate = true).
  { intros candidate Hc. unfold reparentCandidates in Hc.
    apply filter_In in Hc. destruct Hc as [Hin Hflags].
    unfold findBundlesWithAsset in Hin. apply filter_In in Hin.
    rewrite Hbs in Hin.
    apply andb_true_iff in Hflags. destruct Hflags as [Hflags H3].
    apply andb_true_iff in Hflags. destruct Hflags as [Hflags H2].
    apply andb_true_iff in Hflags. destruct Hflags as [_ H1].
    apply negb_true_iff in H1, H2. repeat split; tauto. }
  revert Hcandidates. generalize (reparentCandidates g bundle mainEntry).
  intros candidates Hcandidates.
  apply (fold_left_invariant (fun g => P g /\ bundles g = bundles g0));
    [|now split].
  intros g1 candidate Hc [Hg1 Hbs1]. unfold reparentCandidate.
  destruct (forallb _ (getBundleGroupsContainingBundle g1 candidate));
    [|now split].
  destruct (Hcandidates candidate Hc) as [Hin [F1 [F2 F3]]].
  apply (fold_left_invariant (fun g => P g /\ bundles g = bundles g0)).
  - intros g2 G _ Hg2.
    apply (fold_left_invariant (fun g => P g /\ bundles g = bundles g0));
      [|exact Hg2].
    intros g3 b Hb [Hg3 Hbs3]. split; [|exact Hbs3].
    apply Hadd; auto.
  - split; [now apply Hremove|exact Hbs1].
Qed.

Lemma removed_contents (g : BundleGraph) (a : Asset.t) (b : Bundle.t) :
  incl (containment (removeAssetGraphFromBundle g a b)) (containment g).
Proof.
  unfold removeAssetGraphFromBundle. simpl. intros p Hp.
  apply filter_In in Hp. tauto.
Qed.

(** X7. Step 2 makes and deletes no bundle and no bundle-group, touches
    no reference, attaches no asset to a bundle and takes no bundle out
    of a bundle-group: bundles lose assets, and bundle-groups are
    extended by bundles that are not inline. *)
Theorem optimizeStep2_frame (g : BundleGraph) :
  let g' := optimizeStep2 g in
  assetGraph g' = assetGraph g
  /\ bundles g' = bundles g
  /\ map fst (bundleGroups g') = map fst (bundleGroups g)
  /\ bundleReferences g' = bundleReferences g
  /\ assetReferences g' = assetReferences g
  /\ incl (containment g') (containment g)
  /\ forall G, exists added,
       getBundlesInBundleGroup g' G = getBundlesInBundleGroup g G ++ added
       /\ forall b, In b added -> Bundle.isInline b = false.
Proof.
  cbn zeta.
  apply (optimizeStep2_invariant
           (fun g' =>
              assetGraph g' = assetGraph g
              /\ bundles g' = bundles g
              /\ map fst (bundleGroups g') = map fst (bundleGroups g)
              /\ bundleReferences g' = bundleReferences g
              /\ assetReferences g' = assetReferences g
              /\ incl (containment g') (containment g)
              /\ forall G, exists added,
                   getBundlesInBundleGroup g' G
                   = getBundlesInBundleGroup g G ++ added
                   /\ forall b, In b added -> Bundle.isInline b = false)).
  - intros g1 a b _ [K1 [K2 [K3 [K4 [K5 [K6 K7]]]]]] _ _ _ _.
    split; [exact K1|]. split; [exact K2|]. split; [exact K3|].
    split; [exact K4|]. split; [exact K5|]. split; [|exact K7].
    intros p Hp. apply K6. now apply (removed_contents g1 a b).
  - intros g1 b G0 _ [K1 [K2 [K3 [K4 [K5 [K6 K7]]]]]] Hinline.
    split; [exact K1|]. split; [exact K2|].
    split; [now rewrite add_groups|]. split; [exact K4|].
    split; [exact K5|]. split; [exact K6|].
    intros G. destruct (K7 G) as [added [Hadded Hflags]]. rewrite add_members.
    destruct (BundleGroup.eqb G G0 && hasGroup (bundleGroups g1) G
              && negb (memBundle b (getBundlesInBundleGroup g1 G))).
    + exists (added ++ [b]). split; [rewrite Hadded; now rewrite app_assoc|].
      intros x Hx. apply in_app_or in Hx.
      destruct Hx as [Hx|[<-|[]]]; [now apply Hflags|exact Hinline].
    + now exists added.
  - split; [reflexivity|]. split; [reflexivity|]. split; [reflexivity|].
    split; [reflexivity|]. split; [reflexivity|].
    split; [apply incl_refl|].
    intros G. exists []. split; [now rewrite app_nil_r|]. intros b [].
Qed.

(** X8. Step 2 takes no asset out of a bundle that is an entry, inline
    or not splittable, provided no other bundle carries its id. *)
Theorem optimizeStep2_spares (g : BundleGraph) (c : Bundle.t) :
  forallb (fun o => negb (Bundle.eqb o c)
                    || Bundle.isEntry o
                    || Bundle.isInline o
                    || negb (Bundle.isSplittable o))
          (bundles g) = true ->
  bundleAssets (optimizeStep2 g) c = bundleAssets g c.
Proof.
  intros Hc. unfold bundleAssets. f_equal.
  apply (optimizeStep2_invariant
           (fun g' =>
              filter (fun p => String.eqb (fst p) (Bundle.id c)) (containment g')
              = filter (fun p => String.eqb (fst p) (Bundle.id c))
                       (containment g))); [| |reflexivity].
  - intros g1 a b _ Hg1 Hin F1 F2 F3. rewrite <- Hg1.
    apply remove_contents_other. intros Hid.
    rewrite forallb_forall in Hc. specialize (Hc b Hin).
    unfold Bundle.eqb in Hc. rewrite Hid, String.eqb_refl, F1, F2, F3 in Hc.
    discriminate.
  - intros g1 b G _ Hg1 _. exact Hg1.
Qed.

Lemma optimizeStep2_spares_witness :
  forallb (fun o => negb (Bundle.eqb o Examples.entryBundle)
                    || Bundle.isEntry o
                    || Bundle.isInline o
                    || negb (Bundle.isSplittable o))
          (bundles Examples.asyncGraph) = true
  /\ bundleAssets (optimizeStep2 Examples.asyncGraph) Examples.entryBundle
     = bundleAssets Examples.asyncGraph Examples.entryBundle.
Proof.
  split; [reflexivity|].
  apply (@optimizeStep2_spares Examples.asyncGraph Examples.entryBundle).
  reflexivity.
Defined.

(** X9. [deduplicateBundle] only takes assets out of the bundle it is
    given, and step 3 as a whole only takes assets out of bundles. *)
Theorem deduplication_frame (g : BundleGraph) :
  (forall bundle,
      let g' := deduplicateBundle g bundle in
      assetGraph g' = assetGraph g
      /\ bundles g' = bundles g
      /\ bundleGroups g' = bundleGroups g
      /\ bundleReferences g' = bundleReferences g
      /\ incl (containment g') (containment g)
      /\ forall o, Bundle.id o <> Bundle.id bundle ->
                   bundleAssets g' o = bundleAssets g o)
  /\ let g' := optimizeStep3 g in
     assetGraph g' = assetGraph g
     /\ bundles g' = bundles g
     /\ bundleGroups g' = bundleGroups g
     /\ bundleReferences g' = bundleReferences g
     /\ incl (containment g') (containment g).
Proof.
  assert (Hone :
    forall g0 bundle,
      let g' := deduplicateBundle g0 bundle in
      assetGraph g' = assetGraph g0
      /\ bundles g' = bundles g0
      /\ bundleGroups g' = bundleGroups g0
      /\ bundleReferences g' = bundleReferences g0
      /\ incl (containment g') (containment g0)).
  { intros g0 bundle. cbn zeta.
    apply (deduplicateBundle_invariant
             (fun g' =>
                assetGraph g' = assetGraph g0
                /\ bundles g' = bundles g0
                /\ bundleGroups g' = bundleGroups g0
                /\ bundleReferences g' = bundleReferences g0
                /\ incl (containment g') (containment g0))).
    - intros g1 a [K1 [K2 [K3 [K4 K5]]]]. repeat split; auto.
      intros p Hp. apply K5. now apply (removed_contents g1 a bundle).
    - repeat split; auto using incl_refl. }
  split.
  - intros bundle. cbn zeta.
    destruct (Hone g bundle) as [K1 [K2 [K3 [K4 K5]]]].
    repeat split; auto.
    intros o Ho. unfold bundleAssets. f_equal.
    apply deduplicateBundle_contents_other. congruence.
  - cbn zeta. unfold optimizeStep3, traverseBundlesExit.
    apply (fold_left_invariant
             (fun g' =>
                assetGraph g' = assetGraph g
                /\ bundles g' = bundles g
                /\ bundleGroups g' = bundleGroups g
                /\ bundleReferences g' = bundleReferences g
                /\ incl (containment g') (containment g))).
    + intros g1 bundle _ [K1 [K2 [K3 [K4 K5]]]].
      destruct (Hone g1 bundle) as [L1 [L2 [L3 [L4 L5]]]].
      repeat split; try congruence.
      intros p Hp. apply K5. now apply L5.
    + repeat split; auto using incl_refl.
Qed.

(** ** Step 4: what extracting a candidate does *)

Lemma hasGroup_eqb (l : list (BundleGroup.t * list Bundle.t))
  (G G' : BundleGroup.t) :
  BundleGroup.eqb G G' = true -> hasGroup l G = hasGroup l G'.
Proof.
  intros H. unfold hasGroup. induction l as [|e l IH]; simpl; [reflexivity|].
  rewrite IH. f_equal. rewrite (Group_eqb_sym (fst e) G),
    (Group_eqb_sym (fst e) G'). now apply Group_eqb_trans.
Qed.

Lemma setAddGroup_keeps (l : list BundleGroup.t) (G G' : BundleGroup.t) :
  memGroup G l = true -> memGroup G (setAddGroup l G') = true.
Proof.
  intros H. unfold setAddGroup. destruct (memGroup G' l); [exact H|].
  unfold memGroup in *. rewrite existsb_app, H. reflexivity.
Qed.

Lemma setAddGroup_adds (l : list BundleGroup.t) (G : BundleGroup.t) :
  memGroup G (setAddGroup l G) = true.
Proof.
  unfold setAddGroup. destruct (memGroup G l) eqn:E; [exact E|].
  unfold memGroup. rewrite existsb_app. simpl. rewrite Group_eqb_refl.
  now rewrite orb_true_r.
Qed.

(** [bundleGroups] of step 4 has every bundle-group of every source
    bundle. *)
Lemma candidateGroups_covers (g : BundleGraph) (sourceBundles : list Bundle.t)
  (s : Bundle.t) (G : BundleGroup.t) :
  In s sourceBundles -> In G (getBundleGroupsContainingBundle g s) ->
  memGroup G (candidateGroups g sourceBundles) = true.
Proof.
  intros Hs HG. unfold candidateGroups.
  apply (fold_left_establish (fun l => memGroup G l = true)) with (x := s).
  - exact Hs.
  - intros l.
    apply (fold_left_establish (fun l => memGroup G l = true)) with (x := G).
    + exact HG.
    + intros l'. apply setAddGroup_adds.
    + intros l' G'. apply setAddGroup_keeps.
  - intros l b Hl.
    apply (fold_left_invariant (fun l => memGroup G l = true)); [|exact Hl].
    intros l' G' _. apply setAddGroup_keeps.
Qed.

(** X13. The shared bundle of an extracted candidate is put in every
    bundle-group that holds one of its source bundles. *)
Theorem shared_bundle_joins_groups (md5FromString : string -> string)
  (g g' : BundleGraph) (c : Candidate.t) :
  existsb
    (fun group =>
       OPTIONS.maxParallelRequests
       <=? List.length (getBundlesInBundleGroup g group))
    (candidateGroups g (Candidate.sourceBundles c)) = false ->
  extractSharedBundle md5FromString (Ok g) c = Ok g' ->
  exists firstBundle,
    hd_error (Candidate.sourceBundles c) = Some firstBundle
    /\ forall s G,
         In s (Candidate.sourceBundles c) ->
         In G (getBundleGroupsContainingBundle g s) ->
         memBundle (sharedBundle md5FromString c firstBundle)
                   (getBundlesInBundleGroup g' G) = true.
Proof.
  intros Hroom H.
  destruct (extractSharedBundle_cases md5FromString g c)
    as [[Hfull _]|[[_ [_ [msg E]]]|[_ [fb [rest [g1 [Hsrc [Hcreate E]]]]]]]].
  - cbn zeta in Hfull. rewrite Hroom in Hfull. discriminate.
  - rewrite E in H. discriminate.
  - rewrite E in H. injection H as <-.
    exists fb. split; [now rewrite Hsrc|].
    intros s G Hs HG.
    set (shared := sharedBundle md5FromString c fb) in *.
    set (groups := candidateGroups g (Candidate.sourceBundles c)) in *.
    pose proof (candidateGroups_covers g _ s G Hs HG) as Hcover.
    fold groups in Hcover. unfold memGroup in Hcover.
    apply existsb_exists in Hcover. destruct Hcover as [G0 [HG0 Heq]].
    pose proof (createBundle_members _ _ Hcreate) as [_ [_ [_ Hhas]]].
    unfold fillSharedBundle, getBundlesInBundleGroup.
    rewrite deduplicateBundle_bundleGroups.
    rewrite (groupMembers_eqb _ _ _ Heq).
    match goal with
    | |- context [fold_left _ groups ?gA] =>
        change (memBundle shared
                  (getBundlesInBundleGroup (addToGroups [shared] groups gA) G0)
                = true);
        assert (HgA : bundleGroups gA = bundleGroups g1)
    end.
    { apply (fold_left_invariant
               (fun g2 => bundleGroups g2 = bundleGroups g1)); [|reflexivity].
      intros g2 a _ Hg2.
      apply (fold_left_invariant
               (fun g3 => bundleGroups g3 = bundleGroups g1)); [|exact Hg2].
      intros g3 b _ Hg3. exact Hg3. }
    apply addToGroups_members; [exact HG0|now left|].
    rewrite HgA, Hhas, <- (hasGroup_eqb _ _ _ Heq).
    now apply containing_hasGroup with s.
Qed.

Lemma shared_bundle_joins_groups_witness :
  match extractSharedBundle Examples.md5 (Ok Examples.targetsGraph)
          Examples.sharedCandidate with
  | Ok g' =>
      exists firstBundle,
        hd_error (Candidate.sourceBundles Examples.sharedCandidate)
        = Some firstBundle
        /\ forall s G,
             In s (Candidate.sourceBundles Examples.sharedCandidate) ->
             In G (getBundleGroupsContainingBundle Examples.targetsGraph s) ->
             memBundle (sharedBundle Examples.md5 Examples.sharedCandidate
                                     firstBundle)
                       (getBundlesInBundleGroup g' G) = true
  | Err _ => False
  end.
Proof.
  destruct (extractSharedBundle Examples.md5 (Ok Examples.targetsGraph)
              Examples.sharedCandidate) as [g'|msg] eqn:E.
  - apply (@shared_bundle_joins_groups Examples.md5 Examples.targetsGraph g'
             Examples.sharedCandidate); [reflexivity|exact E].
  - vm_compute in E. discriminate.
Defined.

Lemma hasAsset_not_added (g : BundleGraph) (a y : Asset.t) (b s : Bundle.t) :
  Bundle.eqb b s = false ->
  hasAsset (addAssetGraphToBundle g a b) s y = hasAsset g s y.
Proof.
  intros Hne. unfold hasAsset, addAssetGraphToBundle.
  cbn [containment withContainment].
  apply (fold_left_invariant
           (fun c =>
              existsb (fun p => String.eqb (fst p) (Bundle.id s)
                                && Asset.eqb (snd p) y) c
              = existsb (fun p => String.eqb (fst p) (Bundle.id s)
                                  && Asset.eqb (snd p) y) (containment g)));
    [|reflexivity].
  intros c z _ Hc. rewrite <- Hc. unfold attach.
  destruct (existsb (fun p => String.eqb (fst p) (Bundle.id b)
                              && Asset.eqb (snd p) z) c); [reflexivity|].
  rewrite existsb_app. simpl. unfold Bundle.eqb in Hne. rewrite Hne.
  simpl. now rewrite orb_false_r.
Qed.

Lemma hasAsset_stays_removed (g : BundleGraph) (a y : Asset.t)
  (b s : Bundle.t) :
  hasAsset g s y = false ->
  hasAsset (removeAssetGraphFromBundle g a b) s y = false.
Proof.
  intros H. destruct (hasAsset (removeAssetGraphFromBundle g a b) s y) eqn:E;
    [|reflexivity].
  unfold hasAsset in E. apply existsb_exists in E. destruct E as [p [Hp Htest]].
  apply (removed_contents g a b) in Hp.
  unfold hasAsset in H. rewrite <- H. symmetry. apply existsb_exists.
  now exists p.
Qed.

(** X14. Once a candidate is extracted, none of its source bundles
    contains any of its assets, provided the shared bundle does not
    carry the id of a source bundle. *)
Theorem extracted_assets_leave_sources (md5FromString : string -> string)
  (g g' : BundleGraph) (c : Candidate.t) :
  existsb
    (fun group =>
       OPTIONS.maxParallelRequests
       <=? List.length (getBundlesInBundleGroup g group))
    (candidateGroups g (Candidate.sourceBundles c)) = false ->
  extractSharedBundle md5FromString (Ok g) c = Ok g' ->
  (forall firstBundle,
      hd_error (Candidate.sourceBundles c) = Some firstBundle ->
      memBundle (sharedBundle md5FromString c firstBundle)
                (Candidate.sourceBundles c) = false) ->
  forall a s,
    In a (Candidate.assets c) -> In s (Candidate.sourceBundles c) ->
    hasAsset g' s a = false.
Proof.
  intros Hroom H Hfresh a s Ha Hs.
  destruct (extractSharedBundle_cases md5FromString g c)
    as [[Hfull _]|[[_ [_ [msg E]]]|[_ [fb [rest [g1 [Hsrc [Hcreate E]]]]]]]].
  - cbn zeta in Hfull. rewrite Hroom in Hfull. discriminate.
  - rewrite E in H. discriminate.
  - rewrite E in H. injection H as <-.
    set (shared := sharedBundle md5FromString c fb) in *.
    assert (Hother :
      forall x, In x (Candidate.sourceBundles c) -> Bundle.eqb shared x = false).
    { intros x Hx. specialize (Hfresh fb). rewrite Hsrc in Hfresh.
      specialize (Hfresh eq_refl). rewrite <- Hsrc in Hfresh.
      unfold memBundle in Hfresh. now apply (existsb_false _ _ x Hfresh). }
    unfold fillSharedBundle.
    apply (deduplicateBundle_invariant (fun g2 => hasAsset g2 s a = false)).
    { intros g2 y. apply hasAsset_stays_removed. }
    match goal with
    | |- hasAsset (fold_left ?f ?l ?gA) s a = false =>
        rewrite (@hasAsset_containment gA (fold_left f l gA) s a)
    end.
    2:{ apply (addToGroups_containment [shared]). }
    apply (fold_left_establish (fun g2 => hasAsset g2 s a = false))
      with (x := a).
    + exact Ha.
    + intros g2.
      apply (fold_left_establish (fun g3 => hasAsset g3 s a = false))
        with (x := s).
      * exact Hs.
      * intros g3. apply hasAsset_removed.
      * intros g3 b. apply hasAsset_stays_removed.
    + intros g2 y Hg2.
      apply (fold_left_invariant (fun g3 => hasAsset g3 s a = false)).
      * intros g3 b _. apply hasAsset_stays_removed.
      * rewrite hasAsset_not_added; [exact Hg2|now apply Hother].
Qed.

Lemma extracted_assets_leave_sources_witness :
  match extractSharedBundle Examples.md5 (Ok Examples.targetsGraph)
          Examples.sharedCandidate with
  | Ok g' =>
      hasAsset g' Examples.zBundle (Examples.js "shared.js" 40000) = false
  | Err _ => False
  end.
Proof.
  destruct (extractSharedBundle Examples.md5 (Ok Examples.targetsGraph)
              Examples.sharedCandidate) as [g'|msg] eqn:E.
  - apply (@extracted_assets_leave_sources Examples.md5 Examples.targetsGraph
             g' Examples.sharedCandidate).
    + reflexivity.
    + exact E.
    + intros firstBundle [= <-]. reflexivity.
    + now left.
    + now left.
  - vm_compute in E. discriminate.
Defined.

(** ** Step 4: an asset is bucketed once *)

Section WalkVisited.
Variables (St Ctx : Type).
Variable next : Node -> list Node.
Variable enter : Node -> Ctx -> St -> St * Ctx * bool.
Variable I : list Node -> St -> Prop.
Hypothesis enter_new :
  forall n c v s,
    existsb (nodeEqb n) v = false -> I v s ->
    I (v ++ [n]) (fst (fst (enter n c s))).

(** An invariant that ties the state to the nodes entered so far. *)
Lemma walk_visited (fuel : nat) :
  forall ctx acc node,
    I (fst acc) (snd acc) ->
    I (fst (walk next enter fuel ctx acc node))
      (snd (walk next enter fuel ctx acc node)).
Proof.
  induction fuel as [|fuel IH]; intros ctx acc node Hacc; simpl.
  - exact Hacc.
  - destruct (existsb (nodeEqb node) (fst acc)) eqn:Hv; [exact Hacc|].
    pose proof (@enter_new node ctx (fst acc) (snd acc) Hv Hacc) as Hnew.
    destruct (enter node ctx (snd acc)) as [[st' ctx'] skip].
    simpl in Hnew. destruct skip; [exact Hnew|].
    apply (fold_left_invariant (fun a => I (fst a) (snd a))); [|exact Hnew].
    intros a child _ Ha. now apply IH.
Qed.

Lemma walkAll_visited (fuel : nat) (ctx : Ctx) (roots : list Node) (st : St) :
  I [] st ->
  I (fst (walkAll next enter fuel ctx roots st))
    (snd (walkAll next enter fuel ctx roots st)).
Proof.
  intros Hst. unfold walkAll.
  apply (fold_left_invariant (fun a => I (fst a) (snd a))); [|exact Hst].
  intros a r _ Ha. now apply walk_visited.
Qed.
End WalkVisited.

Lemma nodeEqb_asset_id (a a' : Asset.t) (m : Node) :
  Asset.id a = Asset.id a' ->
  nodeEqb (AssetNode a) m = nodeEqb (AssetNode a') m.
Proof.
  intros H. destruct m; simpl; [|reflexivity]. unfold Asset.eqb. now rewrite H.
Qed.

Lemma bucketed_updated (k : string) (v v' : Candidate.t) (a : Asset.t)
  (l : list (string * Candidate.t)) :
  assoc k l = Some v ->
  Candidate.assets v' = Candidate.assets v ++ [a] ->
  Permutation (bucketed (mapSet k v' l)) (a :: bucketed l).
Proof.
  intros Hget Hassets. unfold bucketed.
  induction l as [|[k0 v0] l IH]; simpl in *; [discriminate|].
  destruct (String.eqb k k0); simpl.
  - injection Hget as ->. rewrite Hassets.
    rewrite <- app_assoc. simpl.
    apply Permutation_sym, Permutation_middle.
  - apply Permutation_trans with (Candidate.assets v0 ++ a :: flat_map
                                    (fun e => Candidate.assets (snd e)) l).
    + apply Permutation_app_head. now apply IH.
    + apply Permutation_sym, Permutation_middle.
Qed.

Lemma bucketed_inserted (k : string) (v : Candidate.t)
  (l : list (string * Candidate.t)) :
  assoc k l = None ->
  bucketed (mapSet k v l) = bucketed l ++ Candidate.assets v.
Proof.
  intros Hget. unfold bucketed.
  induction l as [|[k0 v0] l IH]; simpl in *.
  - now rewrite app_nil_r.
  - destruct (String.eqb k k0); [discriminate|]. simpl.
    rewrite IH by exact Hget. now rewrite app_assoc.
Qed.

(** What an asset node adds to the candidates: itself, once, or nothing. *)
Lemma collectVisitor_buckets (g : BundleGraph) (n : Node) (ctx : unit)
  (cands : list (string * Candidate.t)) :
  let cands' := fst (fst (collectVisitor g n ctx cands)) in
  cands' = cands
  \/ exists a, n = AssetNode a /\ Permutation (bucketed cands') (a :: bucketed cands).
Proof.
  cbn zeta. destruct n as [asset|d]; simpl; [|now left].
  destruct (OPTIONS.minBundles <? List.length (containingBundles g asset));
    simpl; [|now left].
  right. exists asset. split; [reflexivity|].
  destruct (assoc (candidateId (containingBundles g asset)) cands)
    as [candidate|] eqn:Hget.
  - now apply bucketed_updated with candidate.
  - rewrite bucketed_inserted by exact Hget. simpl.
    apply Permutation_sym, Permutation_cons_append.
Qed.

(** X10. No asset is put in a candidate twice, nor in two candidates:
    the traversal enters an asset once. *)
Theorem asset_bucketed_once (g : BundleGraph) :
  NoDup (map Asset.id (bucketed (candidateBundles g))).
Proof.
  unfold candidateBundles, traverse.
  set (I := fun (v : list Node) (cands : list (string * Candidate.t)) =>
              NoDup (map Asset.id (bucketed cands))
              /\ forall a, In a (bucketed cands) ->
                           existsb (nodeEqb (AssetNode a)) v = true).
  assert (Hfinal :
    I (fst (walkAll (children g) (collectVisitor g) (nodeBound g) tt
              (map DependencyNode (entryDependencies (assetGraph g))) []))
      (snd (walkAll (children g) (collectVisitor g) (nodeBound g) tt
              (map DependencyNode (entryDependencies (assetGraph g))) []))).
  { apply walkAll_visited.
    - intros n c v cands Hv [Hnd Hin].
      destruct (collectVisitor_buckets g n c cands) as [->|[a [-> Hperm]]].
      + split; [exact Hnd|]. intros a Ha. rewrite existsb_app, (Hin a Ha).
        reflexivity.
      + split.
        * apply (Permutation_NoDup
                   (l := map Asset.id (a :: bucketed cands))).
          -- apply Permutation_sym. now apply Permutation_map.
          -- simpl. constructor; [|exact Hnd].
             intros Hdup. apply in_map_iff in Hdup.
             destruct Hdup as [a' [Hid Ha']].
             specialize (Hin a' Ha'). apply existsb_exists in Hin.
             destruct Hin as [m [Hm Heq]].
             rewrite (@nodeEqb_asset_id a' a m Hid) in Heq.
             assert (Hvisited : existsb (nodeEqb (AssetNode a)) v = true).
             { apply existsb_exists. now exists m. }
             rewrite Hv in Hvisited. discriminate.
        * intros x Hx. apply (Permutation_in _ Hperm) in Hx.
          rewrite existsb_app. destruct Hx as [<-|Hx].
          -- simpl. rewrite Asset_eqb_refl. now rewrite orb_true_r.
          -- now rewrite (Hin x Hx).
    - split; [constructor|]. intros a []. }
  exact (proj1 Hfinal).
Qed.

(** ** Step 5: the bundle-groups that stay *)

Lemma graphNodes_dependency (g : BundleGraph) (d : Dependency.t) :
  In (DependencyNode d) (graphNodes g) -> In d (allDependencies g).
Proof.
  unfold graphNodes, allDependencies. intros H.
  apply in_app_or in H. apply in_or_app. destruct H as [H|H].
  - left. apply in_map_iff in H. destruct H as [x [Heq Hx]]. injection Heq as ->. exact Hx.
  - right. apply in_app_or in H. destruct H as [H|H].
    + apply in_map_iff in H. destruct H as [x [Heq Hx]]. injection Heq as ->. exact Hx.
    + apply in_map_iff in H. destruct H as [x [Hx _]]. discriminate.
Qed.

Lemma setAddGroup_In (l : list BundleGroup.t) (G R : BundleGroup.t) :
  In R (setAddGroup l G) -> In R l \/ R = G.
Proof.
  unfold setAddGroup. destruct (memGroup G l); [now left|].
  intros H. apply in_app_or in H. destruct H as [H|[<-|[]]]; auto.
Qed.

(** The bundle-groups step 5 records are those of async dependencies of
    the asset graph that are not entries. *)
Lemma recorded_groups_async (g : BundleGraph)
  (s : BundleGraph * list BundleGroup.t) :
  traverse g internalizeVisitor tt (Ok (g, [])) = Ok s ->
  forall R,
    In R (snd s) ->
    exists d,
      In d (allDependencies g)
      /\ Dependency.isEntry d = false /\ Dependency.isAsync d = true
      /\ Dependency.eqb (BundleGroup.dependency R) d = true.
Proof.
  set (P := fun (r : Result (BundleGraph * list BundleGroup.t)) =>
              match r with
              | Ok s =>
                  forall R,
                    In R (snd s) ->
                    exists d,
                      In d (allDependencies g)
                      /\ Dependency.isEntry d = false
                      /\ Dependency.isAsync d = true
                      /\ Dependency.eqb (BundleGroup.dependency R) d = true
              | Err _ => True
              end).
  assert (HP : P (traverse g internalizeVisitor tt (Ok (g, [])))).
  { unfold traverse.
    apply (@walkAll_reached _ _ (children g) internalizeVisitor
             (fun n => In n (graphNodes g)) P).
    - intros n c r Hn Hr. destruct n as [a|d]; simpl; [exact Hr|].
      destruct (Dependency.isEntry d) eqn:Hentry; simpl; [exact Hr|].
      destruct (Dependency.isAsync d) eqn:Hasync; simpl; [|exact Hr].
      destruct r as [[g1 groups]|msg]; simpl; [|exact I].
      destruct (getDependencyResolution g1 d) as [resolution|]; [|exact Hr].
      unfold resolveExternalDependency.
      destruct (find (fun e => Dependency.eqb (BundleGroup.dependency (fst e)) d)
                     (bundleGroups g1)) as [e|] eqn:Hfind.
      + simpl. intros R HR. apply setAddGroup_In in HR.
        destruct HR as [HR | ->]; [now apply Hr|].
        exists d. split; [now apply graphNodes_dependency|].
        split; [exact Hentry|]. split; [exact Hasync|].
        apply find_some in Hfind. exact (proj2 Hfind).
      + destruct (find _ (assetReferences g1)); exact I.
    - intros n c r child Hn _. now apply children_closed.
    - intros r Hr. unfold graphNodes. apply in_or_app. now left.
    - simpl. intros R []. }
  intros E. rewrite E in HP. exact HP.
Qed.

Lemma members_in_some_group (G : BundleGroup.t) (b : Bundle.t)
  (l : list (BundleGroup.t * list Bundle.t)) :
  memBundle b (groupMembers G l) = true ->
  existsb (fun e => memBundle b (snd e)) l = true.
Proof.
  induction l as [|[G' members] l IH]; simpl; [discriminate|].
  destruct (BundleGroup.eqb G' G).
  - intros H. now rewrite H.
  - intros H. rewrite (IH H). apply orb_true_r.
Qed.

(** Removing a bundle-group leaves the other bundle-groups as they are,
    and the bundles they hold in the graph. *)
Lemma removeBundleGroup_other (g : BundleGraph) (R G : BundleGroup.t) :
  BundleGroup.eqb G R = false ->
  hasGroup (bundleGroups (removeBundleGroup g R)) G
  = hasGroup (bundleGroups g) G
  /\ getBundlesInBundleGroup (removeBundleGroup g R) G
     = getBundlesInBundleGroup g G
  /\ forall b,
       In b (bundles g) ->
       memBundle b (getBundlesInBundleGroup g G) = true ->
       In b (bundles (removeBundleGroup g R)).
Proof.
  intros Hne.
  assert (Hdrop : forall G', BundleGroup.eqb G' R = true ->
                             BundleGroup.eqb G' G = false).
  { intros G' H. rewrite (Group_eqb_trans _ _ G H).
    now rewrite Group_eqb_sym. }
  assert (Hhas :
    hasGroup (filter (fun e => negb (BundleGroup.eqb (fst e) R))
                     (bundleGroups g)) G
    = hasGroup (bundleGroups g) G).
  { unfold hasGroup. induction (bundleGroups g) as [|e l IH]; simpl;
      [reflexivity|].
    destruct (BundleGroup.eqb (fst e) R) eqn:E; simpl.
    - now rewrite (Hdrop _ E).
    - now rewrite IH. }
  assert (Hmembers :
    groupMembers G (filter (fun e => negb (BundleGroup.eqb (fst e) R))
                           (bundleGroups g))
    = groupMembers G (bundleGroups g)).
  { clear Hhas. induction (bundleGroups g) as [|[G' members] l IH]; simpl;
      [reflexivity|].
    destruct (BundleGroup.eqb G' R) eqn:E; simpl.
    - rewrite (Hdrop _ E). exact IH.
    - now rewrite IH. }
  split; [exact Hhas|]. split; [exact Hmembers|].
  intros b Hb Hmem. unfold removeBundleGroup. cbn [bundles].
  apply filter_In. split; [exact Hb|].
  unfold getBundlesInBundleGroup in Hmem. rewrite <- Hmembers in Hmem.
  apply members_in_some_group in Hmem. rewrite Hmem.
  now rewrite andb_false_r.
Qed.

(** X15. Step 5 leaves alone every bundle-group whose dependency is an
    entry or is not async: the group stays, with the bundles it has, and
    none of these bundles is deleted. *)
Theorem optimizeStep5_keeps_entry_groups (g g' : BundleGraph)
  (G : BundleGroup.t) :
  optimizeStep5 g = Ok g' ->
  forallb (fun d => negb (Dependency.eqb d (BundleGroup.dependency G))
                    || Dependency.isEntry d
                    || negb (Dependency.isAsync d))
          (allDependencies g) = true ->
  hasGroup (bundleGroups g') G = hasGroup (bundleGroups g) G
  /\ getBundlesInBundleGroup g' G = getBundlesInBundleGroup g G
  /\ forall b,
       In b (bundles g) ->
       memBundle b (getBundlesInBundleGroup g G) = true ->
       In b (bundles g').
Proof.
  unfold optimizeStep5.
  destruct (traverse g internalizeVisitor tt (Ok (g, [])))
    as [[g1 recorded]|msg] eqn:Htraverse; cbn [bind fst snd]; [|discriminate].
  intros [= <-] Hsync.
  destruct (internalize_traverse_frame g Htraverse)
    as [_ [Hbundles [Hgroups _]]]. cbn [fst] in Hbundles, Hgroups.
  pose proof (recorded_groups_async g Htraverse) as Hrecorded.
  cbn [snd] in Hrecorded.
  assert (Hother : forall R, In R recorded -> BundleGroup.eqb G R = false).
  { intros R HR. destruct (Hrecorded R HR) as [d [Hd [Hentry [Hasync Heq]]]].
    destruct (BundleGroup.eqb G R) eqn:E; [|reflexivity].
    rewrite forallb_forall in Hsync. specialize (Hsync d Hd).
    rewrite Hentry, Hasync in Hsync.
    unfold BundleGroup.eqb, Dependency.eqb in *.
    apply String.eqb_eq in E, Heq.
    rewrite <- Heq, <- E, String.eqb_refl in Hsync. discriminate. }
  assert (Hfold :
    forall l g2,
      (forall R, In R l -> BundleGroup.eqb G R = false) ->
      hasGroup (bundleGroups (fold_left removeOrphanGroup l g2)) G
      = hasGroup (bundleGroups g2) G
      /\ getBundlesInBundleGroup (fold_left removeOrphanGroup l g2) G
         = getBundlesInBundleGroup g2 G
      /\ forall b,
           In b (bundles g2) ->
           memBundle b (getBundlesInBundleGroup g2 G) = true ->
           In b (bundles (fold_left removeOrphanGroup l g2))).
  { induction l as [|R l IH]; intros g2 Hl; cbn [fold_left].
    - repeat split; auto.
    - assert (Hstep :
        hasGroup (bundleGroups (removeOrphanGroup g2 R)) G
        = hasGroup (bundleGroups g2) G
        /\ getBundlesInBundleGroup (removeOrphanGroup g2 R) G
           = getBundlesInBundleGroup g2 G
        /\ forall b,
             In b (bundles g2) ->
             memBundle b (getBundlesInBundleGroup g2 G) = true ->
             In b (bundles (removeOrphanGroup g2 R))).
      { unfold removeOrphanGroup.
        destruct (List.length (getParentBundlesOfBundleGroup g2 R) =? 0);
          [|repeat split; auto].
        apply removeBundleGroup_other. apply Hl. now left. }
      destruct Hstep as [S1 [S2 S3]].
      destruct (IH (removeOrphanGroup g2 R) (fun R' H => Hl R' (or_intror H)))
        as [K1 [K2 K3]].
      split; [congruence|]. split; [congruence|].
      intros b Hb Hmem. apply K3; [now apply S3|]. now rewrite S2. }
  destruct (Hfold recorded g1 Hother) as [K1 [K2 K3]].
  unfold getBundlesInBundleGroup in *. rewrite <- Hgroups, <- Hbundles.
  repeat split; auto.
Qed.

Lemma optimizeStep5_keeps_entry_groups_witness :
  let G := BundleGroup.mk (Examples.entry "entry") Examples.dist in
  match optimizeStep5 Examples.asyncGraph with
  | Ok g' =>
      hasGroup (bundleGroups g') G
      = hasGroup (bundleGroups Examples.asyncGraph) G
      /\ getBundlesInBundleGroup g' G
         = getBundlesInBundleGroup Examples.asyncGraph G
      /\ forall b,
           In b (bundles Examples.asyncGraph) ->
           memBundle b (getBundlesInBundleGroup Examples.asyncGraph G) = true ->
           In b (bundles g')
  | Err _ => False
  end.
Proof.
  cbn zeta.
  destruct (optimizeStep5 Examples.asyncGraph) as [g'|msg] eqn:E.
  - apply (@optimizeStep5_keeps_entry_groups Examples.asyncGraph g'
             (BundleGroup.mk (Examples.entry "entry") Examples.dist));
      [exact E|reflexivity].
  - vm_compute in E. discriminate.
Defined.

(** ** The optimizer completes on what the bundler made *)

Section WalkTwice.
Variables (St1 Ctx1 St2 Ctx2 : Type).
Variable next : Node -> list Node.
Variable enter1 : Node -> Ctx1 -> St1 -> St1 * Ctx1 * bool.
Variable enter2 : Node -> Ctx2 -> St2 -> St2 * Ctx2 * bool.
Hypothesis descends1 : forall n c s, snd (enter1 n c s) = false.
Hypothesis descends2 : forall n c s, snd (enter2 n c s) = false.

(** Two visitors that never skip the children enter the same nodes. *)
Lemma walk_same_nodes (fuel : nat) :
  forall c1 c2 a1 a2 node,
    fst a1 = fst a2 ->
    fst (walk next enter1 fuel c1 a1 node)
    = fst (walk next enter2 fuel c2 a2 node).
Proof.
  induction fuel as [|fuel IH]; intros c1 c2 a1 a2 node Hv; simpl.
  - exact Hv.
  - rewrite <- Hv.
    destruct (existsb (nodeEqb node) (fst a1)); [exact Hv|].
    pose proof (descends1 node c1 (snd a1)) as D1.
    pose proof (descends2 node c2 (snd a2)) as D2.
    destruct (enter1 node c1 (snd a1)) as [[st1 ctx1] skip1].
    destruct (enter2 node c2 (snd a2)) as [[st2 ctx2] skip2].
    simpl in D1, D2. subst skip1 skip2.
    assert (Hstart : fst (fst a1 ++ [node], st1) = fst (fst a1 ++ [node], st2))
      by reflexivity.
    revert Hstart.
    generalize (fst a1 ++ [node], st1) as b1.
    generalize (fst a1 ++ [node], st2) as b2.
    induction (next node) as [|child l IHl]; intros b2 b1 Hb; simpl.
    + exact Hb.
    + apply IHl. now apply IH.
Qed.

Lemma walkAll_same_nodes (fuel : nat) (c1 : Ctx1) (c2 : Ctx2)
  (roots : list Node) (s1 : St1) (s2 : St2) :
  fst (walkAll next enter1 fuel c1 roots s1)
  = fst (walkAll next enter2 fuel c2 roots s2).
Proof.
  unfold walkAll.
  assert (Hstart : fst (@nil Node, s1) = fst (@nil Node, s2)) by reflexivity.
  revert Hstart. generalize (@nil Node, s1) as b1.
  generalize (@nil Node, s2) as b2.
  induction roots as [|r roots IH]; intros b2 b1 Hb; simpl.
  - exact Hb.
  - apply IH. now apply walk_same_nodes.
Qed.
End WalkTwice.

Section WalkEntered.
Variables (St Ctx : Type).
Variable next : Node -> list Node.
Variable enter : Node -> Ctx -> St -> St * Ctx * bool.
Variable V : list Node.
Variable P : St -> Prop.
Hypothesis enter_keeps :
  forall n c s, In n V -> P s -> P (fst (fst (enter n c s))).

Lemma walk_grows (fuel : nat) (ctx : Ctx) (acc : list Node * St)
  (node : Node) :
  incl (fst acc) (fst (walk next enter fuel ctx acc node)).
Proof.
  apply (walk_visited next enter (fun v _ => incl (fst acc) v)).
  - intros n c v s _ Hv x Hx. apply in_or_app. left. now apply Hv.
  - apply incl_refl.
Qed.

Lemma walks_grow (fuel : nat) (ctx : Ctx) (nodes : list Node) :
  forall acc,
    incl (fst acc) (fst (fold_left (walk next enter fuel ctx) nodes acc)).
Proof.
  induction nodes as [|n nodes IH]; intros acc; simpl; [apply incl_refl|].
  apply incl_tran with (fst (walk next enter fuel ctx acc n));
    [apply walk_grows|apply IH].
Qed.

(** An invariant the visitor keeps at the nodes the descent ends up
    having entered. *)
Lemma walk_entered (fuel : nat) :
  forall ctx acc node,
    incl (fst (walk next enter fuel ctx acc node)) V ->
    P (snd acc) -> P (snd (walk next enter fuel ctx acc node)).
Proof.
  induction fuel as [|fuel IH]; intros ctx acc node; simpl.
  - auto.
  - destruct (existsb (nodeEqb node) (fst acc)); [auto|].
    pose proof (fun H => @enter_keeps node ctx (snd acc) H) as Hkeep.
    destruct (enter node ctx (snd acc)) as [[st' ctx'] skip].
    simpl in Hkeep. intros Hincl Hacc.
    assert (Hnode : In node V).
    { apply Hincl. destruct skip.
      - simpl. apply in_or_app. right. now left.
      - apply (walks_grow fuel ctx' (next node)). simpl.
        apply in_or_app. right. now left. }
    specialize (Hkeep Hnode Hacc).
    destruct skip; [exact Hkeep|].
    revert Hincl.
    assert (Hstart : P (snd (fst acc ++ [node], st'))) by exact Hkeep.
    revert Hstart. generalize (fst acc ++ [node], st') as a.
    induction (next node) as [|child l IHl]; intros a Ha Hincl; simpl in *.
    + exact Ha.
    + apply IHl; [|exact Hincl]. apply IH; [|exact Ha].
      apply incl_tran with
        (fst (fold_left (walk next enter fuel ctx') l
                (walk next enter fuel ctx' a child)));
        [apply walks_grow|exact Hincl].
Qed.

Lemma walkAll_entered (fuel : nat) (ctx : Ctx) (roots : list Node) (st : St) :
  incl (fst (walkAll next enter fuel ctx roots st)) V ->
  P st -> P (snd (walkAll next enter fuel ctx roots st)).
Proof.
  unfold walkAll.
  assert (Hgen :
    forall a,
      incl (fst (fold_left (walk next enter fuel ctx) roots a)) V ->
      P (snd a) -> P (snd (fold_left (walk next enter fuel ctx) roots a))).
  { induction roots as [|r roots IH]; intros a Hincl Ha; simpl in *.
    - exact Ha.
    - apply IH; [exact Hincl|]. apply walk_entered; [|exact Ha].
      apply incl_tran with
        (fst (fold_left (walk next enter fuel ctx) roots
                (walk next enter fuel ctx a r)));
        [apply walks_grow|exact Hincl]. }
  intros Hincl Hst. now apply Hgen.
Qed.
End WalkEntered.

Lemma children_of_asset_graph (g g' : BundleGraph) :
  assetGraph g' = assetGraph g ->
  children g' = children g /\ nodeBound g' = nodeBound g.
Proof.
  intros H. unfold children, nodeBound, getDependencies, getDependencyAssets.
  now rewrite H.
Qed.

Lemma hasGroupOf_keys (l l' : list (BundleGroup.t * list Bundle.t))
  (d : Dependency.t) :
  map fst l' = map fst l -> hasGroupOf l' d = hasGroupOf l d.
Proof.
  revert l'. unfold hasGroupOf.
  induction l as [|e l IH]; intros [|e' l'] H; simpl in *;
    try discriminate; [reflexivity|].
  injection H as H1 H2. now rewrite H1, (IH l' H2).
Qed.

(** Steps 2 to 4 complete, on the same asset graph and with the same
    bundle-groups. *)
Lemma optimize_keeps_groups (md5FromString : string -> string)
  (g : BundleGraph) :
  exists g4,
    optimizeStep4 md5FromString (optimizeStep3 (optimizeStep2 g)) = Ok g4
    /\ assetGraph g4 = assetGraph g
    /\ assetReferences g4 = assetReferences g
    /\ map fst (bundleGroups g4) = map fst (bundleGroups g).
Proof.
  set (P := fun g' => assetGraph g' = assetGraph g
                      /\ assetReferences g' = assetReferences g
                      /\ map fst (bundleGroups g') = map fst (bundleGroups g)).
  assert (H2 : P (optimizeStep2 g)).
  { apply optimizeStep2_invariant.
    - intros g1 a b _ Hg1 _ _ _ _. exact Hg1.
    - intros g1 b G _ [K1 [K2 K3]] _. split; [exact K1|]. split; [exact K2|].
      now rewrite add_groups.
    - repeat split. }
  assert (H3 : P (optimizeStep3 (optimizeStep2 g))).
  { unfold optimizeStep3, traverseBundlesExit.
    apply (fold_left_invariant P); [|exact H2].
    intros g1 b _ Hg1. apply deduplicateBundle_invariant; [|exact Hg1].
    intros g2 a Hg2. exact Hg2. }
  destruct (optimizeStep4_total md5FromString (optimizeStep3 (optimizeStep2 g)))
    as [g4 H4].
  exists g4. split; [exact H4|].
  revert H4. unfold optimizeStep4.
  apply (optimizeStep4_invariant md5FromString P); [|exact H3].
  intros g1 c g2 _ [K1 [K2 K3]] Hextract.
  destruct (extractSharedBundle_capacity md5FromString g1 c Hextract)
    as [Hkeys _].
  split; [|split; [|congruence]].
  - destruct (extractSharedBundle_cases md5FromString g1 c)
      as [[_ E]|[[_ [_ [msg E]]]|[_ [fb [rest [g3 [_ [Hcreate E]]]]]]]];
      rewrite E in Hextract; [|discriminate|]; injection Hextract as <-;
      [exact K1|].
    apply createBundle_spec in Hcreate. destruct Hcreate as [_ [Hag _]].
    rewrite <- K1, <- Hag.
    apply (fillSharedBundle_invariant
             (fun g' => assetGraph g' = assetGraph g3)); auto.
  - destruct (extractSharedBundle_cases md5FromString g1 c)
      as [[_ E]|[[_ [_ [msg E]]]|[_ [fb [rest [g3 [_ [Hcreate E]]]]]]]];
      rewrite E in Hextract; [|discriminate|]; injection Hextract as <-;
      [exact K2|].
    assert (Hrefs : assetReferences g3 = assetReferences g1).
    { unfold createBundle in Hcreate.
      destruct (newBundle _) as [b|]; simpl in Hcreate; [|discriminate].
      destruct (memBundle b (bundles g1)); injection Hcreate as <- _;
        reflexivity. }
    rewrite <- K2, <- Hrefs.
    apply (fillSharedBundle_invariant
             (fun g' => assetReferences g' = assetReferences g3)); auto.
Qed.

Lemma existsb_find (A : Type) (f : A -> bool) (l : list A) :
  existsb f l = true -> exists x, find f l = Some x.
Proof.
  induction l as [|y l IH]; simpl; [discriminate|].
  destruct (f y); [now exists y|exact IH].
Qed.

(** Step 5 completes when every async dependency it enters that is not an
    entry and has a resolution has its bundle-group. *)
Lemma optimizeStep5_completes (g : BundleGraph) :
  (forall d,
      In (DependencyNode d)
         (fst (walkAll (children g) internalizeVisitor (nodeBound g) tt
                 (map DependencyNode (entryDependencies (assetGraph g)))
                 (Ok (g, [])))) ->
      Dependency.isEntry d = false -> Dependency.isAsync d = true ->
      isSome (getDependencyResolution g d) = true ->
      hasGroupOf (bundleGroups g) d = true) ->
  exists g', optimizeStep5 g = Ok g'.
Proof.
  intros Hgroups. unfold optimizeStep5, traverse.
  set (W := walkAll (children g) internalizeVisitor (nodeBound g) tt
              (map DependencyNode (entryDependencies (assetGraph g)))
              (Ok (g, []))) in *.
  assert (Hfinal :
    exists s, snd W = Ok s
              /\ assetGraph (fst s) = assetGraph g
              /\ bundleGroups (fst s) = bundleGroups g).
  { apply (@walkAll_entered _ _ (children g) internalizeVisitor (fst W)
             (fun r => exists s, r = Ok s
                                 /\ assetGraph (fst s) = assetGraph g
                                 /\ bundleGroups (fst s) = bundleGroups g)).
    - intros n c r Hn [[g1 recorded] [-> [K1 K2]]]. cbn [fst] in K1, K2.
      destruct n as [a|d]; cbn [internalizeVisitor fst snd].
      { exists (g1, recorded). auto. }
      destruct (Dependency.isEntry d) eqn:Hentry; cbn [orb].
      { exists (g1, recorded). auto. }
      destruct (Dependency.isAsync d) eqn:Hasync; cbn [negb].
      2:{ exists (g1, recorded). auto. }
      cbn [bind fst snd].
      destruct (@resolution_of_asset_graph g g1 d K1) as [_ Hres].
      destruct (getDependencyResolution g1 d) as [resolution|] eqn:Hr.
      2:{ exists (g1, recorded). auto. }
      assert (Hhas : hasGroupOf (bundleGroups g) d = true).
      { apply Hgroups; auto. now rewrite <- Hres. }
      rewrite <- K2 in Hhas. apply existsb_find in Hhas.
      destruct Hhas as [e He]. unfold resolveExternalDependency. rewrite He.
      eexists. split; [reflexivity|]. cbn [fst].
      apply (fold_left_invariant
               (fun g2 => assetGraph g2 = assetGraph g
                          /\ bundleGroups g2 = bundleGroups g));
        [|now split].
      intros g2 b _ [L1 L2].
      destruct (internalizeIn_frame resolution d g2 b) as [F1 [_ [F3 _]]].
      split; congruence.
    - apply incl_refl.
    - exists (g, []). auto. }
  destruct Hfinal as [s [-> _]]. cbn [bind]. now eexists.
Qed.

Lemma enter_descends (n : Node) (c : option Context.t)
  (st : Result BundlerState) :
  snd (enter n c st) = false.
Proof.
  destruct st as [s|msg]; [|reflexivity]. destruct n as [a|d]; [reflexivity|].
  simpl. now destruct (enterDependency s c d) as [[s' c']|msg].
Qed.

Lemma internalizeVisitor_descends (n : Node) (c : unit)
  (st : Result (BundleGraph * list BundleGroup.t)) :
  snd (internalizeVisitor n c st) = false.
Proof. reflexivity. Qed.

(** X18. [optimize] does not throw on a bundle graph that [bundle]
    returned: step 1 made a bundle-group for every async dependency it
    entered that has a resolution, steps 2 to 4 keep the bundle-groups,
    and the traversal of step 5 enters the same dependencies, so its
    [invariant] holds. *)
Theorem optimize_completes_after_bundle (md5FromString : string -> string)
  (g g1 : BundleGraph) :
  bundle g = Ok g1 -> exists g2, optimize md5FromString g1 = Ok g2.
Proof.
  unfold bundle, traverse.
  set (W1 := walkAll (children g) enter (nodeBound g) None
               (map DependencyNode (entryDependencies (assetGraph g)))
               (Ok (mkBundlerState g [] [] [] [] []))).
  destruct (snd W1) as [s|msg] eqn:Htraverse; cbn [bind]; [|discriminate].
  intros [= <-].
  destruct (bundle_traversal_groups g Htraverse) as [[Hag _] Hopened].
  fold W1 in Hopened.
  destruct (roots_attached (bundleRoots s) (graph s)) as [R0 [_ [R2 _]]].
  cbn zeta in R0, R2.
  set (g1 := fold_left _ (bundleRoots s) (graph s)) in *.
  destruct (optimize_keeps_groups md5FromString g1)
    as [g4 [H4 [Hag4 [_ Hkeys4]]]].
  unfold optimize. rewrite H4. cbn [bind].
  assert (Hsame : assetGraph g4 = assetGraph g) by congruence.
  destruct (@children_of_asset_graph g g4 Hsame) as [Hchildren Hbound].
  apply optimizeStep5_completes.
  rewrite Hchildren, Hbound, Hsame.
  rewrite (@walkAll_same_nodes _ _ _ _ (children g) internalizeVisitor enter
             internalizeVisitor_descends enter_descends
             (nodeBound g) tt None
             (map DependencyNode (entryDependencies (assetGraph g)))
             (Ok (g4, [])) (Ok (mkBundlerState g [] [] [] [] []))).
  fold W1.
  intros d Hd Hentry Hasync Hres.
  rewrite (@hasGroupOf_keys (bundleGroups g1) (bundleGroups g4) d Hkeys4).
  rewrite R2.
  apply Hopened; [exact Hd|].
  destruct (@resolution_of_asset_graph g g4 d Hsame) as [_ Hres4].
  rewrite Hres4 in Hres. unfold opensBundleGroup.
  rewrite Hasync, Hres. simpl. now rewrite orb_true_r.
Qed.

Lemma optimize_completes_after_bundle_witness :
  exists g2, optimize Examples.md5 Examples.pageGraph = Ok g2.
Proof.
  apply (@optimize_completes_after_bundle Examples.md5
           (Examples.emptyGraph Examples.pageAssets) Examples.pageGraph).
  reflexivity.
Defined.

(** ** Step 1: one bundle-group for a dependency *)

(** The bundle-groups after the visitor: those before, and at a
    dependency that opens one, its bundle-group after them. *)
Lemma enter_groups (n : Node) (c c' : option Context.t) (s s' : BundlerState)
  (skip : bool) :
  enter n c (Ok s) = (Ok s', c', skip) ->
  map fst (bundleGroups (graph s')) = map fst (bundleGroups (graph s))
  \/ exists d target,
       n = DependencyNode d
       /\ map fst (bundleGroups (graph s'))
          = map fst (bundleGroups (graph s)) ++ [BundleGroup.mk d target].
Proof.
  destruct n as [a|d]; cbn [enter].
  - intros [= <- _ _]. now left.
  - destruct (enterDependency s c d) as [[s1 c1]|msg] eqn:E; [|discriminate].
    intros [= <- _ _]. unfold enterDependency in E.
    destruct (opensBundleGroup d (getDependencyResolution (graph s) d)).
    + right. unfold enterNewGroup in E.
      destruct (orElse (Dependency.target d) (inheritedTarget c))
        as [target|]; [|discriminate].
      cbn [bind nullthrows createBundleGroup fst snd] in E.
      exists d, target. split; [reflexivity|].
      match type of E with
      | context [fold_left (addGroupBundle d ?G ?byType) ?assets (Ok ?s0)] =>
          destruct (addGroupBundles_spec d G byType assets s0)
            as [s2 [Hfold [Hkeys _]]]
      end.
      rewrite Hfold in E. cbn [bind] in E. injection E as <- _.
      rewrite Hkeys. cbn [graph]. unfold withBundleGroups.
      cbn [bundleGroups]. now rewrite map_app.
    + left. now apply (enterSameGroup_groups _ _ _ E).
Qed.

Lemma nodeEqb_dependency_id (d d' : Dependency.t) (m : Node) :
  Dependency.id d = Dependency.id d' ->
  nodeEqb (DependencyNode d) m = nodeEqb (DependencyNode d') m.
Proof.
  intros H. destruct m; simpl; [reflexivity|].
  unfold Dependency.eqb. now rewrite H.
Qed.

(** X5. Step 1 makes one bundle-group for a dependency: on a graph
    without bundle-groups, the bundle-groups it makes are those of
    dependencies with ids of their own. *)
Theorem bundle_groups_distinct (g g' : BundleGraph) :
  bundleGroups g = [] ->
  bundle g = Ok g' ->
  NoDup (map (fun e => Dependency.id (BundleGroup.dependency (fst e)))
             (bundleGroups g')).
Proof.
  intros Hnone. unfold bundle, traverse.
  set (depId := fun G => Dependency.id (BundleGroup.dependency G)).
  set (I := fun (v : list Node) (r : Result BundlerState) =>
              forall s, r = Ok s ->
                NoDup (map depId (map fst (bundleGroups (graph s))))
                /\ forall G,
                     In G (map fst (bundleGroups (graph s))) ->
                     existsb (nodeEqb (DependencyNode (BundleGroup.dependency G)))
                             v = true).
  set (W := walkAll (children g) enter (nodeBound g) None
              (map DependencyNode (entryDependencies (assetGraph g)))
              (Ok (mkBundlerState g [] [] [] [] []))).
  assert (Hfinal : I (fst W) (snd W)).
  { apply walkAll_visited.
    - intros n c v [s|msg] Hv Hr s' Hs'; [|discriminate].
      destruct (Hr s eq_refl) as [Hnd Hin].
      destruct (enter n c (Ok s)) as [[r' c'] skip] eqn:E.
      cbn [fst] in Hs'. subst r'.
      destruct (@enter_groups n c c' s s' skip E) as [->|[d [target [-> ->]]]].
      + split; [exact Hnd|]. intros G HG. rewrite existsb_app.
        now rewrite (Hin G HG).
      + split.
        * rewrite map_app. cbn [map].
          apply (Permutation_NoDup
                   (l := depId (BundleGroup.mk d target)
                         :: map depId (map fst (bundleGroups (graph s))))).
          { apply Permutation_cons_append. }
          constructor; [|exact Hnd].
          intros Hdup. apply in_map_iff in Hdup.
          destruct Hdup as [G [Hid HG]].
          specialize (Hin G HG). apply existsb_exists in Hin.
          destruct Hin as [m [Hm Heq]].
          rewrite (@nodeEqb_dependency_id (BundleGroup.dependency G) d m Hid)
            in Heq.
          assert (Hvisited : existsb (nodeEqb (DependencyNode d)) v = true).
          { apply existsb_exists. now exists m. }
          rewrite Hv in Hvisited. discriminate.
        * intros G HG. apply in_app_or in HG. rewrite existsb_app.
          destruct HG as [HG|[<-|[]]].
          -- now rewrite (Hin G HG).
          -- cbn. unfold Dependency.eqb. rewrite String.eqb_refl.
             now rewrite orb_true_r.
    - intros s [= <-]. cbn [graph]. rewrite Hnone. split; [constructor|].
      intros G []. }
  fold W. destruct (snd W) as [s|msg] eqn:Htraverse; cbn [bind];
    [|discriminate].
  intros [= <-].
  destruct (roots_attached (bundleRoots s) (graph s)) as [_ [_ [R2 _]]].
  cbn zeta in R2. rewrite R2.
  destruct (Hfinal s eq_refl) as [Hnd _]. now rewrite map_map in Hnd.
Qed.

Lemma bundle_groups_distinct_witness :
  NoDup (map (fun e => Dependency.id (BundleGroup.dependency (fst e)))
             (bundleGroups Examples.pageGraph)).
Proof.
  apply (@bundle_groups_distinct
           (Examples.emptyGraph Examples.pageAssets) Examples.pageGraph);
    reflexivity.
Defined.

(** ** Bundles keep ids of their own *)

Lemma NoDup_distinct (l : list string) : NoDup l -> distinct l = true.
Proof.
  induction 1 as [|x l Hx _ IH]; simpl; [reflexivity|].
  rewrite IH, andb_true_r. apply negb_true_iff.
  destruct (existsb (String.eqb x) l) eqn:E; [|reflexivity].
  apply existsb_exists in E. destruct E as [y [Hy Heq]].
  apply String.eqb_eq in Heq. now subst y.
Qed.

Lemma created_ids_distinct (g g1 : BundleGraph) (opts : CreateBundleOpts.t)
  (b : Bundle.t) :
  createBundle g opts = Ok (g1, b) ->
  NoDup (map Bundle.id (bundles g)) -> NoDup (map Bundle.id (bundles g1)).
Proof.
  intros Hcreate Hnd.
  pose proof (createBundle_spec _ _ Hcreate) as [_ [_ [_ [_ [-> _]]]]].
  destruct (memBundle b (bundles g)) eqn:Hmem.
  - now rewrite replaced_ids.
  - rewrite map_app. cbn [map].
    apply (Permutation_NoDup (l := Bundle.id b :: map Bundle.id (bundles g))).
    { apply Permutation_cons_append. }
    constructor; [|exact Hnd].
    intros Hin. apply memBundle_id in Hin. rewrite Hmem in Hin. discriminate.
Qed.

(** X6. [bundle] and [optimize] keep the ids of the bundles distinct: a
    bundle made with the id of another takes its place, and bundles are
    otherwise only deleted. *)
Theorem bundle_ids_stay_distinct (md5FromString : string -> string)
  (g g' : BundleGraph) :
  uniqueBundleIds g = true ->
  bundle g = Ok g' \/ optimize md5FromString g = Ok g' ->
  uniqueBundleIds g' = true.
Proof.
  unfold uniqueBundleIds. intros Hg Hrun. apply distinct_NoDup in Hg.
  apply NoDup_distinct. destruct Hrun as [Hrun|Hrun].
  - unfold bundle in Hrun.
    destruct (traverse g enter None (Ok (mkBundlerState g [] [] [] [] [])))
      as [s|msg] eqn:Htraverse; cbn [bind] in Hrun; [|discriminate].
    injection Hrun as <-.
    destruct (bundle_traversal_consistent g Htraverse)
      as [_ [_ [_ [_ I5]]]].
    destruct (roots_attached (bundleRoots s) (graph s)) as [_ [K1 _]].
    cbn zeta in K1. rewrite K1. now apply I5.
  - unfold optimize in Hrun.
    set (P := fun g1 => NoDup (map Bundle.id (bundles g1))).
    assert (H2 : P (optimizeStep2 g)).
    { apply optimizeStep2_invariant; auto. }
    assert (H3 : P (optimizeStep3 (optimizeStep2 g))).
    { unfold optimizeStep3, traverseBundlesExit.
      apply (fold_left_invariant P); [|exact H2].
      intros g1 b _ Hg1. apply deduplicateBundle_invariant; auto. }
    destruct (optimizeStep4 md5FromString (optimizeStep3 (optimizeStep2 g)))
      as [g4|msg] eqn:H4; cbn [bind] in Hrun; [|discriminate].
    assert (Hg4 : P g4).
    { revert H4. unfold optimizeStep4.
      apply (optimizeStep4_invariant md5FromString P); [|exact H3].
      intros g1 c g2 _ Hg1 Hextract.
      destruct (extractSharedBundle_cases md5FromString g1 c)
        as [[_ E]|[[_ [_ [msg E]]]|[_ [fb [rest [g3 [_ [Hcreate E]]]]]]]];
        rewrite E in Hextract; [|discriminate|]; injection Hextract as <-;
        [exact Hg1|].
      apply (fillSharedBundle_invariant P); auto.
      now apply (created_ids_distinct _ _ Hcreate). }
    unfold optimizeStep5 in Hrun.
    destruct (traverse g4 internalizeVisitor tt (Ok (g4, [])))
      as [[g5 recorded]|msg] eqn:Htraverse; cbn [bind fst snd] in Hrun;
      [|discriminate].
    injection Hrun as <-.
    destruct (internalize_traverse_frame g4 Htraverse) as [_ [Hbundles _]].
    cbn [fst] in Hbundles.
    apply (fold_left_invariant P).
    + intros g6 R _ Hg6. unfold removeOrphanGroup.
      destruct (List.length (getParentBundlesOfBundleGroup g6 R) =? 0);
        [|exact Hg6].
      unfold P, removeBundleGroup. cbn [bundles].
      now apply filter_keeps_distinct_ids.
    + unfold P. now rewrite Hbundles.
Qed.

Lemma bundle_ids_stay_distinct_witness :
  uniqueBundleIds Examples.inlineGraph = true
  /\ uniqueBundleIds Examples.inlineOptimized = true.
Proof.
  split.
  - apply (@bundle_ids_stay_distinct Examples.md5
             (Examples.emptyGraph Examples.inlineAssets) Examples.inlineGraph);
      [reflexivity|left; reflexivity].
  - apply (@bundle_ids_stay_distinct Examples.md5
             Examples.inlineGraph Examples.inlineOptimized);
      [reflexivity|right; reflexivity].
Defined.

(** ** What the optimizer leaves alone *)

Lemma removeOrphanGroup_frame (g : BundleGraph) (R : BundleGroup.t) :
  let g' := removeOrphanGroup g R in
  assetGraph g' = assetGraph g
  /\ assetReferences g' = assetReferences g
  /\ internalized g' = internalized g
  /\ incl (bundles g') (bundles g)
  /\ incl (bundleGroups g') (bundleGroups g)
  /\ incl (containment g') (containment g)
  /\ incl (bundleReferences g') (bundleReferences g).
Proof.
  cbn zeta. unfold removeOrphanGroup.
  destruct (List.length (getParentBundlesOfBundleGroup g R) =? 0);
    [|repeat split; apply incl_refl].
  unfold removeBundleGroup. cbn.
  repeat split; intros x Hx; apply filter_In in Hx; tauto.
Qed.

(** X16. Step 5 moves no asset and makes nothing: it marks dependencies
    as internalized, and deletes bundle-groups with the bundles,
    contents and references that go with them. *)
Theorem optimizeStep5_frame (g g' : BundleGraph) :
  optimizeStep5 g = Ok g' ->
  assetGraph g' = assetGraph g
  /\ assetReferences g' = assetReferences g
  /\ incl (bundles g') (bundles g)
  /\ incl (bundleGroups g') (bundleGroups g)
  /\ incl (containment g') (containment g)
  /\ incl (bundleReferences g') (bundleReferences g)
  /\ forall b d, isInternalized g b d = true -> isInternalized g' b d = true.
Proof.
  unfold optimizeStep5.
  destruct (traverse g internalizeVisitor tt (Ok (g, [])))
    as [[g1 recorded]|msg] eqn:Htraverse; cbn [bind fst snd]; [|discriminate].
  intros [= <-].
  destruct (internalize_traverse_frame g Htraverse)
    as [F1 [F2 [F3 [F4 [F5 F6]]]]]. cbn [fst] in *.
  assert (Hmarked :
    forall b d, isInternalized g b d = true -> isInternalized g1 b d = true).
  { assert (HP :
      match traverse g internalizeVisitor tt (Ok (g, [])) with
      | Ok s => forall b d, isInternalized g b d = true ->
                            isInternalized (fst s) b d = true
      | Err _ => True
      end).
    { apply (traverse_invariant g internalizeVisitor
               (fun r =>
                  match r with
                  | Ok s => forall b d, isInternalized g b d = true ->
                                        isInternalized (fst s) b d = true
                  | Err _ => True
                  end)); [|auto].
      intros n c r Hr. destruct n as [a|d]; simpl; [exact Hr|].
      destruct (Dependency.isEntry d || negb (Dependency.isAsync d));
        [exact Hr|].
      destruct r as [[g2 groups]|msg]; simpl; [|exact I].
      destruct (getDependencyResolution g2 d) as [resolution|]; [|exact Hr].
      destruct (resolveExternalDependency g2 d) as [[value|value]|];
        simpl; try exact I.
      intros b d' Hbd.
      apply (fold_left_invariant
               (fun g3 => isInternalized g3 b d' = true));
        [|now apply Hr].
      intros g3 x _ Hg3. unfold internalizeIn.
      destruct (hasAsset g3 x resolution
                || isAssetInAncestorBundles g3 x resolution); [|exact Hg3].
      rewrite isInternalized_added, Hg3. reflexivity. }
    rewrite Htraverse in HP. exact HP. }
  set (P := fun g2 =>
              assetGraph g2 = assetGraph g
              /\ assetReferences g2 = assetReferences g
              /\ incl (bundles g2) (bundles g)
              /\ incl (bundleGroups g2) (bundleGroups g)
              /\ incl (containment g2) (containment g)
              /\ incl (bundleReferences g2) (bundleReferences g)
              /\ forall b d, isInternalized g b d = true ->
                             isInternalized g2 b d = true).
  apply (fold_left_invariant P).
  - intros g2 R _ [K1 [K2 [K3 [K4 [K5 [K6 K7]]]]]].
    destruct (removeOrphanGroup_frame g2 R)
      as [L1 [L2 [L3 [L4 [L5 [L6 L7]]]]]].
    split; [congruence|]. split; [congruence|].
    split; [now apply incl_tran with (bundles g2)|].
    split; [now apply incl_tran with (bundleGroups g2)|].
    split; [now apply incl_tran with (containment g2)|].
    split; [now apply incl_tran with (bundleReferences g2)|].
    intros b d Hbd. unfold isInternalized. rewrite L3. now apply K7.
  - unfold P. rewrite F1, F2, F3, F4, F5, F6.
    repeat split; auto using incl_refl.
Qed.

Lemma optimizeStep5_frame_witness :
  match optimizeStep5 Examples.asyncGraph with
  | Ok g' =>
      assetGraph g' = assetGraph Examples.asyncGraph
      /\ assetReferences g' = assetReferences Examples.asyncGraph
      /\ incl (bundles g') (bundles Examples.asyncGraph)
      /\ incl (bundleGroups g') (bundleGroups Examples.asyncGraph)
      /\ incl (containment g') (containment Examples.asyncGraph)
      /\ incl (bundleReferences g') (bundleReferences Examples.asyncGraph)
      /\ forall b d, isInternalized Examples.asyncGraph b d = true ->
                     isInternalized g' b d = true
  | Err _ => False
  end.
Proof.
  destruct (optimizeStep5 Examples.asyncGraph) as [g'|msg] eqn:E.
  - exact (@optimizeStep5_frame Examples.asyncGraph g' E).
  - vm_compute in E. discriminate.
Defined.

(** X17. [optimize] makes no bundle-group, and leaves the asset graph
    and the asset references as they are. *)
Theorem optimize_frame (md5FromString : string -> string)
  (g g' : BundleGraph) :
  optimize md5FromString g = Ok g' ->
  assetGraph g' = assetGraph g
  /\ assetReferences g' = assetReferences g
  /\ incl (map fst (bundleGroups g')) (map fst (bundleGroups g)).
Proof.
  unfold optimize.
  destruct (optimize_keeps_groups md5FromString g)
    as [g4 [H4 [Hag [Hrefs Hkeys]]]].
  rewrite H4. cbn [bind]. unfold optimizeStep5.
  destruct (traverse g4 internalizeVisitor tt (Ok (g4, [])))
    as [[g5 recorded]|msg] eqn:Htraverse; cbn [bind fst snd]; [|discriminate].
  intros [= <-].
  destruct (internalize_traverse_frame g4 Htraverse)
    as [F1 [_ [F3 [_ [_ F6]]]]]. cbn [fst] in *.
  apply (fold_left_invariant
           (fun g6 =>
              assetGraph g6 = assetGraph g
              /\ assetReferences g6 = assetReferences g
              /\ incl (map fst (bundleGroups g6)) (map fst (bundleGroups g)))).
  - intros g6 R _ [K1 [K2 K3]].
    destruct (removeOrphanGroup_frame g6 R) as [L1 [L2 [_ [_ [L5 _]]]]].
    split; [congruence|]. split; [congruence|].
    apply incl_tran with (map fst (bundleGroups g6)); [|exact K3].
    now apply incl_map.
  - rewrite F1, F3, F6, Hag, Hrefs, Hkeys. repeat split. apply incl_refl.
Qed.

Lemma optimize_frame_witness :
  assetGraph Examples.inlineOptimized = assetGraph Examples.inlineGraph
  /\ assetReferences Examples.inlineOptimized
     = assetReferences Examples.inlineGraph
  /\ incl (map fst (bundleGroups Examples.inlineOptimized))
          (map fst (bundleGroups Examples.inlineGraph)).
Proof.
  apply (@optimize_frame Examples.md5 Examples.inlineGraph
           Examples.inlineOptimized).
  reflexivity.
Defined.

(** ** Step 4: the key of a candidate does not depend on the order *)

Lemma string_compare_trans (x : string) :
  forall y z,
    String.compare x y <> Gt -> String.compare y z <> Gt ->
    String.compare x z <> Gt.
Proof.
  induction x as [|c1 x IH]; intros [|c2 y] [|c3 z]; simpl; try congruence.
  unfold Ascii.compare.
  destruct (N.compare_spec (N_of_ascii c1) (N_of_ascii c2)) as [H12|H12|H12];
    destruct (N.compare_spec (N_of_ascii c2) (N_of_ascii c3)) as [H23|H23|H23];
    destruct (N.compare_spec (N_of_ascii c1) (N_of_ascii c3)) as [H13|H13|H13];
    try congruence; try lia.
  apply IH.
Qed.

Lemma stringLe_trans (x y z : string) :
  stringLe x y -> stringLe y z -> stringLe x z.
Proof.
  unfold stringLe, String.leb. intros Hxy Hyz.
  pose proof (@string_compare_trans x y z) as H.
  destruct (String.compare x y); destruct (String.compare y z);
    destruct (String.compare x z); try reflexivity; try discriminate;
    exfalso; apply H; congruence.
Qed.

Lemma sorted_above (x : string) (l : list string) :
  Sorted stringLe (x :: l) -> forall y, In y l -> stringLe x y.
Proof.
  intros Hsorted.
  assert (Hstrong : StronglySorted stringLe (x :: l)).
  { apply Sorted_StronglySorted; [|exact Hsorted].
    intros a b c. apply stringLe_trans. }
  apply StronglySorted_inv in Hstrong. destruct Hstrong as [_ Hall].
  intros y Hy. rewrite Forall_forall in Hall. now apply Hall.
Qed.

(** Two sorted lists of the same strings are the same list. *)
Lemma sorted_strings_same (l1 : list string) :
  forall l2,
    Sorted stringLe l1 -> Sorted stringLe l2 -> Permutation l1 l2 ->
    l1 = l2.
Proof.
  induction l1 as [|x l1 IH]; intros l2 H1 H2 Hperm.
  - apply Permutation_nil in Hperm. now subst.
  - destruct l2 as [|y l2].
    { apply Permutation_sym, Permutation_nil in Hperm. discriminate. }
    assert (Hxy : x = y).
    { assert (Hx : In x (y :: l2))
        by (apply (Permutation_in _ Hperm); now left).
      assert (Hy : In y (x :: l1))
        by (apply (Permutation_in _ (Permutation_sym Hperm)); now left).
      destruct Hx as [Hx|Hx]; [now subst|].
      destruct Hy as [Hy|Hy]; [now subst|].
      apply String.leb_antisym.
      - now apply (sorted_above H1).
      - now apply (sorted_above H2). }
    subst y. f_equal. apply IH.
    + now inversion H1.
    + now inversion H2.
    + now apply Permutation_cons_inv with x.
Qed.

(** X11. The key under which step 4 buckets an asset depends on the ids
    of the bundles that contain it, not on the order in which they are
    found. *)
Theorem candidate_key_canonical (containing containing' : list Bundle.t) :
  Permutation (map Bundle.id containing) (map Bundle.id containing') ->
  candidateId containing = candidateId containing'.
Proof.
  intros Hperm. unfold candidateId. f_equal.
  destruct (sortStrings_sorts (map Bundle.id containing)) as [S1 P1].
  destruct (sortStrings_sorts (map Bundle.id containing')) as [S2 P2].
  apply sorted_strings_same; [exact S1|exact S2|].
  apply Permutation_trans with (map Bundle.id containing);
    [now apply Permutation_sym|].
  now apply Permutation_trans with (map Bundle.id containing').
Qed.

Lemma candidate_key_canonical_witness :
  candidateId [Examples.zBundle; Examples.aBundle]
  = candidateId [Examples.aBundle; Examples.zBundle].
Proof.
  apply (@candidate_key_canonical [Examples.zBundle; Examples.aBundle]
           [Examples.aBundle; Examples.zBundle]).
  apply perm_swap.
Defined.

(** ** Step 4 without shared assets *)

(** X12. Step 4 leaves the graph as it is when no asset of the asset
    graph is in more than [minBundles] of the bundles that count: the
    traversal buckets nothing, and no bundle is made. *)
Theorem optimizeStep4_nothing_shared (md5FromString : string -> string)
  (g : BundleGraph) :
  forallb (fun a => negb (isSharedCandidate g a)) (graphAssets g) = true ->
  candidateBundles g = [] /\ optimizeStep4 md5FromString g = Ok g.
Proof.
  intros Hnone.
  assert (Hcands : candidateBundles g = []).
  { unfold candidateBundles, traverse.
    apply (@walkAll_reached _ _ (children g) (collectVisitor g)
             (fun n => In n (graphNodes g)) (fun cands => cands = [])).
    - intros n c cands Hn ->. destruct n as [a|d]; [|reflexivity].
      assert (Ha : In a (graphAssets g)).
      { unfold graphNodes in Hn. apply in_app_or in Hn.
        destruct Hn as [Hn|Hn].
        - apply in_map_iff in Hn. destruct Hn as [x [Hx _]]. discriminate.
        - apply in_app_or in Hn. destruct Hn as [Hn|Hn];
            apply in_map_iff in Hn; destruct Hn as [x [Hx Hin]];
            [discriminate|].
          injection Hx as ->. exact Hin. }
      rewrite forallb_forall in Hnone. specialize (Hnone a Ha).
      apply negb_true_iff in Hnone. unfold isSharedCandidate in Hnone.
      cbn [collectVisitor]. rewrite Hnone. reflexivity.
    - intros n c cands child Hn _. now apply children_closed.
    - intros r Hr. unfold graphNodes. apply in_or_app. now left.
    - reflexivity. }
  split; [exact Hcands|].
  unfold optimizeStep4, sortedCandidates. now rewrite Hcands.
Qed.

Lemma optimizeStep4_nothing_shared_witness :
  forallb (fun a => negb (isSharedCandidate Examples.asyncGraph a))
          (graphAssets Examples.asyncGraph) = true
  /\ candidateBundles Examples.asyncGraph = []
  /\ optimizeStep4 Examples.md5 Examples.asyncGraph = Ok Examples.asyncGraph.
Proof.
  split; [reflexivity|].
  apply (@optimizeStep4_nothing_shared Examples.md5 Examples.asyncGraph).
  reflexivity.
Defined.

(** ** Step 5 internalizes what is available *)

Lemma bundles_with_dependency_frame (g g' : BundleGraph) (d : Dependency.t) :
  assetGraph g' = assetGraph g -> bundles g' = bundles g ->
  containment g' = containment g ->
  findBundlesWithDependency g' d = findBundlesWithDependency g d.
Proof.
  destruct g, g'. simpl. intros -> -> ->. reflexivity.
Qed.

(** The loop of step 5 over the bundles that contain the dependency. *)
Lemma internalize_loop_sound (g : BundleGraph) (resolution : Asset.t)
  (d : Dependency.t) (bs : list Bundle.t) (g1 : BundleGraph) :
  bundles g1 = bundles g -> bundleGroups g1 = bundleGroups g ->
  containment g1 = containment g ->
  bundleReferences g1 = bundleReferences g ->
  forall b' d',
    isInternalized (fold_left (internalizeIn resolution d) bs g1) b' d' = true ->
    isInternalized g1 b' d' = true
    \/ (Dependency.id d = Dependency.id d'
        /\ exists b, In b bs /\ Bundle.id b = Bundle.id b'
                     /\ alreadyAvailable g b resolution = true).
Proof.
  intros H1 H2 H3 H4 b' d'.
  apply (fold_left_invariant
           (fun g2 =>
              (bundles g2 = bundles g /\ bundleGroups g2 = bundleGroups g
               /\ containment g2 = containment g
               /\ bundleReferences g2 = bundleReferences g)
              /\ (isInternalized g2 b' d' = true ->
                  isInternalized g1 b' d' = true
                  \/ (Dependency.id d = Dependency.id d'
                      /\ exists b, In b bs /\ Bundle.id b = Bundle.id b'
                                   /\ alreadyAvailable g b resolution = true)))).
  - intros g2 x Hx [[K1 [K2 [K3 K4]]] Hsound].
    destruct (internalizeIn_frame resolution d g2 x)
      as [_ [L1 [L2 [L3 [L4 _]]]]].
    split; [repeat split; congruence|].
    unfold internalizeIn. fold (alreadyAvailable g2 x resolution).
    rewrite (@available_frame g g2 x resolution K1 K2 K3 K4).
    destruct (alreadyAvailable g x resolution) eqn:Havailable; [|exact Hsound].
    rewrite isInternalized_added. intros H. apply orb_true_iff in H.
    destruct H as [H|H]; [now apply Hsound|].
    apply andb_true_iff in H. destruct H as [Hb Hd]. right.
    unfold Bundle.eqb, Dependency.eqb in *.
    apply String.eqb_eq in Hb, Hd. split; [exact Hd|]. now exists x.
  - split; [repeat split; assumption|]. now left.
Qed.

(** X19.  Step 5 internalizes a dependency in a bundle only where the
    loop over the bundles that contain an async dependency found its
    resolution in the bundle or in an ancestor bundle: whatever is
    internalized afterwards was so before, or is internalizable. *)
Theorem optimizeStep5_internalizes_available (g g' : BundleGraph) :
  optimizeStep5 g = Ok g' ->
  forall b d,
    isInternalized g' b d = true ->
    isInternalized g b d = true \/ internalizable g b d.
Proof.
  unfold optimizeStep5.
  destruct (traverse g internalizeVisitor tt (Ok (g, [])))
    as [[g1 recorded]|msg] eqn:Htraverse; cbn [bind fst snd]; [|discriminate].
  intros [= <-] b d Hmarked.
  assert (Hsame :
    internalized (fold_left removeOrphanGroup recorded g1) = internalized g1).
  { apply (fold_left_invariant (fun g2 => internalized g2 = internalized g1));
      [|reflexivity].
    intros g2 R _ Hg2.
    destruct (removeOrphanGroup_frame g2 R) as [_ [_ [L3 _]]]. congruence. }
  unfold isInternalized in Hmarked. rewrite Hsame in Hmarked.
  change (isInternalized g1 b d = true) in Hmarked.
  set (P := fun (r : Result (BundleGraph * list BundleGroup.t)) =>
              match r with
              | Ok s =>
                  (assetGraph (fst s) = assetGraph g
                   /\ bundles (fst s) = bundles g
                   /\ bundleGroups (fst s) = bundleGroups g
                   /\ containment (fst s) = containment g
                   /\ bundleReferences (fst s) = bundleReferences g)
                  /\ (isInternalized (fst s) b d = true ->
                      isInternalized g b d = true \/ internalizable g b d)
              | Err _ => True
              end).
  assert (HP : P (traverse g internalizeVisitor tt (Ok (g, [])))).
  { unfold traverse.
    apply (@walkAll_reached _ _ (children g) internalizeVisitor
             (fun n => In n (graphNodes g)) P).
    - intros n c r Hn Hr. destruct n as [a|d0]; simpl; [exact Hr|].
      destruct (Dependency.isEntry d0) eqn:Hentry; simpl; [exact Hr|].
      destruct (Dependency.isAsync d0) eqn:Hasync; simpl; [|exact Hr].
      destruct r as [[g2 groups]|msg']; simpl; [|exact I].
      destruct Hr as [[K0 [K1 [K2 [K3 K4]]]] Hsound]. cbn [fst] in *.
      destruct (@resolution_of_asset_graph g g2 d0 K0) as [_ Hres].
      destruct (getDependencyResolution g2 d0) as [resolution|] eqn:Hr2;
        [|now split].
      destruct (resolveExternalDependency g2 d0) as [[value|value]|];
        simpl; try exact I.
      rewrite (@bundles_with_dependency_frame g g2 d0 K0 K1 K3).
      split.
      + apply (fold_left_invariant
                 (fun g3 => assetGraph g3 = assetGraph g
                            /\ bundles g3 = bundles g
                            /\ bundleGroups g3 = bundleGroups g
                            /\ containment g3 = containment g
                            /\ bundleReferences g3 = bundleReferences g));
          [|repeat split; assumption].
        intros g3 x _ [M0 [M1 [M2 [M3 M4]]]].
        destruct (internalizeIn_frame resolution d0 g3 x)
          as [L0 [L1 [L2 [L3 [L4 _]]]]].
        repeat split; congruence.
      + intros H.
        destruct (@internalize_loop_sound g resolution d0
                    (findBundlesWithDependency g d0) g2 K1 K2 K3 K4 b d H)
          as [H'|[Hid [x [Hx [Hxb Havailable]]]]]; [now apply Hsound|].
        right. exists d0, resolution, x.
        split; [now apply graphNodes_dependency|].
        repeat split; auto.
    - intros n c r child Hn _. now apply children_closed.
    - intros r Hr. unfold graphNodes. apply in_or_app. now left.
    - simpl. split; [repeat split|]. now left. }
  rewrite Htraverse in HP. cbn [P fst] in HP. now apply (proj2 HP).
Qed.

Lemma optimizeStep5_internalizes_available_witness :
  match optimizeStep5 Examples.asyncGraph with
  | Ok g' =>
      isInternalized g' Examples.entryBundle (Examples.async "a>import(b)")
      = true
      /\ (isInternalized Examples.asyncGraph Examples.entryBundle
                         (Examples.async "a>import(b)") = true
          \/ internalizable Examples.asyncGraph Examples.entryBundle
                            (Examples.async "a>import(b)"))
  | Err _ => False
  end.
Proof.
  destruct (optimizeStep5 Examples.asyncGraph) as [g'|msg] eqn:E.
  - assert (Hmarked :
      isInternalized g' Examples.entryBundle (Examples.async "a>import(b)")
      = true).
    { vm_compute in E. injection E as <-. reflexivity. }
    split; [exact Hmarked|].
    exact (@optimizeStep5_internalizes_available Examples.asyncGraph g' E
             Examples.entryBundle (Examples.async "a>import(b)") Hmarked).
  - vm_compute in E. discriminate.
Defined.
